(** * Sports tracker web client: embedding of the metrics, recording,
      save and export/import code, and the properties checked against it.

    JavaScript numbers are modelled by the real numbers [R]: finite values
    with exact arithmetic.  The infinities and binary rounding are outside
    this model.  The [NaN] that arithmetic gives when an operand is no
    number is modelled where the code can meet it ([Js.Num]).  A nullable
    field [number | null] is an [option]. *)

From Stdlib Require Import Reals Lra Lia List String Ascii ZArith Bool.
From Stdlib Require Import DecimalString.
Import ListNotations.

Set Warnings "-register-all,-notation-for-abbreviation".

Open Scope R_scope.
Open Scope string_scope.
Open Scope list_scope.

(* ================================================================== *)
(** * Part I. The embedding                                             *)
(* ================================================================== *)

Notation number := R (only parsing).

(** [SportType] (db/database.ts) is a union of string literals; at run time
    it is a string, and imported activities carry whatever string the file
    had. *)
Definition SportType := string.

(** ** JavaScript built-ins used by the sources *)
Module Js.

(** [Math.round]: the nearest integer, ties towards plus infinity. *)
Definition Math_round (x : number) : number := IZR (Zfloor (x + 1 / 2)).

(** [Math.abs]. *)
Definition Math_abs (x : number) : number := Rabs x.

(** [Math.max(x, ...xs)] on a non-empty argument list. *)
Definition Math_max (x : number) (xs : list number) : number :=
  fold_left Rmax xs x.

(** [a || b] where [a] is a number or [undefined]/[null] ([None]):
    [0] and a missing value are falsy. *)
Definition or_number (a : option number) (b : number) : number :=
  match a with
  | Some v => if Req_dec_T v 0 then b else v
  | None => b
  end.

(** A parameter with a default value: [weightKg: number = 70]. *)
Definition default_arg (d : number) (a : option number) : number :=
  match a with Some v => v | None => d end.

(** [Math.min(x, ...xs)] on a non-empty argument list. *)
Definition Math_min (x : number) (xs : list number) : number :=
  fold_left Rmin xs x.

(** [Math.floor]. *)
Definition Math_floor (x : number) : number := IZR (Zfloor x).

(** [x % y]: the remainder has the sign of the dividend, the quotient is
    truncated towards zero. *)
Definition Math_trunc (x : number) : number :=
  if Rle_dec 0 x then IZR (Zfloor x) else IZR (Zceil x).

Definition rem (x y : number) : number := x - y * Math_trunc (x / y).

(** What arithmetic gives: a number, or [NaN] when an operand was no number
    (a function or an object: [f * 70] is [NaN]).  [NaN] is falsy, and
    whatever is computed from it is [NaN] again. *)
Inductive Num :=
| Finite (x : number)
| NaN.

Definition lift (f : number -> number) (v : Num) : Num :=
  match v with Finite x => Finite (f x) | NaN => NaN end.

(** [v * y] *)
Definition times (v : Num) (y : number) : Num := lift (fun x => x * y) v.

(** [a || b] where [a] is such a value or [null]: [0], [NaN] and [null] are
    falsy. *)
Definition or_Num (a : option Num) (b : Num) : Num :=
  match a with
  | Some (Finite v) => if Req_dec_T v 0 then b else Finite v
  | Some NaN => b
  | None => b
  end.

End Js.

Coercion Js.Finite : R >-> Js.Num.

(** ** web/src/utils/calories.ts *)
Module Calories.

Record MET_table := {
  running : number;
  cycling : number;
  walking : number;
  hiking : number;
  swimming : number;
  other : number
}.

Definition MET_VALUES : MET_table := {|
  running := 9.8;
  cycling := 7.5;
  walking := 3.5;
  hiking := 6.0;
  swimming := 6.0;
  other := 5.0
|}.

(** The table is an object literal, so [MET_VALUES[key]] finds, besides the
    six own properties, the properties that every object inherits from
    [Object.prototype]: under the names below there is a function, and under
    [__proto__] the prototype object itself.  Every other key gives
    [undefined]. *)
Definition Object_prototype : list string := [
  "constructor"; "hasOwnProperty"; "isPrototypeOf"; "propertyIsEnumerable";
  "toLocaleString"; "toString"; "valueOf"; "__proto__";
  "__defineGetter__"; "__defineSetter__"; "__lookupGetter__";
  "__lookupSetter__"
].

Inductive Property :=
| Own (met : number)
| Inherited
| Undefined.

Definition MET_index (t : MET_table) (key : string) : Property :=
  if key =? "running" then Own (running t)
  else if key =? "cycling" then Own (cycling t)
  else if key =? "walking" then Own (walking t)
  else if key =? "hiking" then Own (hiking t)
  else if key =? "swimming" then Own (swimming t)
  else if key =? "other" then Own (other t)
  else if existsb (String.eqb key) Object_prototype then Inherited
  else Undefined.

(** [v || d]: a function or an object is truthy and stays. *)
Definition or_default (v : Property) (d : number) : Property :=
  match v with
  | Own x => if Req_dec_T x 0 then Own d else Own x
  | Inherited => Inherited
  | Undefined => Own d
  end.

(** The operand that [*] sees: a number as it is, a function or an object as
    [NaN]. *)
Definition ToNumber (v : Property) : Js.Num :=
  match v with
  | Own x => Js.Finite x
  | Inherited => Js.NaN
  | Undefined => Js.NaN
  end.

Definition estimateCalories (sportType : SportType)
    (durationSeconds : number) (weightKg : option number) : Js.Num :=
  let weightKg := Js.default_arg 70 weightKg in
  let met := or_default (MET_index MET_VALUES sportType) (other MET_VALUES) in
  let durationHours := durationSeconds / 3600 in
  Js.lift Js.Math_round
    (Js.times (Js.times (ToNumber met) weightKg) durationHours).

Definition estimateCaloriesWithDistance (sportType : SportType)
    (distanceMeters durationSeconds : number) (weightKg : option number)
    : Js.Num :=
  let weightKg' := Js.default_arg 70 weightKg in
  if (sportType =? "running") || (sportType =? "walking") then
    let distanceKm := distanceMeters / 1000 in
    let factor := if sportType =? "running" then 1.0 else 0.5 in
    Js.Finite (Js.Math_round (weightKg' * distanceKm * factor))
  else
    estimateCalories sportType durationSeconds (Some weightKg').

End Calories.

(** ** web/src/utils/distance.ts *)
Module Distance.

(** The structural parameter types [{ latitude; longitude }] and
    [{ elevation_meters }] of the source. *)
Class Located (P : Type) := {
  latitude : P -> number;
  longitude : P -> number
}.

Class Elevated (P : Type) := {
  elevation_meters : P -> option number
}.

(** [Math.atan2(y, x)]. *)
Definition Math_atan2 (y x : number) : number :=
  if Rlt_dec 0 x then atan (y / x)
  else if Rlt_dec x 0 then
    (if Rle_dec 0 y then atan (y / x) + PI else atan (y / x) - PI)
  else if Rlt_dec 0 y then PI / 2
  else if Rlt_dec y 0 then - (PI / 2)
  else 0.

(** [Math.sqrt] is [sqrt]: its argument [a] is a haversine, between 0 and 1
    for latitudes between -90 and 90 degrees. *)
Definition calculateDistance (lat1 lon1 lat2 lon2 : number) : number :=
  let R_earth := 6371000 in
  let phi1 := (lat1 * PI) / 180 in
  let phi2 := (lat2 * PI) / 180 in
  let dphi := ((lat2 - lat1) * PI) / 180 in
  let dlambda := ((lon2 - lon1) * PI) / 180 in
  let a :=
    sin (dphi / 2) * sin (dphi / 2) +
    cos phi1 * cos phi2 * sin (dlambda / 2) * sin (dlambda / 2) in
  let c := 2 * Math_atan2 (sqrt a) (sqrt (1 - a)) in
  R_earth * c.

Section Paths.
Context {P : Type} `{Located P}.

(** The body of the [for (let i = 1; ...)] loop, with [prev] standing
    for [points[i - 1]]. *)
Fixpoint total_loop (prev : P) (rest : list P) (total : number) : number :=
  match rest with
  | [] => total
  | p :: rest' =>
      total_loop p rest'
        (total + calculateDistance (latitude prev) (longitude prev)
                                   (latitude p) (longitude p))
  end.

Definition calculateTotalDistance (points : list P) : number :=
  if (List.length points <? 2)%nat then 0
  else match points with
       | [] => 0
       | p0 :: rest => total_loop p0 rest 0
       end.
End Paths.

Record GainLoss := { gain : number; loss : number }.

(** [.filter((e) => e !== null)] *)
Fixpoint non_null (es : list (option number)) : list number :=
  match es with
  | [] => []
  | Some e :: es' => e :: non_null es'
  | None :: es' => non_null es'
  end.

Fixpoint elevation_loop (prev : number) (rest : list number)
    (acc : GainLoss) : GainLoss :=
  match rest with
  | [] => acc
  | e :: rest' =>
      let diff := e - prev in
      elevation_loop e rest'
        (if Rlt_dec 0 diff
         then {| gain := gain acc + diff; loss := loss acc |}
         else {| gain := gain acc; loss := loss acc + Js.Math_abs diff |})
  end.

Definition calculateElevation {P : Type} `{Elevated P} (points : list P)
    : GainLoss :=
  let elevations := non_null (map elevation_meters points) in
  if (List.length elevations <? 2)%nat then {| gain := 0; loss := 0 |}
  else match elevations with
       | [] => {| gain := 0; loss := 0 |}
       | e0 :: rest => elevation_loop e0 rest {| gain := 0; loss := 0 |}
       end.

Section Boxes.
Context {P : Type} `{Located P}.

Definition calculateBounds (points : list P)
    : option ((number * number) * (number * number)) :=
  if (List.length points =? 0)%nat then None
  else
    let lats := map latitude points in
    let lngs := map longitude points in
    match lats, lngs with
    | lat :: lats', lng :: lngs' =>
        Some ((Js.Math_min lat lats', Js.Math_min lng lngs'),
              (Js.Math_max lat lats', Js.Math_max lng lngs'))
    | _, _ => None
    end.
End Boxes.

End Distance.

(** ** web/src/utils/format.ts: durations and pace *)
Module Format.

(** [s.padStart(targetLength, padString)] *)
Fixpoint filler (n : nat) (padString rest : string) : string :=
  match n with
  | O => ""
  | S n' =>
      match rest with
      | String c rest' => String c (filler n' padString rest')
      | EmptyString =>
          match padString with
          | String c pad' => String c (filler n' padString pad')
          | EmptyString => ""
          end
      end
  end.

Definition padStart (s : string) (targetLength : nat) (padString : string)
    : string :=
  if (targetLength <=? String.length s)%nat then s
  else (filler (targetLength - String.length s) padString padString ++ s)%string.

(** The three fields that [formatDuration] and [formatDurationLong]
    compute. *)
Definition hrs (seconds : number) : number := Js.Math_floor (seconds / 3600).

Definition mins (seconds : number) : number :=
  Js.Math_floor (Js.rem seconds 3600 / 60).

Definition secs (seconds : number) : number :=
  Js.Math_floor (Js.rem seconds 60).

Section Rendering.
(** How a template literal and [toString] render a number. *)
Variable ToString : number -> string.

Definition formatDuration (seconds : number) : string :=
  let hrs := hrs seconds in
  let mins := mins seconds in
  let secs := secs seconds in
  if Rlt_dec 0 hrs then
    (ToString hrs ++ ":" ++ padStart (ToString mins) 2 "0" ++ ":"
     ++ padStart (ToString secs) 2 "0")%string
  else
    (ToString mins ++ ":" ++ padStart (ToString secs) 2 "0")%string.

Definition formatPace (speedMps : number) : string :=
  if Rle_dec speedMps 0 then "--:-- /km"
  else
    let paceSecondsPerKm := 1000 / speedMps in
    let mins := Js.Math_floor (paceSecondsPerKm / 60) in
    let secs := Js.Math_floor (Js.rem paceSecondsPerKm 60) in
    (ToString mins ++ ":" ++ padStart (ToString secs) 2 "0" ++ " /km")%string.

End Rendering.

End Format.

(** ** hooks/useTimer.ts *)
Module Timer.

(** What one mounted instance of the hook holds: the two [useState] cells
    and the three [useRef] cells. *)
Record HookState := {
  seconds : number;
  isRunning : bool;
  intervalRef : option nat;
  startTimeRef : option number;
  accumulatedRef : number
}.

(** [window]: the intervals that are set, and the next interval id.  Every
    interval the hook sets runs the same callback, which reads the refs. *)
Record Window := {
  intervals : list nat;
  nextIntervalId : nat
}.

Definition World := (HookState * Window)%type.

Definition clearTimer (w : World) : World :=
  let '(s, win) := w in
  match intervalRef s with
  | Some id =>
      ({| seconds := seconds s; isRunning := isRunning s;
          intervalRef := None; startTimeRef := startTimeRef s;
          accumulatedRef := accumulatedRef s |},
       {| intervals := filter (fun i => negb (i =? id)%nat) (intervals win);
          nextIntervalId := nextIntervalId win |})
  | None => w
  end.

(** The callback of the interval; [now] is [Date.now()]. *)
Definition tick (now : number) (s : HookState) : HookState :=
  match startTimeRef s with
  | Some startTime =>
      let elapsed := Js.Math_floor ((now - startTime) / 1000) in
      {| seconds := accumulatedRef s + elapsed; isRunning := isRunning s;
         intervalRef := intervalRef s; startTimeRef := startTimeRef s;
         accumulatedRef := accumulatedRef s |}
  | None => s
  end.

Definition start (now : number) (w : World) : World :=
  let '(s, win) := w in
  ({| seconds := seconds s; isRunning := true;
      intervalRef := Some (nextIntervalId win); startTimeRef := Some now;
      accumulatedRef := 0 |},
   {| intervals := intervals win ++ [nextIntervalId win];
      nextIntervalId := S (nextIntervalId win) |}).

Definition pause (now : number) (w : World) : World :=
  let '(s, win) := w in
  let accumulated :=
    match startTimeRef s with
    | Some startTime =>
        accumulatedRef s + Js.Math_floor ((now - startTime) / 1000)
    | None => accumulatedRef s
    end in
  let '(s, win) :=
    clearTimer ({| seconds := seconds s; isRunning := isRunning s;
                   intervalRef := intervalRef s;
                   startTimeRef := startTimeRef s;
                   accumulatedRef := accumulated |}, win) in
  ({| seconds := seconds s; isRunning := false;
      intervalRef := intervalRef s; startTimeRef := None;
      accumulatedRef := accumulatedRef s |}, win).

Definition resume (now : number) (w : World) : World :=
  let '(s, win) := w in
  ({| seconds := seconds s; isRunning := true;
      intervalRef := Some (nextIntervalId win); startTimeRef := Some now;
      accumulatedRef := accumulatedRef s |},
   {| intervals := intervals win ++ [nextIntervalId win];
      nextIntervalId := S (nextIntervalId win) |}).

(** [stop] returns the new world and the value it returns. *)
Definition stop (now : number) (w : World) : World * number :=
  let finalSeconds :=
    match startTimeRef (fst w) with
    | Some startTime =>
        accumulatedRef (fst w) + Js.Math_floor ((now - startTime) / 1000)
    | None => seconds (fst w)
    end in
  let '(s, win) := clearTimer w in
  (({| seconds := seconds s; isRunning := false;
       intervalRef := intervalRef s; startTimeRef := None;
       accumulatedRef := accumulatedRef s |}, win),
   finalSeconds).

Definition reset (w : World) : World :=
  let '(s, win) := clearTimer w in
  ({| seconds := 0; isRunning := false; intervalRef := intervalRef s;
      startTimeRef := None; accumulatedRef := 0 |}, win).

(** What happens between two calls: the page calls the hook, or an
    interval fires.  Each carries the clock's reading at that moment. *)
Inductive Event :=
| CallStart (now : number)
| CallPause (now : number)
| CallResume (now : number)
| CallReset
| IntervalFires (now : number).

Definition step (w : World) (e : Event) : World :=
  match e with
  | CallStart now => start now w
  | CallPause now => pause now w
  | CallResume now => resume now w
  | CallReset => reset w
  | IntervalFires now =>
      match intervals (snd w) with
      | [] => w
      | _ :: _ => (tick now (fst w), snd w)
      end
  end.

Definition run (w : World) (events : list Event) : World :=
  fold_left step events w.

(** A freshly mounted hook. *)
Definition mounted : World :=
  ({| seconds := 0; isRunning := false; intervalRef := None;
      startTimeRef := None; accumulatedRef := 0 |},
   {| intervals := []; nextIntervalId := 0 |}).

End Timer.

(** ** hooks/useGeolocation.ts *)
Module Geolocation.

(** The platform's position objects, with the fields the hook reads. *)
Module Dom.
Record GeolocationCoordinates := {
  latitude : number;
  longitude : number;
  altitude : option number;
  accuracy : number;
  speed : option number
}.
Record GeolocationPosition := {
  coords : GeolocationCoordinates;
  timestamp : number
}.
Inductive GeolocationPositionError :=
| PERMISSION_DENIED
| POSITION_UNAVAILABLE
| TIMEOUT
| UNKNOWN_CODE.
End Dom.

Record GpsPosition := {
  latitude : number;
  longitude : number;
  elevation_meters : option number;
  accuracy_meters : option number;
  speed_mps : option number;
  timestamp : string
}.

(** What one mounted instance of the hook holds: the five [useState]
    cells and the two [useRef] cells. *)
Record HookState := {
  currentPosition : option GpsPosition;
  positions : list GpsPosition;
  isTracking : bool;
  isPaused : bool;
  error : option string;
  watchIdRef : option nat;
  positionsRef : list GpsPosition
}.

(** The callbacks handed to the platform are the closures of the render in
    which they were handed over.  [handlePosition] is memoised on
    [isPaused] and reads that render's value of it, so a registered
    callback is determined by the [isPaused] it closed over. *)
Record Callbacks := { closed_over_isPaused : bool }.

(** [navigator.geolocation]: whether it exists, the active watches, the
    outstanding [getCurrentPosition] requests, and the next watch id. *)
Record Navigator := {
  supported : bool;
  watches : list (nat * Callbacks);
  requests : list Callbacks;
  nextWatchId : nat
}.

Definition World := (HookState * Navigator)%type.

Section Hook.
(** [new Date(t).toISOString()] *)
Variable toISOString : number -> string.

Definition clearWatch (w : World) : World :=
  let '(s, nav) := w in
  match watchIdRef s with
  | Some id =>
      ({| currentPosition := currentPosition s; positions := positions s;
          isTracking := isTracking s; isPaused := isPaused s;
          error := error s; watchIdRef := None;
          positionsRef := positionsRef s |},
       {| supported := supported nav;
          watches := filter (fun e => negb (fst e =? id)%nat) (watches nav);
          requests := requests nav; nextWatchId := nextWatchId nav |})
  | None => w
  end.

(** The body of [handlePosition]; its first argument is the [isPaused]
    of the closure that runs, not the current state cell. *)
Definition handlePosition (isPaused_closure : bool)
    (position : Dom.GeolocationPosition) (s : HookState) : HookState :=
  let gpsPoint := {|
    latitude := Dom.latitude (Dom.coords position);
    longitude := Dom.longitude (Dom.coords position);
    elevation_meters := Dom.altitude (Dom.coords position);
    accuracy_meters := Some (Dom.accuracy (Dom.coords position));
    speed_mps := Dom.speed (Dom.coords position);
    timestamp := toISOString (Dom.timestamp position)
  |} in
  let positionsRef' :=
    if negb isPaused_closure then positionsRef s ++ [gpsPoint]
    else positionsRef s in
  {| currentPosition := Some gpsPoint;
     positions := if negb isPaused_closure then positionsRef' else positions s;
     isTracking := isTracking s; isPaused := isPaused s;
     error := None; watchIdRef := watchIdRef s;
     positionsRef := positionsRef' |}.

Definition handleError (positionError : Dom.GeolocationPositionError)
    (s : HookState) : HookState :=
  let message :=
    match positionError with
    | Dom.PERMISSION_DENIED =>
        "Location permission denied. Please enable location access."
    | Dom.POSITION_UNAVAILABLE => "Location information unavailable."
    | Dom.TIMEOUT => "Location request timed out."
    | Dom.UNKNOWN_CODE => "Unknown geolocation error"
    end in
  {| currentPosition := currentPosition s; positions := positions s;
     isTracking := isTracking s; isPaused := isPaused s;
     error := Some message; watchIdRef := watchIdRef s;
     positionsRef := positionsRef s |}.

Definition start (w : World) : World :=
  let '(s, nav) := w in
  if negb (supported nav) then
    ({| currentPosition := currentPosition s; positions := positions s;
        isTracking := isTracking s; isPaused := isPaused s;
        error := Some "Geolocation is not supported by this browser.";
        watchIdRef := watchIdRef s; positionsRef := positionsRef s |}, nav)
  else
    (* the callbacks of the render that [start] belongs to *)
    let callbacks := {| closed_over_isPaused := isPaused s |} in
    ({| currentPosition := currentPosition s; positions := [];
        isTracking := true; isPaused := false; error := None;
        watchIdRef := Some (nextWatchId nav); positionsRef := [] |},
     {| supported := supported nav;
        watches := watches nav ++ [(nextWatchId nav, callbacks)];
        requests := requests nav ++ [callbacks];
        nextWatchId := S (nextWatchId nav) |}).

Definition set_isPaused (b : bool) (w : World) : World :=
  let '(s, nav) := w in
  ({| currentPosition := currentPosition s; positions := positions s;
      isTracking := isTracking s; isPaused := b; error := error s;
      watchIdRef := watchIdRef s; positionsRef := positionsRef s |}, nav).

Definition pause (w : World) : World := set_isPaused true w.

Definition resume (w : World) : World := set_isPaused false w.

(** [stop] returns the new world and the value it returns. *)
Definition stop (w : World) : World * list GpsPosition :=
  let '(s, nav) := clearWatch w in
  let finalPositions := positionsRef s in
  (({| currentPosition := currentPosition s; positions := positions s;
       isTracking := false; isPaused := false; error := error s;
       watchIdRef := watchIdRef s; positionsRef := positionsRef s |}, nav),
   finalPositions).

Definition clearError (w : World) : World :=
  let '(s, nav) := w in
  ({| currentPosition := currentPosition s; positions := positions s;
      isTracking := isTracking s; isPaused := isPaused s; error := None;
      watchIdRef := watchIdRef s; positionsRef := positionsRef s |}, nav).

(** What happens between two calls: the user presses a control, or the
    platform reports to the callbacks registered with it. *)
Inductive Event :=
| CallStart
| CallPause
| CallResume
| CallClearError
| WatchFix (position : Dom.GeolocationPosition)
| WatchFailure (positionError : Dom.GeolocationPositionError)
| RequestFix (position : Dom.GeolocationPosition)
| RequestFailure (positionError : Dom.GeolocationPositionError).

Definition step (w : World) (e : Event) : World :=
  match e with
  | CallStart => start w
  | CallPause => pause w
  | CallResume => resume w
  | CallClearError => clearError w
  | WatchFix position =>
      (fold_left
         (fun s entry =>
            handlePosition (closed_over_isPaused (snd entry)) position s)
         (watches (snd w)) (fst w), snd w)
  | WatchFailure positionError =>
      (fold_left (fun s _ => handleError positionError s)
         (watches (snd w)) (fst w), snd w)
  | RequestFix position =>
      match requests (snd w) with
      | [] => w
      | callbacks :: rest =>
          (handlePosition (closed_over_isPaused callbacks) position (fst w),
           {| supported := supported (snd w); watches := watches (snd w);
              requests := rest; nextWatchId := nextWatchId (snd w) |})
      end
  | RequestFailure positionError =>
      match requests (snd w) with
      | [] => w
      | callbacks :: rest =>
          (handleError positionError (fst w),
           {| supported := supported (snd w); watches := watches (snd w);
              requests := rest; nextWatchId := nextWatchId (snd w) |})
      end
  end.

Definition run (w : World) (events : list Event) : World :=
  fold_left step events w.

(** The point that [handlePosition] builds from a platform position. *)
Definition toGpsPosition (position : Dom.GeolocationPosition)
    : GpsPosition :=
  {| latitude := Dom.latitude (Dom.coords position);
     longitude := Dom.longitude (Dom.coords position);
     elevation_meters := Dom.altitude (Dom.coords position);
     accuracy_meters := Some (Dom.accuracy (Dom.coords position));
     speed_mps := Dom.speed (Dom.coords position);
     timestamp := toISOString (Dom.timestamp position) |}.

End Hook.

(** A freshly mounted hook on a platform that offers geolocation. *)
Definition mounted : World :=
  ({| currentPosition := None; positions := []; isTracking := false;
      isPaused := false; error := None; watchIdRef := None;
      positionsRef := [] |},
   {| supported := true; watches := []; requests := []; nextWatchId := 0 |}).

#[global] Instance GpsPosition_Located : Distance.Located GpsPosition :=
  {| Distance.latitude := latitude; Distance.longitude := longitude |}.

#[global] Instance GpsPosition_Elevated : Distance.Elevated GpsPosition :=
  {| Distance.elevation_meters := elevation_meters |}.

End Geolocation.

(** ** JavaScript values that JSON can carry, and that the store keeps

    [JSON.parse] never gives a [NaN]; a stored row can hold one. *)
Module Json.

Inductive JSON :=
| JNull
| JBool (b : bool)
| JNumber (x : Js.Num)
| JString (s : string)
| JArray (items : list JSON)
| JObject (props : list (string * JSON)).

(** A value or [undefined]. *)
Definition JsValue := option JSON.

Definition typeof (v : JsValue) : string :=
  match v with
  | None => "undefined"
  | Some JNull => "object"
  | Some (JBool _) => "boolean"
  | Some (JNumber _) => "number"
  | Some (JString _) => "string"
  | Some (JArray _) => "object"
  | Some (JObject _) => "object"
  end.

(** The condition [!v] tests: [undefined], [null], [false], [0], [NaN] and
    the empty string are falsy. *)
Definition truthy (v : JsValue) : bool :=
  match v with
  | None => false
  | Some JNull => false
  | Some (JBool b) => b
  | Some (JNumber (Js.Finite x)) => if Req_dec_T x 0 then false else true
  | Some (JNumber Js.NaN) => false
  | Some (JString s) => negb (s =? "")
  | Some (JArray _) => true
  | Some (JObject _) => true
  end.

Definition Array_isArray (v : JsValue) : bool :=
  match v with Some (JArray _) => true | _ => false end.

Fixpoint lookup (props : list (string * JSON)) (key : string) : JsValue :=
  match props with
  | [] => None
  | (k, v) :: rest => if k =? key then Some v else lookup rest key
  end.

(** [v.key] for the property names the sources read ([version],
    [activities], [activity], [gpsPoints], [id], [sport_type],
    [started_at], [title], [activity_id]).  None of them is an array index
    or [length], so only a plain object can have one; reading from another
    value gives [undefined]. *)
Definition prop (v : JsValue) (key : string) : JsValue :=
  match v with
  | Some (JObject props) => lookup props key
  | _ => None
  end.

(** [{ ...props, key: v }]: an existing key keeps its place. *)
Fixpoint set_prop (props : list (string * JSON)) (key : string) (v : JSON)
    : list (string * JSON) :=
  match props with
  | [] => [(key, v)]
  | (k, old) :: rest =>
      if k =? key then (k, v) :: rest else (k, old) :: set_prop rest key v
  end.

(** [({ key, ...rest }) => rest] *)
Definition remove_prop (props : list (string * JSON)) (key : string)
    : list (string * JSON) :=
  filter (fun kv => negb (fst kv =? key)) props.

Definition index_name (i : nat) : string :=
  NilEmpty.string_of_uint (Nat.to_uint i).

Fixpoint indexed (i : nat) (items : list JSON) : list (string * JSON) :=
  match items with
  | [] => []
  | v :: rest => (index_name i, v) :: indexed (S i) rest
  end.

Fixpoint characters (s : string) : list JSON :=
  match s with
  | EmptyString => []
  | String c rest => JString (String c EmptyString) :: characters rest
  end.

(** The own enumerable properties that [{ ...v }] copies. *)
Definition spread (v : JSON) : list (string * JSON) :=
  match v with
  | JObject props => props
  | JArray items => indexed 0 items
  | JString s => indexed 0 (characters s)
  | _ => []
  end.

End Json.

(** ** web/src/db/database.ts, and the two Dexie tables it declares *)
Module Db.
Import Json.

Record Activity := {
  id : string;
  title : string;
  sport_type : SportType;
  started_at : string;
  ended_at : string;
  distance_meters : number;
  duration_seconds : number;
  calories : option Js.Num;
  notes : option string;
  elevation_gain : option number;
  elevation_loss : option number;
  avg_speed_mps : option number;
  max_speed_mps : option number
}.

(** A [GpsPoint] as the code builds it, without the optional [id]. *)
Record GpsPoint := {
  activity_id : string;
  latitude : number;
  longitude : number;
  elevation_meters : option number;
  timestamp : string;
  speed_mps : option number;
  accuracy_meters : option number
}.

(** [SPORT_TYPES], without the icons. *)
Record SportOption := { value : SportType; label : string }.

Definition SPORT_TYPES : list SportOption := [
  {| value := "running"; label := "Running" |};
  {| value := "cycling"; label := "Cycling" |};
  {| value := "walking"; label := "Walking" |};
  {| value := "hiking"; label := "Hiking" |};
  {| value := "swimming"; label := "Swimming" |};
  {| value := "other"; label := "Other" |}
].

(** The objects that the records above denote. *)
Definition number_or_null (x : option number) : JSON :=
  match x with Some v => JNumber v | None => JNull end.

Definition Num_or_null (x : option Js.Num) : JSON :=
  match x with Some v => JNumber v | None => JNull end.

Definition string_or_null (x : option string) : JSON :=
  match x with Some v => JString v | None => JNull end.

Definition Activity_object (a : Activity) : JSON :=
  JObject [
    ("id", JString (id a));
    ("title", JString (title a));
    ("sport_type", JString (sport_type a));
    ("started_at", JString (started_at a));
    ("ended_at", JString (ended_at a));
    ("distance_meters", JNumber (distance_meters a));
    ("duration_seconds", JNumber (duration_seconds a));
    ("calories", Num_or_null (calories a));
    ("notes", string_or_null (notes a));
    ("elevation_gain", number_or_null (elevation_gain a));
    ("elevation_loss", number_or_null (elevation_loss a));
    ("avg_speed_mps", number_or_null (avg_speed_mps a));
    ("max_speed_mps", number_or_null (max_speed_mps a))
  ].

Definition GpsPoint_object (p : GpsPoint) : JSON :=
  JObject [
    ("activity_id", JString (activity_id p));
    ("latitude", JNumber (latitude p));
    ("longitude", JNumber (longitude p));
    ("elevation_meters", number_or_null (elevation_meters p));
    ("timestamp", JString (timestamp p));
    ("speed_mps", number_or_null (speed_mps p));
    ("accuracy_meters", number_or_null (accuracy_meters p))
  ].

(** *** The store

    The schema is [activities: 'id, sport_type, started_at'] and
    [gpsPoints: '++id, activity_id, timestamp']: both tables take their
    primary key from the [id] property of the stored object, and
    [gpsPoints] generates one when the object has none.  A table is the
    list of its objects in the order they were added, which for generated
    keys is the order of the keys; where a listing would put an object with
    a key of its own is not modelled.  A rejected promise is an [Err]. *)

Inductive Thrown := ConstraintError | DataError | TypeError.

Inductive Result (A : Type) :=
| Ok (a : A)
| Err (e : Thrown).
Arguments Ok {A} a.
Arguments Err {A} e.

Definition bind {A B : Type} (r : Result A) (f : A -> Result B) : Result B :=
  match r with Ok a => f a | Err e => Err e end.

Record Database := {
  activities : list JSON;
  gpsPoints : list JSON;
  gpsPoints_generator : Z
}.

Definition empty : Database :=
  {| activities := []; gpsPoints := []; gpsPoints_generator := 1 |}.

(** The values that can be keys: numbers other than [NaN], strings, and
    arrays of keys. *)
Fixpoint valid_key (k : JSON) : bool :=
  match k with
  | JNumber (Js.Finite _) => true
  | JString _ => true
  | JArray items => forallb valid_key items
  | _ => false
  end.

Fixpoint key_eqb (a b : JSON) {struct a} : bool :=
  match a, b with
  | JNumber (Js.Finite x), JNumber (Js.Finite y) =>
      if Req_dec_T x y then true else false
  | JString s, JString t => s =? t
  | JArray xs, JArray ys =>
      (fix all2 (xs ys : list JSON) {struct xs} : bool :=
         match xs, ys with
         | [], [] => true
         | x :: xs', y :: ys' => key_eqb x y && all2 xs' ys'
         | _, _ => false
         end) xs ys
  | _, _ => false
  end.

(** Whether the property [path] of [row] is the key [k]. *)
Definition keyed (path : string) (k : JSON) (row : JSON) : bool :=
  match prop (Some row) path with
  | Some k' => key_eqb k' k
  | None => false
  end.

(** [table.get(key)] *)
Definition table_get (key : JsValue) (rows : list JSON)
    : Result (option JSON) :=
  match key with
  | Some k => if valid_key k then Ok (find (keyed "id" k) rows)
              else Err DataError
  | None => Err DataError
  end.

(** [table.where(path).equals(key).toArray()] *)
Definition where_equals (path : string) (key : JsValue) (rows : list JSON)
    : Result (list JSON) :=
  match key with
  | Some k => if valid_key k then Ok (filter (keyed path k) rows)
              else Err DataError
  | None => Err DataError
  end.

(** [db.activities.add(row)]: the key is [row.id] and must be new. *)
Definition activities_add (row : JsValue) (d : Database) : Result Database :=
  match row with
  | None => Err DataError
  | Some r =>
      match prop row "id" with
      | None => Err DataError
      | Some k =>
          if negb (valid_key k) then Err DataError
          else if existsb (keyed "id" k) (activities d) then Err ConstraintError
          else Ok {| activities := activities d ++ [r];
                     gpsPoints := gpsPoints d;
                     gpsPoints_generator := gpsPoints_generator d |}
      end
  end.

(** Adding one value to [gpsPoints]: an [id] it carries is its key and
    moves the generator past it when it is a number; without one the
    generator supplies the key and writes it into the object.  A value
    that is not an object cannot receive a key. *)
Definition gpsPoints_add (row : JSON) (d : Database) : Result Database :=
  match row with
  | JObject props =>
      match lookup props "id" with
      | None =>
          let key := JNumber (IZR (gpsPoints_generator d)) in
          Ok {| activities := activities d;
                gpsPoints :=
                  gpsPoints d ++ [JObject (set_prop props "id" key)];
                gpsPoints_generator := (gpsPoints_generator d + 1)%Z |}
      | Some k =>
          if negb (valid_key k) then Err DataError
          else if existsb (keyed "id" k) (gpsPoints d)
          then Err ConstraintError
          else Ok {| activities := activities d;
                     gpsPoints := gpsPoints d ++ [row];
                     gpsPoints_generator :=
                       match k with
                       | JNumber (Js.Finite x) =>
                           Z.max (gpsPoints_generator d) (Zfloor x + 1)
                       | _ => gpsPoints_generator d
                       end |}
      end
  | _ => Err DataError
  end.

(** [db.gpsPoints.bulkAdd(rows)]: rejects when one of the additions
    fails. *)
Fixpoint gpsPoints_bulkAdd (rows : list JSON) (d : Database)
    : Result Database :=
  match rows with
  | [] => Ok d
  | row :: rest => bind (gpsPoints_add row d) (gpsPoints_bulkAdd rest)
  end.

(** [db.gpsPoints.where(path).equals(key).delete()] *)
Definition gpsPoints_where_equals_delete (path : string) (key : JsValue)
    (d : Database) : Result Database :=
  match key with
  | Some k =>
      if valid_key k
      then Ok {| activities := activities d;
                 gpsPoints :=
                   filter (fun row => negb (keyed path k row)) (gpsPoints d);
                 gpsPoints_generator := gpsPoints_generator d |}
      else Err DataError
  | None => Err DataError
  end.

(** [db.activities.delete(key)]: removes the row stored under [key], if
    there is one. *)
Definition activities_delete (key : JsValue) (d : Database)
    : Result Database :=
  match key with
  | Some k =>
      if valid_key k
      then Ok {| activities :=
                   filter (fun row => negb (keyed "id" k row)) (activities d);
                 gpsPoints := gpsPoints d;
                 gpsPoints_generator := gpsPoints_generator d |}
      else Err DataError
  | None => Err DataError
  end.

(** [db.activities.update(key, changes)]: assigns the properties of
    [changes] to the row stored under [key]; without such a row nothing is
    written. *)
Definition assign (props changes : list (string * JSON))
    : list (string * JSON) :=
  fold_left (fun props kv => set_prop props (fst kv) (snd kv)) changes props.

Definition activities_update (key : JsValue) (changes : list (string * JSON))
    (d : Database) : Result Database :=
  match key with
  | Some k =>
      if valid_key k
      then Ok {| activities :=
                   map (fun row =>
                          if keyed "id" k row
                          then JObject (assign (spread row) changes)
                          else row)
                       (activities d);
                 gpsPoints := gpsPoints d;
                 gpsPoints_generator := gpsPoints_generator d |}
      else Err DataError
  | None => Err DataError
  end.

(** [db.transaction('rw', [db.activities, db.gpsPoints], body)]: when the
    body rejects, nothing it wrote is kept; the caller goes on with the
    database it had. *)
Definition transaction (body : Database -> Result Database) (d : Database)
    : Result Database :=
  body d.

End Db.

(** ** web/src/pages/RecordActivity.tsx: the save step *)
Module RecordActivity.
Import Json.

(** [a || b] on strings: the empty string is falsy. *)
Definition or_string (a : option string) (b : string) : string :=
  match a with
  | Some v => if v =? "" then b else v
  | None => b
  end.

Record Saved := {
  activity : Db.Activity;
  gpsPoints : list Db.GpsPoint;
  written : Db.Result Db.Database
}.

(** [handleSave], from the values it reads: the hook's positions and the
    timer's seconds, the form fields, the clock ([now]) and the fresh
    identifier that [crypto.randomUUID()] returns. *)
Definition handleSave (positions : list Geolocation.GpsPosition)
    (duration : number) (sportType : SportType) (title notes : string)
    (now activityId : string) (d : Db.Database) : Saved :=
  let totalDistance := Distance.calculateTotalDistance positions in
  let elevation := Distance.calculateElevation positions in
  let calories :=
    Calories.estimateCaloriesWithDistance sportType totalDistance duration
      None in
  let startedAt :=
    if (0 <? List.length positions)%nat
    then match nth_error positions 0 with
         | Some p => Geolocation.timestamp p
         | None => now
         end
    else now in
  let endedAt :=
    if (0 <? List.length positions)%nat
    then match nth_error positions (List.length positions - 1) with
         | Some p => Geolocation.timestamp p
         | None => now
         end
    else now in
  let activity := {|
    Db.id := activityId;
    Db.title :=
      or_string (Some title)
        (or_string
           (option_map Db.label
              (find (fun s => Db.value s =? sportType) Db.SPORT_TYPES))
           "Activity");
    Db.sport_type := sportType;
    Db.started_at := startedAt;
    Db.ended_at := endedAt;
    Db.distance_meters := totalDistance;
    Db.duration_seconds := duration;
    Db.calories := Some calories;
    Db.notes := if notes =? "" then None else Some notes;
    Db.elevation_gain := Some (Distance.gain elevation);
    Db.elevation_loss := Some (Distance.loss elevation);
    Db.avg_speed_mps :=
      if Rlt_dec 0 duration then Some (totalDistance / duration) else None;
    Db.max_speed_mps :=
      if (0 <? List.length positions)%nat
      then match map (fun p => Js.or_number (Geolocation.speed_mps p) 0)
                     positions with
           | x :: xs => Some (Js.Math_max x xs)
           | [] => None
           end
      else None
  |} in
  let gpsPoints :=
    map (fun p => {|
           Db.activity_id := activityId;
           Db.latitude := Geolocation.latitude p;
           Db.longitude := Geolocation.longitude p;
           Db.elevation_meters := Geolocation.elevation_meters p;
           Db.timestamp := Geolocation.timestamp p;
           Db.speed_mps := Geolocation.speed_mps p;
           Db.accuracy_meters := Geolocation.accuracy_meters p
         |}) positions in
  {| activity := activity;
     gpsPoints := gpsPoints;
     written :=
       Db.transaction
         (fun d =>
            Db.bind (Db.activities_add (Some (Db.Activity_object activity)) d)
              (fun d =>
                 if (0 <? List.length gpsPoints)%nat
                 then Db.gpsPoints_bulkAdd (map Db.GpsPoint_object gpsPoints) d
                 else Db.Ok d))
         d |}.

End RecordActivity.

(** ** web/src/db: the hooks [useActivities] and [useGpsPoints]

    The writers of the hooks, on the store; the reload of the hook's list
    that follows a write reads the store and changes nothing in it. *)
Module UseActivities.
Import Json.

Definition getActivity (id : string) (d : Db.Database)
    : Db.Result (option JSON) :=
  Db.table_get (Some (JString id)) (Db.activities d).

Definition createActivity (activity : JSON) (d : Db.Database)
    : Db.Result Db.Database :=
  Db.activities_add (Some activity) d.

Definition updateActivity (id : string) (updates : list (string * JSON))
    (d : Db.Database) : Db.Result Db.Database :=
  Db.activities_update (Some (JString id)) updates d.

Definition deleteActivity (id : string) (d : Db.Database)
    : Db.Result Db.Database :=
  Db.transaction
    (fun d =>
       Db.bind (Db.gpsPoints_where_equals_delete "activity_id"
                  (Some (JString id)) d)
         (Db.activities_delete (Some (JString id))))
    d.

End UseActivities.

(** ** web/src/pages/ActivityDetail.tsx *)
Module ActivityDetail.
Import Json.

(** The page's state that the handlers read and write: the route
    parameter [id], the loaded [activity] and the two fields of the edit
    form. *)
Record Page := {
  id : option string;
  activity : JsValue;
  editTitle : string;
  editNotes : string;
  isEditing : bool
}.

(** [!id] on a string or [undefined]. *)
Definition no_id (id : option string) : bool :=
  match id with Some s => s =? "" | None => true end.

(** [editNotes || null] *)
Definition notes_or_null (editNotes : string) : JSON :=
  if editNotes =? "" then JNull else JString editNotes.

Definition handleSaveEdit (page : Page) (d : Db.Database)
    : Db.Result (Page * Db.Database) :=
  if no_id (id page) || negb (truthy (activity page)) then Db.Ok (page, d)
  else
    match id page, activity page with
    | Some s, Some a =>
        let changes :=
          [("title", JString (editTitle page));
           ("notes", notes_or_null (editNotes page))] in
        Db.bind (Db.activities_update (Some (JString s)) changes d) (fun d' =>
          Db.Ok ({| id := id page;
                    activity :=
                      Some (JObject
                              (set_prop
                                 (set_prop (spread a) "title"
                                    (JString (editTitle page)))
                                 "notes" (notes_or_null (editNotes page))));
                    editTitle := editTitle page;
                    editNotes := editNotes page;
                    isEditing := false |}, d'))
    | _, _ => Db.Ok (page, d)
    end.

Definition handleDelete (id : option string) (d : Db.Database)
    : Db.Result Db.Database :=
  if no_id id then Db.Ok d
  else
    match id with
    | Some s =>
        Db.transaction
          (fun d =>
             Db.bind (Db.gpsPoints_where_equals_delete "activity_id"
                        (Some (JString s)) d)
               (Db.activities_delete (Some (JString s))))
          d
    | None => Db.Ok d
    end.

(** The calories cell:
    [activity.calories || estimateCaloriesWithDistance(...)]. *)
Definition calories_cell (activity : Db.Activity) : Js.Num :=
  Js.or_Num (Db.calories activity)
    (Calories.estimateCaloriesWithDistance (Db.sport_type activity)
       (Db.distance_meters activity) (Db.duration_seconds activity) None).

End ActivityDetail.

(** ** web/src/utils/exportImport.ts *)
Module ExportImport.
Import Json Db.

Record ImportResult := {
  success : bool;
  imported : nat;
  skipped : nat;
  errors : list string
}.

(** [({ id, ...point }) => point] *)
Definition cleaned (row : JSON) : JSON :=
  JObject (remove_prop (spread row) "id").

Definition exportActivity (activityId : string) (d : Database)
    : Result (option JSON) :=
  bind (table_get (Some (JString activityId)) (activities d)) (fun activity =>
    if negb (truthy activity) then Ok None
    else
      bind (where_equals "activity_id" (Some (JString activityId))
              (gpsPoints d)) (fun gpsPoints =>
        match activity with
        | Some a =>
            Ok (Some (JObject [("activity", a);
                               ("gpsPoints", JArray (map cleaned gpsPoints))]))
        | None => Ok None
        end)).

(** The loop of [exportAllActivities] over [db.activities.toArray()]. *)
Fixpoint export_loop (rows : list JSON) (d : Database)
    : Result (list JSON) :=
  match rows with
  | [] => Ok []
  | activity :: rest =>
      bind (where_equals "activity_id" (prop (Some activity) "id")
              (gpsPoints d)) (fun gpsPoints =>
        bind (export_loop rest d) (fun exported =>
          Ok (JObject [("activity", activity);
                       ("gpsPoints", JArray (map cleaned gpsPoints))]
              :: exported)))
  end.

(** [now] is [new Date().toISOString()]. *)
Definition exportAllActivities (now : string) (d : Database) : Result JSON :=
  bind (export_loop (activities d) d) (fun exportedActivities =>
    Ok (JObject [("version", JString "1.0");
                 ("exportedAt", JString now);
                 ("activities", JArray exportedActivities)])).

(** One turn of the validation loop. *)
Definition validate_item (item : JSON) : bool :=
  if negb (truthy (Some item)) || negb (typeof (Some item) =? "object")
  then false else
  let activity := prop (Some item) "activity" in
  if negb (truthy activity) || negb (typeof activity =? "object")
  then false else
  if negb (truthy (prop activity "id"))
     || negb (typeof (prop activity "id") =? "string")
  then false else
  if negb (truthy (prop activity "sport_type"))
     || negb (typeof (prop activity "sport_type") =? "string")
  then false else
  if negb (truthy (prop activity "started_at"))
     || negb (typeof (prop activity "started_at") =? "string")
  then false else
  if negb (Array_isArray (prop (Some item) "gpsPoints")) then false
  else true.

Definition validateImportedData (data : JSON) : bool :=
  if negb (truthy (Some data)) || negb (typeof (Some data) =? "object")
  then false else
  if negb (truthy (prop (Some data) "version"))
     || negb (typeof (prop (Some data) "version") =? "string")
  then false else
  match prop (Some data) "activities" with
  | Some (JArray items) => forallb validate_item items
  | _ => false
  end.

Section Platform.
(** [JSON.parse]; [None] when it throws. *)
Variable JSON_parse : string -> option JSON.
(** How a template literal renders a value and a caught exception. *)
Variable ToString : JsValue -> string.
Variable describe : Thrown -> string.

Definition quote : string := String "034"%char EmptyString.

(** The [try] block for one item; [Ok None] is the [continue] of an
    activity that exists already. *)
Definition try_import (item : JSON) (d : Database)
    : Result (option Database) :=
  let activity := prop (Some item) "activity" in
  bind (table_get (prop activity "id") (activities d)) (fun existing =>
    if truthy existing then Ok None
    else
      bind
        (transaction
           (fun d =>
              bind (activities_add activity d) (fun d =>
                match prop (Some item) "gpsPoints", prop activity "id" with
                | Some (JArray points), Some activityId =>
                    if (0 <? List.length points)%nat then
                      let pointsWithActivityId :=
                        map (fun point =>
                               JObject (set_prop (spread point)
                                          "activity_id" activityId))
                            points in
                      gpsPoints_bulkAdd pointsWithActivityId d
                    else Ok d
                | _, _ => Err TypeError
                end))
           d)
        (fun d' => Ok (Some d'))).

(** One turn of the import loop, [catch] included. *)
Definition import_item (st : ImportResult * Database) (item : JSON)
    : ImportResult * Database :=
  let '(result, d) := st in
  match try_import item d with
  | Ok None =>
      ({| success := success result; imported := imported result;
          skipped := S (skipped result); errors := errors result |}, d)
  | Ok (Some d') =>
      ({| success := success result; imported := S (imported result);
          skipped := skipped result; errors := errors result |}, d')
  | Err e =>
      ({| success := success result; imported := imported result;
          skipped := skipped result;
          errors :=
            errors result ++
            ["Failed to import activity " ++ quote
             ++ ToString (prop (prop (Some item) "activity") "title")
             ++ quote ++ ": " ++ describe e]%string |}, d)
  end.

Definition importActivities (jsonData : string) (d : Database)
    : ImportResult * Database :=
  let result :=
    {| success := false; imported := 0; skipped := 0; errors := [] |} in
  match JSON_parse jsonData with
  | None =>
      ({| success := success result; imported := imported result;
          skipped := skipped result;
          errors := errors result ++ ["Invalid JSON format"] |}, d)
  | Some data =>
      if negb (validateImportedData data) then
        ({| success := success result; imported := imported result;
            skipped := skipped result;
            errors :=
              errors result ++
              ["Invalid data structure. Expected Sports Tracker export format."]
         |}, d)
      else
        let items :=
          match prop (Some data) "activities" with
          | Some (JArray items) => items
          | _ => []
          end in
        let '(result, d') := fold_left import_item items (result, d) in
        ({| success :=
              (List.length (errors result) =? 0)%nat
              || (0 <? imported result)%nat;
            imported := imported result;
            skipped := skipped result;
            errors := errors result |}, d')
  end.

End Platform.

End ExportImport.

(* ================================================================== *)
(** * Part II. The vocabulary of the specification                      *)
(* ================================================================== *)

(** The MET table in the specification's words: the value of each sport, and
    the value used for a sport the table does not list. *)
Definition MET_of (sport : string) : number :=
  if sport =? "running" then 9.8
  else if sport =? "cycling" then 7.5
  else if sport =? "walking" then 3.5
  else if sport =? "hiking" then 6.0
  else if sport =? "swimming" then 6.0
  else 5.0.

(** Elevation in the specification's words: the differences of consecutive
    readings, the sum of the positive ones and the sum of the absolute
    values of the negative ones. *)
Fixpoint consecutive_diffs (es : list number) : list number :=
  match es with
  | a :: (b :: _) as rest => (b - a) :: consecutive_diffs rest
  | _ => []
  end.

Definition sum (xs : list number) : number := fold_right Rplus 0 xs.

Definition positive (x : number) : bool := if Rlt_dec 0 x then true else false.

Definition negative (x : number) : bool := if Rlt_dec x 0 then true else false.

Definition gain_of (es : list number) : number :=
  sum (filter positive (consecutive_diffs es)).

Definition loss_of (es : list number) : number :=
  sum (map Rabs (filter negative (consecutive_diffs es))).

(** The save step in the specification's words: a sample's speed with a
    null counted as 0, and the maximum of a sequence. *)
Definition speed_or_zero (p : Geolocation.GpsPosition) : number :=
match Geolocation.speed_mps p with Some v => v | None => 0 end.

Definition is_maximum (m : number) (xs : list number) : Prop :=
In m xs /\ forall x, In x xs -> x <= m.

(** A position with the given elevation reading, for the examples. *)
Definition at_elevation (e : option number) : Geolocation.GpsPosition :=
{| Geolocation.latitude := 60; Geolocation.longitude := 25;
   Geolocation.elevation_meters := e; Geolocation.accuracy_meters := Some 5;
   Geolocation.speed_mps := None; Geolocation.timestamp := "t" |}.

(** A world whose only watch was registered by a render with
    [isPaused = false], under the identifier the hook remembers. *)
Definition watching (id : nat) (w : Geolocation.World) : Prop :=
Geolocation.watches (snd w)
= [(id, {| Geolocation.closed_over_isPaused := false |})]
/\ Geolocation.watchIdRef (fst w) = Some id.

(** Import and export in the specification's words: the two results of a
    rejected import. *)
Definition invalid_json : ExportImport.ImportResult :=
{| ExportImport.success := false; ExportImport.imported := 0;
   ExportImport.skipped := 0;
   ExportImport.errors := ["Invalid JSON format"] |}.

Definition invalid_structure : ExportImport.ImportResult :=
{| ExportImport.success := false; ExportImport.imported := 0;
   ExportImport.skipped := 0;
   ExportImport.errors :=
     ["Invalid data structure. Expected Sports Tracker export format."] |}.

(** A truthy string: a string other than the empty one. *)
Definition truthy_string (v : Json.JsValue) : Prop :=
exists s, v = Some (Json.JString s) /\ s <> "".

Definition is_array (v : Json.JsValue) : Prop :=
exists items, v = Some (Json.JArray items).

(** The predicate of C9 on one item and on the document. *)
Definition item_well_formed (item : Json.JSON) : Prop :=
let activity := Json.prop (Some item) "activity" in
truthy_string (Json.prop activity "id") /\
truthy_string (Json.prop activity "sport_type") /\
truthy_string (Json.prop activity "started_at") /\
is_array (Json.prop (Some item) "gpsPoints").

Definition document_well_formed (data : Json.JSON) : Prop :=
truthy_string (Json.prop (Some data) "version") /\
exists items,
  Json.prop (Some data) "activities" = Some (Json.JArray items) /\
  Forall item_well_formed items.

(** The items of a bundle, and the identifier of an item's activity. *)
Definition items_of (data : Json.JSON) : list Json.JSON :=
match Json.prop (Some data) "activities" with
| Some (Json.JArray items) => items
| _ => []
end.

Definition activity_id_of (item : Json.JSON) : Json.JsValue :=
Json.prop (Json.prop (Some item) "activity") "id".

(** An activity with the key [k] is in the store. *)
Definition present (k : Json.JSON) (d : Db.Database) : Prop :=
existsb (Db.keyed "id" k) (Db.activities d) = true.

(** Every stored sample names, in [activity_id], a stored activity. *)
Definition references_stored_activity (d : Db.Database) (row : Json.JSON)
  : Prop :=
exists k, Json.prop (Some row) "activity_id" = Some k /\ present k d.

Definition referential_integrity (d : Db.Database) : Prop :=
Forall (references_stored_activity d) (Db.gpsPoints d).

(** The object that import stores for a point of the file: the point's own
    properties with [activity_id] set to the activity's id, and the key the
    store wrote into [id] when the point carried none. *)
Definition stored_from (activityId : Json.JSON) (point row : Json.JSON)
  : Prop :=
let sent := Json.set_prop (Json.spread point) "activity_id" activityId in
row = Json.JObject sent \/
exists key, row = Json.JObject (Json.set_prop sent "id" key).

(** A stand-in for [JSON.parse] that knows one text, for the examples. *)
Definition parse_as (text : string) (data : Json.JSON) (s : string)
  : option Json.JSON :=
if s =? text then Some data else None.

(** A file in a later format version, with an activity of an unknown sport
    and no numeric field. *)
Definition curling_bundle : Json.JSON :=
Json.JObject [
  ("version", Json.JString "2.0");
  ("activities", Json.JArray [
     Json.JObject [
       ("activity", Json.JObject [
          ("id", Json.JString "a1");
          ("sport_type", Json.JString "curling");
          ("started_at", Json.JString "2024-05-01T10:00:00.000Z")]);
       ("gpsPoints", Json.JArray [])]])].

(** The same file with an empty id. *)
Definition empty_id_bundle : Json.JSON :=
Json.JObject [
  ("version", Json.JString "2.0");
  ("activities", Json.JArray [
     Json.JObject [
       ("activity", Json.JObject [
          ("id", Json.JString "");
          ("sport_type", Json.JString "curling");
          ("started_at", Json.JString "2024-05-01T10:00:00.000Z")]);
       ("gpsPoints", Json.JArray [])]])].

(** A file that passes validation and whose single activity has two points
    carrying the same [id]. *)
Definition duplicate_point_bundle : Json.JSON :=
Json.JObject [
  ("version", Json.JString "1.0");
  ("activities", Json.JArray [
     Json.JObject [
       ("activity", Json.JObject [
          ("id", Json.JString "a1");
          ("title", Json.JString "Morning run");
          ("sport_type", Json.JString "running");
          ("started_at", Json.JString "2024-05-01T10:00:00.000Z")]);
       ("gpsPoints", Json.JArray [
          Json.JObject [("id", Json.JString "p1"); ("latitude", Json.JNumber 60)];
          Json.JObject [("id", Json.JString "p1"); ("latitude", Json.JNumber 61)]])]])].

(** The three results of one turn of the import loop. *)
Definition skip (r : ExportImport.ImportResult) : ExportImport.ImportResult :=
{| ExportImport.success := ExportImport.success r;
   ExportImport.imported := ExportImport.imported r;
   ExportImport.skipped := S (ExportImport.skipped r);
   ExportImport.errors := ExportImport.errors r |}.

Definition count (r : ExportImport.ImportResult) : ExportImport.ImportResult :=
{| ExportImport.success := ExportImport.success r;
   ExportImport.imported := S (ExportImport.imported r);
   ExportImport.skipped := ExportImport.skipped r;
   ExportImport.errors := ExportImport.errors r |}.

Definition report (r : ExportImport.ImportResult) (message : string)
  : ExportImport.ImportResult :=
{| ExportImport.success := ExportImport.success r;
   ExportImport.imported := ExportImport.imported r;
   ExportImport.skipped := ExportImport.skipped r;
   ExportImport.errors := ExportImport.errors r ++ [message] |}.

(** The database after the activity [activity] and the sample objects
    [rows] were added to [d]; the key generator is left open. *)
Definition extended (d d' : Db.Database) (activity : Json.JSON)
  (rows : list Json.JSON) : Prop :=
Db.activities d' = Db.activities d ++ [activity] /\
Db.gpsPoints d' = Db.gpsPoints d ++ rows.

(** The objects that import hands to [bulkAdd] for the points of an item. *)
Definition pointsWithActivityId (activityId : Json.JSON)
  (points : list Json.JSON) : list Json.JSON :=
map (fun point =>
       Json.JObject (Json.set_prop (Json.spread point) "activity_id" activityId))
    points.

(** The database once [activities.add] has added [activity]. *)
Definition with_activity (d : Db.Database) (activity : Json.JSON)
  : Db.Database :=
{| Db.activities := Db.activities d ++ [activity];
   Db.gpsPoints := Db.gpsPoints d;
   Db.gpsPoints_generator := Db.gpsPoints_generator d |}.



(** The message that the [catch] block of the import loop records. *)
Definition failure_message (ToString : Json.JsValue -> string)
  (describe : Db.Thrown -> string) (item : Json.JSON) (e : Db.Thrown)
  : string :=
("Failed to import activity " ++ ExportImport.quote
 ++ ToString (Json.prop (Json.prop (Some item) "activity") "title")
 ++ ExportImport.quote ++ ": " ++ describe e)%string.

(** What one turn of the import loop does to the result and to the store:
    the activity exists and is skipped; or the transaction fails, a message
    is recorded and the store is as before; or the activity and its points
    are stored. *)
Inductive turn (ToString : Json.JsValue -> string)
  (describe : Db.Thrown -> string) (item : Json.JSON)
  (r : ExportImport.ImportResult) (d : Db.Database)
  : ExportImport.ImportResult -> Db.Database -> Prop :=
| turn_skipped (s : string) :
    activity_id_of item = Some (Json.JString s) ->
    present (Json.JString s) d ->
    turn ToString describe item r d (skip r) d
| turn_failed (s : string) (e : Db.Thrown) :
    activity_id_of item = Some (Json.JString s) ->
    ~ present (Json.JString s) d ->
    turn ToString describe item r d
      (report r (failure_message ToString describe item e)) d
| turn_imported (s : string) (activity : Json.JSON)
    (points stored : list Json.JSON) (d' : Db.Database) :
    activity_id_of item = Some (Json.JString s) ->
    ~ present (Json.JString s) d ->
    Json.prop (Some item) "activity" = Some activity ->
    Json.prop (Some item) "gpsPoints" = Some (Json.JArray points) ->
    extended d d' activity stored ->
    Forall2 (stored_from (Json.JString s)) points stored ->
    turn ToString describe item r d (count r) d'.

(** The result and the store after [curling_bundle] went into the empty
    store. *)
Definition one_imported : ExportImport.ImportResult :=
{| ExportImport.success := true; ExportImport.imported := 1;
   ExportImport.skipped := 0; ExportImport.errors := [] |}.

Definition curling_store : Db.Database :=
{| Db.activities :=
     [Json.JObject [
        ("id", Json.JString "a1");
        ("sport_type", Json.JString "curling");
        ("started_at", Json.JString "2024-05-01T10:00:00.000Z")]];
   Db.gpsPoints := [];
   Db.gpsPoints_generator := 1 |}.

(** The result of a run in which every activity of the file was skipped. *)
Definition all_skipped (n : nat) : ExportImport.ImportResult :=
{| ExportImport.success := true; ExportImport.imported := 0;
   ExportImport.skipped := n; ExportImport.errors := [] |}.

(** Stand-ins, for the examples, for how a template literal renders a value
    and a caught exception. *)
Definition render_value (v : Json.JsValue) : string :=
match v with
| Some (Json.JString s) => s
| Some _ => "[object]"
| None => "undefined"
end.

Definition render_exception (e : Db.Thrown) : string :=
match e with
| Db.ConstraintError => "ConstraintError"
| Db.DataError => "DataError"
| Db.TypeError => "TypeError"
end.

(** The round trip in the specification's words.  A stored activity has the
    shape that both writers give it: its [id], [sport_type] and
    [started_at] are non-empty strings.  The primary keys of a table are
    distinct.  The samples of an activity, as export lists them: in the
    order of the table, without the store's key. *)
Definition row_key (row : Json.JSON) : Json.JsValue :=
Json.prop (Some row) "id".

Definition activity_row_ok (a : Json.JSON) : Prop :=
truthy_string (Json.prop (Some a) "id") /\
truthy_string (Json.prop (Some a) "sport_type") /\
truthy_string (Json.prop (Some a) "started_at").

Definition store_ok (d : Db.Database) : Prop :=
Forall activity_row_ok (Db.activities d) /\
NoDup (map row_key (Db.activities d)).

(** A store with a sample whose activity is not stored. *)
Definition orphan_store : Db.Database :=
{| Db.activities := [];
   Db.gpsPoints :=
     [Json.JObject [
        ("activity_id", Json.JString "gone");
        ("latitude", Json.JNumber 60); ("longitude", Json.JNumber 25);
        ("id", Json.JNumber 1)]];
   Db.gpsPoints_generator := 2 |}.

Definition empty_bundle (now : string) : Json.JSON :=
Json.JObject [
  ("version", Json.JString "1.0");
  ("exportedAt", Json.JString now);
  ("activities", Json.JArray [])].

Definition samples_of (activityId : string) (d : Db.Database)
  : list Json.JSON :=
map ExportImport.cleaned
  (filter (Db.keyed "activity_id" (Json.JString activityId)) (Db.gpsPoints d)).



(** The entry that export writes for a stored activity. *)
Definition exported_item (d : Db.Database) (a : Json.JSON) : Json.JSON :=
Json.JObject [
  ("activity", a);
  ("gpsPoints",
   Json.JArray
     (match row_key a with
      | Some (Json.JString s) => samples_of s d
      | _ => []
      end))].

Definition exported_bundle (now : string) (d : Db.Database) : Json.JSON :=
Json.JObject [
  ("version", Json.JString "1.0");
  ("exportedAt", Json.JString now);
  ("activities", Json.JArray (map (exported_item d) (Db.activities d)))].



(** A store with one activity and two samples, for the examples. *)
Definition walk_store : Db.Database :=
{| Db.activities :=
     [Json.JObject [
        ("id", Json.JString "w1");
        ("title", Json.JString "Walk");
        ("sport_type", Json.JString "walking");
        ("started_at", Json.JString "2024-05-01T10:00:00.000Z");
        ("distance_meters", Json.JNumber 120)]];
   Db.gpsPoints :=
     [Json.JObject [
        ("activity_id", Json.JString "w1");
        ("latitude", Json.JNumber 60); ("longitude", Json.JNumber 25);
        ("elevation_meters", Json.JNull);
        ("id", Json.JNumber 7)];
      Json.JObject [
        ("activity_id", Json.JString "w1");
        ("latitude", Json.JNumber 61); ("longitude", Json.JNumber 25);
        ("elevation_meters", Json.JNumber 12);
        ("id", Json.JNumber 8)]];
   Db.gpsPoints_generator := 9 |}.

(** A file whose points carry a foreign [activity_id] or none, and the store
    that importing it into the empty store leaves. *)
Definition stray_bundle : Json.JSON :=
Json.JObject [
  ("version", Json.JString "1.0");
  ("activities", Json.JArray [
     Json.JObject [
       ("activity", Json.JObject [
          ("id", Json.JString "a1");
          ("sport_type", Json.JString "running");
          ("started_at", Json.JString "2024-05-01T10:00:00.000Z")]);
       ("gpsPoints", Json.JArray [
          Json.JObject [("activity_id", Json.JString "zzz");
                        ("latitude", Json.JNumber 60)];
          Json.JObject [("latitude", Json.JNumber 61)]])]])].


Definition stray_store : Db.Database :=
{| Db.activities :=
     [Json.JObject [
        ("id", Json.JString "a1");
        ("sport_type", Json.JString "running");
        ("started_at", Json.JString "2024-05-01T10:00:00.000Z")]];
   Db.gpsPoints :=
     [Json.JObject [("activity_id", Json.JString "a1");
                    ("latitude", Json.JNumber 60);
                    ("id", Json.JNumber 1)];
      Json.JObject [("latitude", Json.JNumber 61);
                    ("activity_id", Json.JString "a1");
                    ("id", Json.JNumber 2)]];
   Db.gpsPoints_generator := 3 |}.

(** A platform position at the given latitude and a clock, for the
    examples. *)
Definition fix_at (lat : number) : Geolocation.Dom.GeolocationPosition :=
{| Geolocation.Dom.coords :=
     {| Geolocation.Dom.latitude := lat; Geolocation.Dom.longitude := 25;
        Geolocation.Dom.altitude := None; Geolocation.Dom.accuracy := 5;
        Geolocation.Dom.speed := None |};
   Geolocation.Dom.timestamp := 0 |}.

Definition epoch (t : number) : string := "1970-01-01T00:00:00.000Z".

(** A store with an activity whose [started_at] is empty. *)
Definition unstarted_store : Db.Database :=
{| Db.activities :=
     [Json.JObject [
        ("id", Json.JString "a1");
        ("sport_type", Json.JString "running");
        ("started_at", Json.JString "")]];
   Db.gpsPoints := [];
   Db.gpsPoints_generator := 1 |}.

(** ** Vocabulary of the further properties *)

(** The legs of a path: the distances between consecutive points. *)
Fixpoint legs {P : Type} `{Distance.Located P} (points : list P)
  : list number :=
match points with
| p :: (q :: _) as rest =>
    Distance.calculateDistance (Distance.latitude p) (Distance.longitude p)
      (Distance.latitude q) (Distance.longitude q)
    :: legs rest
| _ => []
end.

(** Elevation readings that never go down, and readings that never go
    up. *)
Fixpoint ascending (es : list number) : Prop :=
match es with
| a :: (b :: _) as rest => a <= b /\ ascending rest
| _ => True
end.

Fixpoint descending (es : list number) : Prop :=
match es with
| a :: (b :: _) as rest => b <= a /\ descending rest
| _ => True
end.

(** The least element of a sequence, and a point lying inside a box given
    by its south-west and north-east corners. *)
Definition is_minimum (m : number) (xs : list number) : Prop :=
In m xs /\ forall x, In x xs -> m <= x.

Definition inside (box : (number * number) * (number * number))
  (lat lng : number) : Prop :=
fst (fst box) <= lat <= fst (snd box) /\ snd (fst box) <= lng <= snd (snd box).

(** The rows that the store keeps for recorded samples added without a key
    while the key generator stands at [next]: each sample's object with the
    generated key written into [id]. *)
Fixpoint stored_samples (next : Z) (points : list Db.GpsPoint)
  : list Json.JSON :=
match points with
| [] => []
| p :: rest =>
    Json.JObject (Json.set_prop (Json.spread (Db.GpsPoint_object p)) "id"
                    (Json.JNumber (IZR next)))
    :: stored_samples (next + 1) rest
end.

(** The store after a recording was saved into [d]. *)
Definition saved_store (d : Db.Database) (s : RecordActivity.Saved)
  : Db.Database :=
{| Db.activities :=
     Db.activities d ++ [Db.Activity_object (RecordActivity.activity s)];
   Db.gpsPoints :=
     Db.gpsPoints d
     ++ stored_samples (Db.gpsPoints_generator d) (RecordActivity.gpsPoints s);
   Db.gpsPoints_generator :=
     (Db.gpsPoints_generator d
      + Z.of_nat (List.length (RecordActivity.gpsPoints s)))%Z |}.

(** The row that an edit of the detail page leaves for the row [row]. *)
Definition edited (page : ActivityDetail.Page) (row : Json.JSON) : Json.JSON :=
Json.JObject
  (Json.set_prop
     (Json.set_prop (Json.spread row) "title"
        (Json.JString (ActivityDetail.editTitle page)))
     "notes" (ActivityDetail.notes_or_null (ActivityDetail.editNotes page))).

(** A detail page showing the activity "w1" of [walk_store], with the edit
    form filled in. *)
Definition walk_page : ActivityDetail.Page :=
{| ActivityDetail.id := Some "w1";
   ActivityDetail.activity := nth_error (Db.activities walk_store) 0;
   ActivityDetail.editTitle := "Evening walk";
   ActivityDetail.editNotes := "";
   ActivityDetail.isEditing := true |}.

(** A stretch of running of the timer: it is started or resumed at [from],
    its interval fires at the times [ticks], and it is paused or stopped at
    [to]; all are readings of the clock, in milliseconds. *)
Record Stretch := {
  from : number;
  ticks : list number;
  to : number
}.

Definition open_events (first : bool) (g : Stretch) : list Timer.Event :=
(if first then Timer.CallStart (from g) else Timer.CallResume (from g))
:: map Timer.IntervalFires (ticks g).

Definition stretch_events (first : bool) (g : Stretch) : list Timer.Event :=
open_events first g ++ [Timer.CallPause (to g)].

(** The events of a recording that is paused after each of its stretches;
    the first stretch is started, the later ones are resumed. *)
Fixpoint session_events (first : bool) (gs : list Stretch)
  : list Timer.Event :=
match gs with
| [] => []
| g :: rest => stretch_events first g ++ session_events false rest
end.

Definition whole_seconds (g : Stretch) : number :=
Js.Math_floor ((to g - from g) / 1000).

Definition milliseconds (g : Stretch) : number := to g - from g.

(** The clock does not run backwards within the stretch. *)
Definition ordered (g : Stretch) : Prop :=
from g <= to g /\ Forall (fun t => from g <= t <= to g) (ticks g).

(** The timer is at rest: no stretch is open and no interval is set. *)
Definition at_rest (w : Timer.World) : Prop :=
Timer.startTimeRef (fst w) = None /\
Timer.intervalRef (fst w) = None /\
Timer.intervals (snd w) = [].

(** The reading that the ticks of a stretch leave on display, when the
    display showed [shown] before and [accumulated] seconds were counted
    before the stretch. *)
Definition reading (accumulated shown : number) (g : Stretch) : number :=
fold_left
  (fun _ t => accumulated + Js.Math_floor ((t - from g) / 1000))
  (ticks g) shown.

(** The events of the geolocation hook that a watch delivers, and those
    that are not a new start. *)
Definition from_watch (e : Geolocation.Event) : bool :=
match e with
| Geolocation.WatchFix _ | Geolocation.WatchFailure _ => true
| _ => false
end.

Definition is_start (e : Geolocation.Event) : bool :=
match e with Geolocation.CallStart => true | _ => false end.

(** The stores that the application can be in: the empty store, and what
    the writers that have a caller leave: the save step of the recording
    page, import, and the edit form and the delete button of the detail
    page.  A recording is saved under a non-empty identifier (a UUID), with
    a sport of the select and with timestamps that are not empty. *)
Inductive app_store (JSON_parse : string -> option Json.JSON)
  (ToString : Json.JsValue -> string) (describe : Db.Thrown -> string)
  : Db.Database -> Prop :=
| store_empty :
    app_store JSON_parse ToString describe Db.empty
| store_saved (d d' : Db.Database)
    (positions : list Geolocation.GpsPosition) (duration : number)
    (sportType title notes now activityId : string) :
    app_store JSON_parse ToString describe d ->
    activityId <> "" ->
    In sportType (map Db.value Db.SPORT_TYPES) ->
    now <> "" ->
    Forall (fun p => Geolocation.timestamp p <> "") positions ->
    RecordActivity.written
      (RecordActivity.handleSave positions duration sportType title notes
         now activityId d) = Db.Ok d' ->
    app_store JSON_parse ToString describe d'
| store_imported (d : Db.Database) (jsonData : string) :
    app_store JSON_parse ToString describe d ->
    app_store JSON_parse ToString describe
      (snd (ExportImport.importActivities JSON_parse ToString describe
              jsonData d))
| store_edited (d d' : Db.Database) (page page' : ActivityDetail.Page) :
    app_store JSON_parse ToString describe d ->
    ActivityDetail.handleSaveEdit page d = Db.Ok (page', d') ->
    app_store JSON_parse ToString describe d'
| store_deleted (d d' : Db.Database) (id : option string) :
    app_store JSON_parse ToString describe d ->
    ActivityDetail.handleDelete id d = Db.Ok d' ->
    app_store JSON_parse ToString describe d'.

(* ================================================================== *)
(** * Part III. The properties                                          *)
(* ================================================================== *)

(** ** Rounding *)

Lemma Math_round_IZR (z : Z) : Js.Math_round (IZR z) = IZR z.
Proof.
  unfold Js.Math_round. f_equal. apply Zfloor_eq. lra.
Qed.

Lemma Math_round_nonneg (x : number) : 0 <= x -> 0 <= Js.Math_round x.
Proof.
  intros Hx. unfold Js.Math_round.
  apply IZR_le. apply Zfloor_lub. simpl. lra.
Qed.

(** ** Calorie estimate (C6) *)

Lemma MET_lookup (sport : string) :
  ~ In sport Calories.Object_prototype ->
  Calories.or_default (Calories.MET_index Calories.MET_VALUES sport)
    (Calories.other Calories.MET_VALUES) = Calories.Own (MET_of sport).
Proof.
  intros Hown. unfold Calories.MET_index, MET_of, Calories.or_default.
  cbn [Calories.MET_VALUES Calories.running Calories.cycling Calories.walking
       Calories.hiking Calories.swimming Calories.other].
  repeat (destruct (sport =? _)%string;
          [destruct (Req_dec_T _ 0); [lra | reflexivity] |]).
  destruct (existsb (String.eqb sport) Calories.Object_prototype) eqn:Hex;
    [| reflexivity].
  exfalso. apply Hown. apply existsb_exists in Hex as (name & Hin & Heq).
  apply String.eqb_eq in Heq. subst name. exact Hin.
Qed.

Lemma MET_inherited (sport : string) :
  In sport Calories.Object_prototype ->
  Calories.or_default (Calories.MET_index Calories.MET_VALUES sport)
    (Calories.other Calories.MET_VALUES) = Calories.Inherited.
Proof.
  intros Hin. unfold Calories.Object_prototype in Hin. simpl in Hin.
  repeat (destruct Hin as [<- | Hin]; [reflexivity |]). contradiction.
Qed.

Lemma MET_of_nonneg (sport : string) : 0 <= MET_of sport.
Proof.
  unfold MET_of. repeat (destruct (sport =? _)%string; [lra |]). lra.
Qed.

Lemma estimate_running (d t w : number) :
  Calories.estimateCaloriesWithDistance "running" d t (Some w)
  = Js.Finite (Js.Math_round (w * (d / 1000) * 1.0)).
Proof. reflexivity. Qed.

Lemma estimate_walking (d t w : number) :
  Calories.estimateCaloriesWithDistance "walking" d t (Some w)
  = Js.Finite (Js.Math_round (w * (d / 1000) * 0.5)).
Proof. reflexivity. Qed.

Lemma estimate_other_sport (sport : string) (d t w : number) :
  sport <> "running" -> sport <> "walking" ->
  ~ In sport Calories.Object_prototype ->
  Calories.estimateCaloriesWithDistance sport d t (Some w)
  = Js.Finite (Js.Math_round (MET_of sport * w * (t / 3600))).
Proof.
  intros Hr Hw Hown. unfold Calories.estimateCaloriesWithDistance.
  apply String.eqb_neq in Hr, Hw. rewrite Hr, Hw. simpl.
  unfold Calories.estimateCalories. simpl Js.default_arg.
  cbv zeta. rewrite (MET_lookup sport Hown). reflexivity.
Qed.

Lemma estimate_inherited (sport : string) (d t : number)
    (w : option number) :
  In sport Calories.Object_prototype ->
  Calories.estimateCaloriesWithDistance sport d t w = Js.NaN.
Proof.
  intros Hin. unfold Calories.estimateCaloriesWithDistance.
  assert (Hsport : ((sport =? "running") || (sport =? "walking"))%string
                   = false).
  { unfold Calories.Object_prototype in Hin. simpl in Hin.
    repeat (destruct Hin as [<- | Hin]; [reflexivity |]). contradiction. }
  rewrite Hsport. unfold Calories.estimateCalories. cbv zeta.
  rewrite (MET_inherited sport Hin). reflexivity.
Qed.

Lemma estimate_nonneg (sport : string) (d t w : number) :
  ~ In sport Calories.Object_prototype ->
  0 <= d -> 0 <= t -> 0 <= w ->
  exists kcal,
    Calories.estimateCaloriesWithDistance sport d t (Some w) = Js.Finite kcal /\
    0 <= kcal.
Proof.
  intros Hown Hd Ht Hw.
  destruct (String.eqb_spec sport "running") as [-> | Hr].
  { eexists. split; [apply estimate_running |]. apply Math_round_nonneg.
    assert (0 <= d / 1000) by lra. nra. }
  destruct (String.eqb_spec sport "walking") as [-> | Hwk].
  { eexists. split; [apply estimate_walking |]. apply Math_round_nonneg.
    assert (0 <= d / 1000) by lra. nra. }
  eexists. split; [apply estimate_other_sport; assumption |].
  apply Math_round_nonneg.
  pose proof (MET_of_nonneg sport).
  assert (0 <= t / 3600) by lra.
  assert (0 <= MET_of sport * w) by nra. nra.
Qed.

(** C6, what the code does.  The calorie estimate is
    [round(weightKg * distanceKm * factor)] for running (factor 1.0) and
    walking (factor 0.5), whatever the duration.  For a sport of the table it
    is [round(MET * weightKg * durationHours)] with the MET of the table, and
    for a string that is no property name of the table object it is the same
    with the default MET 5.0; the weight defaults to 70 kg, which gives 350
    for 5000 m of running and 420 for an hour of swimming, and these
    estimates are never negative on non-negative inputs.  But the table is
    an object literal: for a sport string that names a property every object
    inherits ([constructor], [toString], [__proto__], ...) the lookup finds a
    function or an object, which is truthy, so the default is not taken and
    the estimate is [NaN], whatever the distance, the duration and the
    weight. *)
Theorem C6_calorie_estimate :
  (forall d t w,
     Calories.estimateCaloriesWithDistance "running" d t (Some w)
     = Js.Finite (Js.Math_round (w * (d / 1000) * 1.0))) /\
  (forall d t w,
     Calories.estimateCaloriesWithDistance "walking" d t (Some w)
     = Js.Finite (Js.Math_round (w * (d / 1000) * 0.5))) /\
  (forall sport d t w,
     sport <> "running" -> sport <> "walking" ->
     ~ In sport Calories.Object_prototype ->
     Calories.estimateCaloriesWithDistance sport d t (Some w)
     = Js.Finite (Js.Math_round (MET_of sport * w * (t / 3600)))) /\
  (MET_of "cycling" = 7.5 /\ MET_of "hiking" = 6.0 /\
   MET_of "swimming" = 6.0 /\ MET_of "other" = 5.0 /\
   forall sport,
     ~ In sport ["running"; "cycling"; "walking"; "hiking"; "swimming"; "other"] ->
     MET_of sport = 5.0) /\
  (forall sport d t w,
     In sport Calories.Object_prototype ->
     Calories.estimateCaloriesWithDistance sport d t w = Js.NaN) /\
  Calories.estimateCaloriesWithDistance "constructor" 0 3600 None = Js.NaN /\
  (forall sport d t,
     Calories.estimateCaloriesWithDistance sport d t None
     = Calories.estimateCaloriesWithDistance sport d t (Some 70)) /\
  Calories.estimateCaloriesWithDistance "running" 5000 1800 None
  = Js.Finite 350 /\
  Calories.estimateCaloriesWithDistance "swimming" 0 3600 None
  = Js.Finite 420 /\
  (forall sport d t w,
     ~ In sport Calories.Object_prototype ->
     0 <= d -> 0 <= t -> 0 <= w ->
     exists kcal,
       Calories.estimateCaloriesWithDistance sport d t (Some w)
       = Js.Finite kcal /\
       0 <= kcal).
Proof.
  split; [exact estimate_running |].
  split; [exact estimate_walking |].
  split; [exact estimate_other_sport |].
  split.
  { repeat split; try reflexivity.
    intros sport Hnot. unfold MET_of.
    repeat match goal with
           | |- context [(sport =? ?k)%string] =>
               destruct (String.eqb_spec sport k) as [-> | _];
               [exfalso; apply Hnot; simpl; tauto |]
           end.
    reflexivity. }
  split; [exact estimate_inherited |].
  split; [reflexivity |].
  split; [reflexivity |].
  split.
  { change (Calories.estimateCaloriesWithDistance "running" 5000 1800 None)
      with (Js.Finite (Js.Math_round (70 * (5000 / 1000) * 1.0))).
    replace (70 * (5000 / 1000) * 1.0) with (IZR 350) by lra.
    rewrite Math_round_IZR. reflexivity. }
  split.
  { change (Calories.estimateCaloriesWithDistance "swimming" 0 3600 None)
      with (Calories.estimateCaloriesWithDistance "swimming" 0 3600 (Some 70)).
    rewrite estimate_other_sport;
      [| discriminate | discriminate
       | simpl; intuition discriminate].
    replace (MET_of "swimming" * 70 * (3600 / 3600)) with (IZR 420)
      by (unfold MET_of; simpl; lra).
    rewrite Math_round_IZR. reflexivity. }
  exact estimate_nonneg.
Qed.

Lemma C6_calorie_estimate_witness :
  Calories.estimateCaloriesWithDistance "cycling" 12000 1800 (Some 70)
  = Js.Finite (Js.Math_round (MET_of "cycling" * 70 * (1800 / 3600))) /\
  Calories.estimateCaloriesWithDistance "toString" 4000 5400 (Some 82)
  = Js.NaN.
Proof.
  destruct C6_calorie_estimate as (_ & _ & Hother & _ & Hnan & _).
  split.
  - apply Hother; [discriminate | discriminate |].
    simpl. intuition discriminate.
  - apply Hnan. simpl. tauto.
Defined.

(** ** Elevation gain and loss (C7) *)

Lemma positive_true (x : number) : 0 < x -> positive x = true.
Proof. intros Hx. unfold positive. destruct (Rlt_dec 0 x); [reflexivity | lra]. Qed.

Lemma positive_false (x : number) : x <= 0 -> positive x = false.
Proof. intros Hx. unfold positive. destruct (Rlt_dec 0 x); [lra | reflexivity]. Qed.

Lemma negative_true (x : number) : x < 0 -> negative x = true.
Proof. intros Hx. unfold negative. destruct (Rlt_dec x 0); [reflexivity | lra]. Qed.

Lemma negative_false (x : number) : 0 <= x -> negative x = false.
Proof. intros Hx. unfold negative. destruct (Rlt_dec x 0); [lra | reflexivity]. Qed.

Lemma elevation_loop_spec (rest : list number) :
  forall prev acc,
    Distance.elevation_loop prev rest acc
    = {| Distance.gain := Distance.gain acc + gain_of (prev :: rest);
         Distance.loss := Distance.loss acc + loss_of (prev :: rest) |}.
Proof.
  induction rest as [| e rest IH]; intros prev acc.
  - simpl. unfold gain_of, loss_of. simpl. destruct acc; simpl.
    f_equal; lra.
  - simpl Distance.elevation_loop. rewrite IH.
    unfold gain_of, loss_of in *.
    change (consecutive_diffs (prev :: e :: rest))
      with ((e - prev) :: consecutive_diffs (e :: rest)).
    simpl filter. unfold positive at 2, negative at 2, Js.Math_abs.
    destruct (Rlt_dec 0 (e - prev)) as [Hpos | Hnpos];
      destruct (Rlt_dec (e - prev) 0) as [Hneg | Hnneg];
      simpl; f_equal; try lra.
    assert (e - prev = 0) as -> by lra. rewrite Rabs_R0. lra.
Qed.

Lemma calculateElevation_spec {P : Type} `{Distance.Elevated P}
    (points : list P) :
  Distance.calculateElevation points
  = {| Distance.gain :=
         gain_of (Distance.non_null (map Distance.elevation_meters points));
       Distance.loss :=
         loss_of (Distance.non_null (map Distance.elevation_meters points)) |}.
Proof.
  unfold Distance.calculateElevation.
  destruct (Distance.non_null (map Distance.elevation_meters points))
    as [| e0 [| e1 rest]]; try reflexivity.
  change (List.length (e0 :: e1 :: rest) <? 2)%nat with false. cbv iota.
  rewrite elevation_loop_spec. simpl Distance.gain. simpl Distance.loss.
  f_equal; lra.
Qed.

(** C7.  [calculateElevation] drops the null readings, then adds up the
    positive differences of consecutive remaining readings as gain and the
    absolute values of the negative ones as loss; with fewer than two
    readings left it returns (0, 0); on 100, 105, 102, 110 it returns gain
    13 and loss 3, also when null readings lie in between. *)
Theorem C7_elevation_gain_loss :
  (forall (points : list Geolocation.GpsPosition),
     let elevations :=
       Distance.non_null (map Geolocation.elevation_meters points) in
     Distance.calculateElevation points
     = {| Distance.gain := gain_of elevations;
          Distance.loss := loss_of elevations |}) /\
  (forall (points : list Geolocation.GpsPosition),
     (List.length
        (Distance.non_null (map Geolocation.elevation_meters points)) < 2)%nat ->
     Distance.calculateElevation points
     = {| Distance.gain := 0; Distance.loss := 0 |}) /\
  (forall (points : list Geolocation.GpsPosition),
     map Geolocation.elevation_meters points
     = [Some 100; Some 105; Some 102; Some 110] ->
     Distance.calculateElevation points
     = {| Distance.gain := 13; Distance.loss := 3 |}) /\
  (forall (points : list Geolocation.GpsPosition),
     map Geolocation.elevation_meters points
     = [Some 100; None; Some 105; Some 102; None; None; Some 110] ->
     Distance.calculateElevation points
     = {| Distance.gain := 13; Distance.loss := 3 |}).
Proof.
  split; [intros points; exact (calculateElevation_spec points) |].
  split.
  { intros points Hlen. unfold Distance.calculateElevation.
    change (@Distance.elevation_meters _ Geolocation.GpsPosition_Elevated)
      with Geolocation.elevation_meters.
    apply Nat.ltb_lt in Hlen. rewrite Hlen. reflexivity. }
  assert (Hgo : forall es acc,
    es = [100; 105; 102; 110] ->
    Distance.elevation_loop 100 (tl es) acc
    = {| Distance.gain := Distance.gain acc + 13;
         Distance.loss := Distance.loss acc + 3 |}).
  { intros es acc ->. rewrite elevation_loop_spec.
    unfold gain_of, loss_of. simpl consecutive_diffs.
    simpl filter.
    rewrite (positive_true (105 - 100)), (positive_false (102 - 105)),
      (positive_true (110 - 102)), (negative_false (105 - 100)),
      (negative_true (102 - 105)), (negative_false (110 - 102)) by lra.
    simpl. rewrite Rabs_left by lra. f_equal; lra. }
  split; intros points Hmap; unfold Distance.calculateElevation;
    change (@Distance.elevation_meters _ Geolocation.GpsPosition_Elevated)
      with Geolocation.elevation_meters;
    rewrite Hmap; simpl Distance.non_null; cbv iota;
    change (List.length [100; 105; 102; 110] <? 2)%nat with false; cbv iota;
    rewrite (Hgo _ _ eq_refl); simpl; f_equal; lra.
Qed.

(** ** Haversine distance (C8) *)

Lemma Math_atan2_0_1 : Distance.Math_atan2 0 1 = 0.
Proof.
  unfold Distance.Math_atan2. destruct (Rlt_dec 0 1) as [_ | Hn]; [| lra].
  replace (0 / 1) with 0 by lra. apply atan_0.
Qed.

Lemma calculateDistance_sym (lat1 lon1 lat2 lon2 : number) :
  Distance.calculateDistance lat1 lon1 lat2 lon2
  = Distance.calculateDistance lat2 lon2 lat1 lon1.
Proof.
  unfold Distance.calculateDistance. cbv zeta.
  replace ((lat1 - lat2) * PI / 180 / 2) with (- ((lat2 - lat1) * PI / 180 / 2))
    by lra.
  replace ((lon1 - lon2) * PI / 180 / 2) with (- ((lon2 - lon1) * PI / 180 / 2))
    by lra.
  rewrite !sin_neg.
  set (s := sin ((lat2 - lat1) * PI / 180 / 2)).
  set (t := sin ((lon2 - lon1) * PI / 180 / 2)).
  set (c1 := cos (lat1 * PI / 180)). set (c2 := cos (lat2 * PI / 180)).
  replace (- s * - s + c2 * c1 * - t * - t) with (s * s + c1 * c2 * t * t)
    by ring.
  reflexivity.
Qed.

Lemma calculateDistance_same (lat lon : number) :
  Distance.calculateDistance lat lon lat lon = 0.
Proof.
  unfold Distance.calculateDistance. cbv zeta.
  replace ((lat - lat) * PI / 180 / 2) with 0 by lra.
  replace ((lon - lon) * PI / 180 / 2) with 0 by lra.
  rewrite sin_0.
  replace (0 * 0 + cos (lat * PI / 180) * cos (lat * PI / 180) * 0 * 0)
    with 0 by ring.
  rewrite Rminus_0_r, sqrt_0, sqrt_1, Math_atan2_0_1. ring.
Qed.

Lemma calculateDistance_pole (lon1 lon2 : number) :
  Distance.calculateDistance 90 lon1 90 lon2 = 0.
Proof.
  unfold Distance.calculateDistance. cbv zeta.
  replace ((90 - 90) * PI / 180 / 2) with 0 by lra.
  replace (90 * PI / 180) with (PI / 2) by lra.
  rewrite sin_0, cos_PI2.
  replace (0 * 0 + 0 * 0 * sin ((lon2 - lon1) * PI / 180 / 2)
                         * sin ((lon2 - lon1) * PI / 180 / 2))
    with 0 by ring.
  rewrite Rminus_0_r, sqrt_0, sqrt_1, Math_atan2_0_1. ring.
Qed.

(** C8, as stated, fails: the two coordinate pairs below differ and their
    distance is 0.  Both name the north pole; the second longitude is tiny,
    and on these inputs the source evaluated with IEEE doubles returns 0 as
    well (there the cosine of the latitude is about 6e-17 rather than 0, and
    its product with the squared sine underflows to 0). *)
Lemma C8_distinct_points_at_distance_zero :
  (90, 0) <> (90, 1e-150) /\
  Distance.calculateDistance 90 0 90 1e-150 = 0.
Proof.
  split.
  - intros Heq. injection Heq as Heq. lra.
  - apply calculateDistance_pole.
Qed.

(** C8, amended.  The haversine distance is symmetric, and it is 0 from
    every point to itself.  (The converse is what fails: a distance of 0
    does not tell that the two points are equal.) *)
Theorem C8_haversine_distance :
  (forall lat1 lon1 lat2 lon2,
     Distance.calculateDistance lat1 lon1 lat2 lon2
     = Distance.calculateDistance lat2 lon2 lat1 lon1) /\
  (forall lat lon, Distance.calculateDistance lat lon lat lon = 0).
Proof.
  split; [exact calculateDistance_sym | exact calculateDistance_same].
Qed.

Lemma C7_elevation_gain_loss_witness :
  Distance.calculateElevation [at_elevation None; at_elevation (Some 7)]
  = {| Distance.gain := 0; Distance.loss := 0 |} /\
  Distance.calculateElevation
    (map at_elevation [Some 100; Some 105; Some 102; Some 110])
  = {| Distance.gain := 13; Distance.loss := 3 |}.
Proof.
  destruct C7_elevation_gain_loss as (_ & Hfew & Hfour & _).
  split.
  - apply Hfew. simpl. lia.
  - apply Hfour. reflexivity.
Defined.

(** ** The save step (C5) *)

Lemma or_number_zero (o : option number) :
  Js.or_number o 0 = match o with Some v => v | None => 0 end.
Proof.
  destruct o as [v |]; simpl; [| reflexivity].
  destruct (Req_dec_T v 0); congruence.
Qed.

Lemma Math_max_is_maximum (xs : list number) :
  forall x, is_maximum (Js.Math_max x xs) (x :: xs).
Proof.
  unfold Js.Math_max, is_maximum.
  induction xs as [| y ys IH]; intros x.
  - simpl. split; [left; reflexivity |].
    intros z [<- | []]. lra.
  - simpl fold_left. destruct (IH (Rmax x y)) as [Hin Hle]. split.
    + destruct Hin as [Heq | Hin].
      * rewrite <- Heq. unfold Rmax; destruct (Rle_dec x y);
          [right; left; reflexivity | left; reflexivity].
      * right; right; exact Hin.
    + intros z [<- | [<- | Hz]].
      * apply Rle_trans with (Rmax x y); [apply Rmax_l |].
        apply Hle. left; reflexivity.
      * apply Rle_trans with (Rmax x y); [apply Rmax_r |].
        apply Hle. left; reflexivity.
      * apply Hle. right; exact Hz.
Qed.

Lemma nth_error_last {A : Type} (l : list A) (d : A) :
  l <> [] -> nth_error l (List.length l - 1) = Some (last l d).
Proof.
  induction l as [| a [| b t] IH]; intros Hne; [congruence | reflexivity |].
  change (last (a :: b :: t) d) with (last (b :: t) d).
  rewrite <- IH by discriminate.
  simpl List.length. replace (S (S (List.length t)) - 1)%nat
    with (S (S (List.length t) - 1)) by lia.
  reflexivity.
Qed.

(** C5.  The activity that [handleSave] builds from the positions and the
    seconds has: average speed = distance / seconds when seconds > 0 and
    null otherwise; maximum speed = the maximum of the sample speeds, a null
    speed counting as 0, and null when there is no sample; start and end =
    the timestamps of the first and of the last sample, and the current time
    for both when there is no sample. *)
Theorem C5_save_reduction
    (positions : list Geolocation.GpsPosition) (duration : number)
    (sportType title notes now activityId : string) (d : Db.Database) :
  let saved :=
    RecordActivity.activity
      (RecordActivity.handleSave positions duration sportType title notes
         now activityId d) in
  Db.distance_meters saved = Distance.calculateTotalDistance positions /\
  Db.duration_seconds saved = duration /\
  (0 < duration ->
   Db.avg_speed_mps saved = Some (Db.distance_meters saved / duration)) /\
  (~ 0 < duration -> Db.avg_speed_mps saved = None) /\
  (positions = [] ->
   Db.max_speed_mps saved = None /\
   Db.started_at saved = now /\ Db.ended_at saved = now) /\
  (forall first rest, positions = first :: rest ->
   (exists m, Db.max_speed_mps saved = Some m /\
              is_maximum m (map speed_or_zero positions)) /\
   Db.started_at saved = Geolocation.timestamp first /\
   Db.ended_at saved = Geolocation.timestamp (last positions first)).
Proof.
  intros saved. subst saved. unfold RecordActivity.handleSave.
  cbn [RecordActivity.activity Db.distance_meters Db.duration_seconds
       Db.avg_speed_mps Db.max_speed_mps Db.started_at Db.ended_at].
  split; [reflexivity |]. split; [reflexivity |].
  split. { intros Hpos. destruct (Rlt_dec 0 duration); [reflexivity | lra]. }
  split. { intros Hneg. destruct (Rlt_dec 0 duration); [lra | reflexivity]. }
  split. { intros ->. simpl. auto. }
  intros first rest ->.
  change (0 <? List.length (first :: rest))%nat with true. cbv iota.
  split; [| split].
  - exists (Js.Math_max (Js.or_number (Geolocation.speed_mps first) 0)
              (map (fun p => Js.or_number (Geolocation.speed_mps p) 0) rest)).
    split; [reflexivity |].
    simpl map. rewrite or_number_zero.
    replace (map speed_or_zero rest)
      with (map (fun p => Js.or_number (Geolocation.speed_mps p) 0) rest).
    + apply Math_max_is_maximum.
    + apply map_ext. intros p. apply or_number_zero.
  - reflexivity.
  - rewrite (nth_error_last (first :: rest) first) by discriminate.
    reflexivity.
Qed.

Lemma C5_save_reduction_witness :
  let positions :=
    [ {| Geolocation.latitude := 60; Geolocation.longitude := 25;
         Geolocation.elevation_meters := None;
         Geolocation.accuracy_meters := Some 5;
         Geolocation.speed_mps := None; Geolocation.timestamp := "t1" |};
      {| Geolocation.latitude := 60; Geolocation.longitude := 26;
         Geolocation.elevation_meters := None;
         Geolocation.accuracy_meters := Some 5;
         Geolocation.speed_mps := Some 3; Geolocation.timestamp := "t2" |} ] in
  let saved :=
    RecordActivity.activity
      (RecordActivity.handleSave positions 10 "running" "" "" "now" "id"
         Db.empty) in
  Db.avg_speed_mps saved = Some (Db.distance_meters saved / 10) /\
  Db.started_at saved = "t1" /\ Db.ended_at saved = "t2".
Proof.
  intros positions saved.
  destruct (C5_save_reduction positions 10 "running" "" "" "now" "id" Db.empty)
    as (_ & _ & Havg & _ & _ & Hsome).
  destruct (Hsome _ _ eq_refl) as (_ & Hstart & Hend).
  split; [apply Havg; lra |]. split; [exact Hstart | exact Hend].
Defined.

(** ** Recording with a pause (C1) *)

Section Recording.
Variable toISOString : number -> string.

Let toGps := Geolocation.toGpsPosition toISOString.
Let run := Geolocation.run toISOString.

Lemma watch_fixes_append (id : nat) (fixes : list Geolocation.Dom.GeolocationPosition) :
  forall w, watching id w ->
    let w' := run w (map Geolocation.WatchFix fixes) in
    watching id w' /\
    Geolocation.positionsRef (fst w')
    = Geolocation.positionsRef (fst w) ++ map toGps fixes.
Proof.
  induction fixes as [| position fixes IH]; intros [s nav] [Hwatch Href].
  - simpl. split; [split; assumption |]. rewrite app_nil_r. reflexivity.
  - simpl map. unfold run, Geolocation.run. simpl fold_left.
    simpl in Hwatch, Href. rewrite Hwatch. simpl fold_left.
    match goal with
    | |- context [fold_left _ _ ?w0] =>
        destruct (IH w0) as [Hw Hpos]
    end.
    { split; simpl; assumption. }
    unfold run, Geolocation.run in Hw, Hpos. split; [exact Hw |].
    rewrite Hpos. simpl. rewrite <- app_assoc. reflexivity.
Qed.

Lemma set_isPaused_watching (id : nat) (b : bool) (w : Geolocation.World) :
  watching id w ->
  watching id (Geolocation.set_isPaused b w) /\
  Geolocation.positionsRef (fst (Geolocation.set_isPaused b w))
  = Geolocation.positionsRef (fst w).
Proof.
  destruct w as [s nav]. intros [Hwatch Href]. simpl.
  split; [split; assumption | reflexivity].
Qed.

Lemma stop_returns_positionsRef (id : nat) (w : Geolocation.World) :
  snd (Geolocation.stop w) = Geolocation.positionsRef (fst w).
Proof.
  destruct w as [s nav]. unfold Geolocation.stop, Geolocation.clearWatch.
  destruct (Geolocation.watchIdRef s); reflexivity.
Qed.

(** C1, what the code does.  In a session start, fixes, pause, fixes,
    resume, fixes, stop, the sequence that [stop] returns holds every fix,
    those delivered between pause and resume included: the callback that
    [start] registered keeps the [isPaused = false] of its render.  Every
    fix, whatever the closure that handles it, becomes the current
    position. *)
Theorem C1_fixes_while_paused_are_recorded
    (before during after : list Geolocation.Dom.GeolocationPosition) :
  snd (Geolocation.stop
         (run Geolocation.mounted
            ([Geolocation.CallStart] ++ map Geolocation.WatchFix before
             ++ [Geolocation.CallPause] ++ map Geolocation.WatchFix during
             ++ [Geolocation.CallResume] ++ map Geolocation.WatchFix after)))
  = map toGps (before ++ during ++ after)
  /\
  (forall closure position s,
     Geolocation.currentPosition
       (Geolocation.handlePosition toISOString closure position s)
     = Some (toGps position)).
Proof.
  split; [| reflexivity].
  rewrite (stop_returns_positionsRef 0).
  unfold run, Geolocation.run. rewrite !fold_left_app.
  set (w0 := fold_left (Geolocation.step toISOString)
               [Geolocation.CallStart] Geolocation.mounted).
  assert (H0 : watching 0 w0 /\ Geolocation.positionsRef (fst w0) = []).
  { split; [split |]; reflexivity. }
  destruct H0 as [Hw0 Hp0].
  destruct (watch_fixes_append 0 before w0 Hw0) as [Hw1 Hp1].
  unfold run, Geolocation.run in Hw1, Hp1.
  set (w1 := fold_left (Geolocation.step toISOString)
               (map Geolocation.WatchFix before) w0) in *.
  destruct (set_isPaused_watching 0 true w1 Hw1) as [Hw2 Hp2].
  change (fold_left (Geolocation.step toISOString) [Geolocation.CallPause] w1)
    with (Geolocation.set_isPaused true w1).
  set (w2 := Geolocation.set_isPaused true w1) in *.
  destruct (watch_fixes_append 0 during w2 Hw2) as [Hw3 Hp3].
  unfold run, Geolocation.run in Hw3, Hp3.
  set (w3 := fold_left (Geolocation.step toISOString)
               (map Geolocation.WatchFix during) w2) in *.
  destruct (set_isPaused_watching 0 false w3 Hw3) as [Hw4 Hp4].
  change (fold_left (Geolocation.step toISOString) [Geolocation.CallResume] w3)
    with (Geolocation.set_isPaused false w3).
  set (w4 := Geolocation.set_isPaused false w3) in *.
  destruct (watch_fixes_append 0 after w4 Hw4) as [_ Hp5].
  unfold run, Geolocation.run in Hp5.
  rewrite Hp5, Hp4, Hp3, Hp2, Hp1, Hp0. simpl app.
  rewrite !map_app, app_assoc. reflexivity.
Qed.

End Recording.

(** The session of C1 with one fix in each phase: the fix delivered during
    the pause is in what [stop] returns. *)
Example session_with_a_fix_while_paused :
  snd (Geolocation.stop
         (Geolocation.run epoch Geolocation.mounted
            [Geolocation.CallStart; Geolocation.WatchFix (fix_at 60);
             Geolocation.CallPause; Geolocation.WatchFix (fix_at 61);
             Geolocation.CallResume; Geolocation.WatchFix (fix_at 62)]))
  = [Geolocation.toGpsPosition epoch (fix_at 60);
     Geolocation.toGpsPosition epoch (fix_at 61);
     Geolocation.toGpsPosition epoch (fix_at 62)].
Proof. reflexivity. Qed.

(** ** Validation of an imported document (C9) *)

Lemma string_check (v : Json.JsValue) :
  negb (Json.truthy v) || negb (Json.typeof v =? "string") = false
  <-> truthy_string v.
Proof.
  unfold truthy_string. split.
  - destruct v as [[| b | [x |] | s | items | props] |]; simpl;
      try discriminate; try (destruct b; discriminate);
      try (destruct (Req_dec_T x 0); discriminate).
    intros H. exists s. split; [reflexivity |].
    destruct (String.eqb_spec s ""); [discriminate | assumption].
  - intros (s & -> & Hs). simpl.
    destruct (String.eqb_spec s ""); [contradiction | reflexivity].
Qed.

Lemma array_check (v : Json.JsValue) :
  Json.Array_isArray v = true <-> is_array v.
Proof.
  unfold is_array. split.
  - destruct v as [[| b | x | s | items | props] |]; simpl; try discriminate.
    intros _. exists items. reflexivity.
  - intros (items & ->). reflexivity.
Qed.

Lemma truthy_string_prop (v : Json.JsValue) (key : string) :
  truthy_string (Json.prop v key) -> exists props, v = Some (Json.JObject props).
Proof.
  intros (s & H & _).
  destruct v as [[| b | x | t | items | props] |]; try discriminate.
  exists props. reflexivity.
Qed.

Lemma validate_item_spec (item : Json.JSON) :
  ExportImport.validate_item item = true <-> item_well_formed item.
Proof.
  unfold ExportImport.validate_item, item_well_formed. cbv zeta. split.
  - destruct (negb (Json.truthy (Some item))
              || negb (Json.typeof (Some item) =? "object")); [discriminate |].
    destruct (negb (Json.truthy (Json.prop (Some item) "activity"))
              || negb (Json.typeof (Json.prop (Some item) "activity") =? "object"));
      [discriminate |].
    destruct (negb (Json.truthy (Json.prop (Json.prop (Some item) "activity") "id")) || _)
      eqn:Hid; [discriminate |].
    destruct (negb (Json.truthy (Json.prop (Json.prop (Some item) "activity") "sport_type")) || _)
      eqn:Hsport; [discriminate |].
    destruct (negb (Json.truthy (Json.prop (Json.prop (Some item) "activity") "started_at")) || _)
      eqn:Hstart; [discriminate |].
    destruct (Json.Array_isArray (Json.prop (Some item) "gpsPoints")) eqn:Harr;
      [| discriminate].
    intros _. apply string_check in Hid, Hsport, Hstart.
    apply array_check in Harr. auto.
  - intros (Hid & Hsport & Hstart & Harr).
    destruct (truthy_string_prop _ _ Hid) as (aprops & Hact).
    assert (Hitem : exists iprops, item = Json.JObject iprops).
    { destruct item; try discriminate. eexists; reflexivity. }
    destruct Hitem as (iprops & ->).
    apply string_check in Hid, Hsport, Hstart. apply array_check in Harr.
    rewrite Hid, Hsport, Hstart, Harr. rewrite Hact. reflexivity.
Qed.

Lemma validateImportedData_spec (data : Json.JSON) :
  ExportImport.validateImportedData data = true <-> document_well_formed data.
Proof.
  unfold ExportImport.validateImportedData, document_well_formed. split.
  - destruct (negb (Json.truthy (Some data)) || _); [discriminate |].
    destruct (negb (Json.truthy (Json.prop (Some data) "version")) || _)
      eqn:Hversion; [discriminate |].
    apply string_check in Hversion.
    destruct (Json.prop (Some data) "activities")
      as [[| b | x | s | items | props] |]; try discriminate.
    intros Hall. split; [exact Hversion |].
    exists items. split; [reflexivity |].
    apply Forall_forall. intros item Hin. apply validate_item_spec.
    rewrite forallb_forall in Hall. apply Hall. exact Hin.
  - intros (Hversion & items & Hitems & Hall).
    destruct (truthy_string_prop _ _ Hversion) as (props & Hdata).
    injection Hdata as ->.
    apply string_check in Hversion. rewrite Hversion, Hitems.
    simpl. apply forallb_forall. intros item Hin.
    apply validate_item_spec. rewrite Forall_forall in Hall. auto.
Qed.

(** ** The store operations *)

Lemma find_existsb {A : Type} (p : A -> bool) (l : list A) :
  existsb p l = true <-> exists x, find p l = Some x.
Proof.
  induction l as [| a l IH]; simpl.
  - split; [discriminate | intros (x & H); discriminate].
  - destruct (p a); simpl; [split; eauto | exact IH].
Qed.

Lemma found_row_is_truthy (path : string) (k : Json.JSON)
    (rows : list Json.JSON) (row : Json.JSON) :
  find (Db.keyed path k) rows = Some row -> Json.truthy (Some row) = true.
Proof.
  intros Hfind. apply find_some in Hfind. destruct Hfind as [_ Hkeyed].
  unfold Db.keyed in Hkeyed.
  destruct row; simpl in Hkeyed; try discriminate. reflexivity.
Qed.

Lemma key_eqb_string (s : string) (v : Json.JSON) :
  Db.key_eqb v (Json.JString s) = true <-> v = Json.JString s.
Proof.
  split.
  - destruct v as [| b | [x |] | t | items | props]; simpl;
      try discriminate.
    intros H. apply String.eqb_eq in H. congruence.
  - intros ->. simpl. apply String.eqb_refl.
Qed.

Lemma gpsPoints_add_spec (row : Json.JSON) (d d' : Db.Database) :
  Db.gpsPoints_add row d = Db.Ok d' ->
  Db.activities d' = Db.activities d /\
  exists props,
    row = Json.JObject props /\
    (Db.gpsPoints d' = Db.gpsPoints d ++ [row] \/
     exists key,
       Db.gpsPoints d'
       = Db.gpsPoints d ++ [Json.JObject (Json.set_prop props "id" key)]).
Proof.
  unfold Db.gpsPoints_add.
  destruct row as [| b | x | s | items | props]; try discriminate.
  destruct (Json.lookup props "id") as [k |].
  - destruct (negb (Db.valid_key k)); [discriminate |].
    destruct (existsb _ _); [discriminate |].
    intros H. injection H as <-. simpl. split; [reflexivity |].
    exists props. split; [reflexivity | left; reflexivity].
  - intros H. injection H as <-. simpl. split; [reflexivity |].
    exists props. split; [reflexivity |]. right. eexists. reflexivity.
Qed.

Lemma gpsPoints_bulkAdd_spec (rows : list Json.JSON) :
  forall d d',
    Db.gpsPoints_bulkAdd rows d = Db.Ok d' ->
    Db.activities d' = Db.activities d /\
    exists stored,
      Db.gpsPoints d' = Db.gpsPoints d ++ stored /\
      Forall2 (fun row row' =>
                 exists props,
                   row = Json.JObject props /\
                   (row' = row \/
                    exists key,
                      row' = Json.JObject (Json.set_prop props "id" key)))
              rows stored.
Proof.
  induction rows as [| row rows IH]; intros d d'; simpl.
  - intros H. injection H as <-. split; [reflexivity |].
    exists []. rewrite app_nil_r. split; [reflexivity | constructor].
  - unfold Db.bind. destruct (Db.gpsPoints_add row d) as [d1 | e] eqn:Hadd;
      [| discriminate].
    intros Hrest. apply gpsPoints_add_spec in Hadd.
    destruct Hadd as (Hact1 & props & -> & Hpts1).
    destruct (IH _ _ Hrest) as (Hact & stored & Hpts & Hall).
    split; [congruence |].
    destruct Hpts1 as [Hpts1 | (key & Hpts1)].
    + exists (Json.JObject props :: stored). split.
      * rewrite Hpts, Hpts1, <- app_assoc. reflexivity.
      * constructor; [| exact Hall]. exists props. auto.
    + exists (Json.JObject (Json.set_prop props "id" key) :: stored). split.
      * rewrite Hpts, Hpts1, <- app_assoc. reflexivity.
      * constructor; [| exact Hall]. exists props. split; [reflexivity |].
        right. exists key. reflexivity.
Qed.

(** ** One turn of the import loop *)

Lemma item_parts (item : Json.JSON) :
  item_well_formed item ->
  exists aprops s points,
    Json.prop (Some item) "activity" = Some (Json.JObject aprops) /\
    Json.lookup aprops "id" = Some (Json.JString s) /\ s <> "" /\
    Json.prop (Some item) "gpsPoints" = Some (Json.JArray points).
Proof.
  intros (Hid & _ & _ & (points & Hpoints)).
  destruct (truthy_string_prop _ _ Hid) as (aprops & Hact).
  destruct Hid as (s & Hid & Hs). rewrite Hact in Hid. simpl in Hid.
  exists aprops, s, points. auto.
Qed.

Lemma try_import_unfold (item : Json.JSON) (d : Db.Database)
    (aprops : list (string * Json.JSON)) (s : string)
    (points : list Json.JSON) :
  Json.prop (Some item) "activity" = Some (Json.JObject aprops) ->
  Json.lookup aprops "id" = Some (Json.JString s) ->
  Json.prop (Some item) "gpsPoints" = Some (Json.JArray points) ->
  ExportImport.try_import item d
  = if existsb (Db.keyed "id" (Json.JString s)) (Db.activities d)
    then Db.Ok None
    else Db.bind
           (Db.gpsPoints_bulkAdd
              (pointsWithActivityId (Json.JString s) points)
              (with_activity d (Json.JObject aprops)))
           (fun d' => Db.Ok (Some d')).
Proof.
  intros Hact Hid Hpoints. unfold ExportImport.try_import. cbv zeta.
  rewrite Hact, Hpoints. simpl Json.prop. rewrite Hid.
  unfold Db.table_get. simpl Db.valid_key. cbv iota. unfold Db.bind at 1.
  destruct (find (Db.keyed "id" (Json.JString s)) (Db.activities d))
    as [row |] eqn:Hfind.
  - rewrite (found_row_is_truthy _ _ _ _ Hfind).
    assert (Hex : existsb (Db.keyed "id" (Json.JString s)) (Db.activities d)
                  = true) by (apply find_existsb; eauto).
    rewrite Hex. reflexivity.
  - assert (Hex : existsb (Db.keyed "id" (Json.JString s)) (Db.activities d)
                  = false).
    { destruct (existsb _ _) eqn:E; [| reflexivity].
      apply find_existsb in E. destruct E as (x & E). congruence. }
    rewrite Hex. simpl Json.truthy. cbv iota.
    unfold Db.transaction, Db.activities_add. simpl Json.prop. rewrite Hid.
    simpl Db.valid_key. simpl negb. cbv iota. rewrite Hex.
    unfold Db.bind at 2. fold (with_activity d (Json.JObject aprops)).
    fold (pointsWithActivityId (Json.JString s) points).
    destruct points as [| point points]; reflexivity.
Qed.

Lemma lookup_set_prop_same (props : list (string * Json.JSON)) (key : string)
    (v : Json.JSON) :
  Json.lookup (Json.set_prop props key v) key = Some v.
Proof.
  induction props as [| [k old] props IH]; simpl.
  - rewrite String.eqb_refl. reflexivity.
  - destruct (String.eqb_spec k key) as [-> | Hne]; simpl.
    + rewrite String.eqb_refl. reflexivity.
    + apply String.eqb_neq in Hne. rewrite Hne. exact IH.
Qed.

Lemma lookup_set_prop_other (props : list (string * Json.JSON))
    (key key' : string) (v : Json.JSON) :
  key' <> key ->
  Json.lookup (Json.set_prop props key v) key' = Json.lookup props key'.
Proof.
  intros Hne. induction props as [| [k old] props IH]; simpl.
  - destruct (String.eqb_spec key key'); [congruence | reflexivity].
  - destruct (String.eqb_spec k key) as [-> | Hk]; simpl.
    + destruct (String.eqb_spec key key'); [congruence | reflexivity].
    + destruct (String.eqb_spec k key'); [reflexivity | exact IH].
Qed.

Lemma present_with_activity (k : Json.JSON) (d d' : Db.Database)
    (activity : Json.JSON) :
  Db.activities d' = Db.activities d ++ [activity] ->
  present k d -> present k d'.
Proof.
  unfold present. intros -> H. rewrite existsb_app, H. reflexivity.
Qed.

Lemma present_new_activity (s : string) (d d' : Db.Database)
    (aprops : list (string * Json.JSON)) :
  Db.activities d' = Db.activities d ++ [Json.JObject aprops] ->
  Json.lookup aprops "id" = Some (Json.JString s) ->
  present (Json.JString s) d'.
Proof.
  unfold present. intros -> Hid. rewrite existsb_app. simpl.
  unfold Db.keyed. simpl. rewrite Hid. simpl. rewrite String.eqb_refl.
  apply orb_true_iff. right. reflexivity.
Qed.

Lemma bulkAdd_points (s : string) (points : list Json.JSON)
    (d d' : Db.Database) :
  Db.gpsPoints_bulkAdd (pointsWithActivityId (Json.JString s) points) d
  = Db.Ok d' ->
  Db.activities d' = Db.activities d /\
  exists stored,
    Db.gpsPoints d' = Db.gpsPoints d ++ stored /\
    Forall2 (stored_from (Json.JString s)) points stored.
Proof.
  intros Hbulk. apply gpsPoints_bulkAdd_spec in Hbulk.
  destruct Hbulk as (Hact & stored & Hpts & Hall).
  split; [exact Hact |]. exists stored. split; [exact Hpts |].
  clear Hpts. revert stored Hall.
  induction points as [| point points IH]; intros stored Hall;
    inversion Hall; subst; constructor.
  - match goal with H : exists _, _ |- _ => destruct H as (props & Hrow & Hst) end.
    injection Hrow as <-. unfold stored_from. cbv zeta.
    destruct Hst as [-> | (key & ->)]; [left; reflexivity |].
    right. exists key. reflexivity.
  - apply IH. assumption.
Qed.

Lemma stored_from_activity_id (activityId point row : Json.JSON) :
  stored_from activityId point row ->
  Json.prop (Some row) "activity_id" = Some activityId.
Proof.
  unfold stored_from. cbv zeta. intros [-> | (key & ->)]; simpl.
  - apply lookup_set_prop_same.
  - rewrite lookup_set_prop_other by discriminate.
    apply lookup_set_prop_same.
Qed.

Section ImportLoop.
Variable JSON_parse : string -> option Json.JSON.
Variable ToString : Json.JsValue -> string.
Variable describe : Db.Thrown -> string.

Let import_item := ExportImport.import_item ToString describe.
Let importActivities := ExportImport.importActivities JSON_parse ToString describe.
Let message := failure_message ToString describe.

Lemma import_item_unfold (item : Json.JSON) (r : ExportImport.ImportResult)
    (d : Db.Database) (aprops : list (string * Json.JSON)) (s : string)
    (points : list Json.JSON) :
  Json.prop (Some item) "activity" = Some (Json.JObject aprops) ->
  Json.lookup aprops "id" = Some (Json.JString s) ->
  Json.prop (Some item) "gpsPoints" = Some (Json.JArray points) ->
  import_item (r, d) item
  = if existsb (Db.keyed "id" (Json.JString s)) (Db.activities d)
    then (skip r, d)
    else match Db.gpsPoints_bulkAdd
                 (pointsWithActivityId (Json.JString s) points)
                 (with_activity d (Json.JObject aprops)) with
         | Db.Ok d' => (count r, d')
         | Db.Err e => (report r (message item e), d)
         end.
Proof.
  intros Hact Hid Hpoints. unfold import_item, ExportImport.import_item.
  rewrite (try_import_unfold item d aprops s points Hact Hid Hpoints).
  destruct (existsb _ _); [reflexivity |].
  destruct (Db.gpsPoints_bulkAdd _ _); reflexivity.
Qed.

Lemma import_item_turn (item : Json.JSON) (r : ExportImport.ImportResult)
    (d : Db.Database) :
  item_well_formed item ->
  turn ToString describe item r d
    (fst (import_item (r, d) item)) (snd (import_item (r, d) item)).
Proof.
  intros Hwf. destruct (item_parts item Hwf) as (aprops & s & points & Hact & Hid & Hs & Hpoints).
  assert (Hidof : activity_id_of item = Some (Json.JString s)).
  { unfold activity_id_of. rewrite Hact. exact Hid. }
  rewrite (import_item_unfold item r d aprops s points Hact Hid Hpoints).
  destruct (existsb (Db.keyed "id" (Json.JString s)) (Db.activities d)) eqn:Hex.
  - simpl. apply (turn_skipped _ _ item r d s); assumption.
  - assert (Hnot : ~ present (Json.JString s) d).
    { unfold present. rewrite Hex. discriminate. }
    destruct (Db.gpsPoints_bulkAdd _ _) as [d' | e] eqn:Hbulk; simpl.
    + apply bulkAdd_points in Hbulk.
      destruct Hbulk as (Hacts & stored & Hpts & Hall).
      apply (turn_imported _ _ item r d s (Json.JObject aprops) points stored d');
        try assumption.
      split; assumption.
    + apply (turn_failed _ _ item r d s e); assumption.
Qed.

Lemma loop_invariant (P : ExportImport.ImportResult -> Db.Database -> Prop)
    (items : list Json.JSON) :
  Forall item_well_formed items ->
  (forall item r d r' d',
     In item items -> P r d -> turn ToString describe item r d r' d' ->
     P r' d') ->
  forall r d,
    P r d ->
    P (fst (fold_left import_item items (r, d)))
      (snd (fold_left import_item items (r, d))).
Proof.
  induction items as [| item items IH]; intros Hwf Hstep r d HP.
  - exact HP.
  - inversion Hwf as [| ? ? Hitem Hrest]; subst.
    change (fold_left import_item (item :: items) (r, d))
      with (fold_left import_item items (import_item (r, d) item)).
    pose proof (import_item_turn item r d Hitem) as Hturn.
    destruct (import_item (r, d) item) as [r1 d1]. simpl in Hturn.
    apply IH.
    + exact Hrest.
    + intros item' r0 d0 r' d' Hin. apply Hstep. right. exact Hin.
    + apply (Hstep item r d); [left; reflexivity | exact HP | exact Hturn].
Qed.

Lemma loop_presence (items : list Json.JSON) :
  Forall item_well_formed items ->
  forall r d,
    let r' := fst (fold_left import_item items (r, d)) in
    let d' := snd (fold_left import_item items (r, d)) in
    (forall k, present k d -> present k d') /\
    (List.length (ExportImport.errors r)
     <= List.length (ExportImport.errors r'))%nat /\
    ExportImport.success r' = ExportImport.success r /\
    (List.length (ExportImport.errors r')
     = List.length (ExportImport.errors r) ->
     Forall (fun item =>
               exists s, activity_id_of item = Some (Json.JString s) /\
                         present (Json.JString s) d') items).
Proof.
  induction items as [| item items IH]; intros Hwf r d.
  - simpl. repeat split; auto.
  - inversion Hwf as [| ? ? Hitem Hrest]; subst.
    change (fold_left import_item (item :: items) (r, d))
      with (fold_left import_item items (import_item (r, d) item)).
    pose proof (import_item_turn item r d Hitem) as Hturn.
    destruct (import_item (r, d) item) as [r1 d1]. simpl in Hturn.
    specialize (IH Hrest r1 d1). cbv zeta in IH.
    destruct IH as (Hpres & Hlen & Hsucc & Hall). cbv zeta.
    set (r' := fst (fold_left import_item items (r1, d1))) in *.
    set (d' := snd (fold_left import_item items (r1, d1))) in *.
    inversion Hturn
      as [s Hid Hin Hr Hd | s e Hid Hnot Hr Hd
          | s activity points stored d0 Hid Hnot Hact Hpts [Hacts Hrows] Hfrom Hr Hd];
      subst.
    + cbn [ExportImport.errors ExportImport.success skip count report] in *. repeat split; auto.
      intros Heq. constructor; [| auto]. exists s. auto.
    + cbn [ExportImport.errors ExportImport.success skip count report] in *. rewrite length_app in Hlen. simpl in Hlen.
      repeat split; auto; try lia.
    + cbn [ExportImport.errors ExportImport.success skip count report] in *.
      assert (Hkeep : forall k, present k d -> present k d').
      { intros k Hk. apply Hpres.
        apply (present_with_activity k d d1 activity Hacts Hk). }
      repeat split; auto.
      intros Heq. constructor; [| auto]. exists s. split; [exact Hid |].
      apply Hpres.
      destruct (item_parts item Hitem) as (aprops & s' & points' & Hact' & Hid' & _ & _).
      rewrite Hact' in Hact. injection Hact as <-.
      unfold activity_id_of in Hid. rewrite Hact' in Hid. simpl in Hid.
      rewrite Hid' in Hid. injection Hid as ->.
      apply (present_new_activity s d d1 aprops Hacts Hid').
Qed.

Lemma loop_all_present (items : list Json.JSON) :
  Forall item_well_formed items ->
  forall r d,
    Forall (fun item =>
              exists s, activity_id_of item = Some (Json.JString s) /\
                        present (Json.JString s) d) items ->
    fold_left import_item items (r, d)
    = ({| ExportImport.success := ExportImport.success r;
          ExportImport.imported := ExportImport.imported r;
          ExportImport.skipped :=
            ExportImport.skipped r + List.length items;
          ExportImport.errors := ExportImport.errors r |}, d).
Proof.
  induction items as [| item items IH]; intros Hwf r d Hall.
  - simpl. rewrite Nat.add_0_r. destruct r; reflexivity.
  - inversion Hwf as [| ? ? Hitem Hrest]; subst.
    inversion Hall as [| ? ? (s & Hid & Hpres) Hall']; subst.
    change (fold_left import_item (item :: items) (r, d))
      with (fold_left import_item items (import_item (r, d) item)).
    destruct (item_parts item Hitem)
      as (aprops & s' & points & Hact & Hid' & _ & Hpoints).
    unfold activity_id_of in Hid. rewrite Hact in Hid. simpl in Hid.
    rewrite Hid' in Hid. injection Hid as ->.
    rewrite (import_item_unfold item r d aprops s points Hact Hid' Hpoints).
    unfold present in Hpres. rewrite Hpres.
    rewrite (IH Hrest (skip r) d Hall'). simpl.
    f_equal. f_equal. lia.
Qed.

Lemma import_unparseable (jsonData : string) (d : Db.Database) :
  JSON_parse jsonData = None ->
  importActivities jsonData d = (invalid_json, d).
Proof.
  intros Hparse. unfold importActivities, ExportImport.importActivities.
  rewrite Hparse. reflexivity.
Qed.

Lemma import_rejected (jsonData : string) (data : Json.JSON) (d : Db.Database) :
  JSON_parse jsonData = Some data ->
  ExportImport.validateImportedData data = false ->
  importActivities jsonData d = (invalid_structure, d).
Proof.
  intros Hparse Hvalid. unfold importActivities, ExportImport.importActivities.
  rewrite Hparse, Hvalid. reflexivity.
Qed.

Lemma import_accepted (jsonData : string) (data : Json.JSON) (d : Db.Database) :
  JSON_parse jsonData = Some data ->
  ExportImport.validateImportedData data = true ->
  let loop :=
    fold_left import_item (items_of data)
      ({| ExportImport.success := false; ExportImport.imported := 0;
          ExportImport.skipped := 0; ExportImport.errors := [] |}, d) in
  importActivities jsonData d
  = ({| ExportImport.success :=
          (List.length (ExportImport.errors (fst loop)) =? 0)%nat
          || (0 <? ExportImport.imported (fst loop))%nat;
        ExportImport.imported := ExportImport.imported (fst loop);
        ExportImport.skipped := ExportImport.skipped (fst loop);
        ExportImport.errors := ExportImport.errors (fst loop) |}, snd loop).
Proof.
  intros Hparse Hvalid loop.
  unfold importActivities, ExportImport.importActivities.
  rewrite Hparse, Hvalid. simpl negb. cbv iota.
  fold (items_of data). fold import_item. fold loop.
  destruct loop as [r d']. reflexivity.
Qed.

Lemma accepted_items (data : Json.JSON) :
  ExportImport.validateImportedData data = true ->
  Forall item_well_formed (items_of data).
Proof.
  intros Hvalid. apply validateImportedData_spec in Hvalid.
  destruct Hvalid as (_ & items & Hitems & Hall).
  unfold items_of. rewrite Hitems. exact Hall.
Qed.

(** C4.  A text that [JSON.parse] rejects gives exactly
    [errors = ["Invalid JSON format"]], [success = false], [imported = 0],
    [skipped = 0], and neither this nor a text that fails the structure
    check changes the store. *)
Theorem C4_malformed_input (jsonData : string) (d : Db.Database) :
  (JSON_parse jsonData = None ->
   importActivities jsonData d = (invalid_json, d)) /\
  (forall data,
     JSON_parse jsonData = Some data ->
     ExportImport.validateImportedData data = false ->
     importActivities jsonData d = (invalid_structure, d)).
Proof.
  split.
  - apply import_unparseable.
  - intros data. apply import_rejected.
Qed.

Lemma structure_check_decides (jsonData : string) (data : Json.JSON)
    (d : Db.Database) :
  JSON_parse jsonData = Some data ->
  (ExportImport.validateImportedData data = true
   <-> document_well_formed data) /\
  (~ document_well_formed data ->
   importActivities jsonData d = (invalid_structure, d)) /\
  (In "Invalid data structure. Expected Sports Tracker export format."
      (ExportImport.errors (fst (importActivities jsonData d)))
   <-> ~ document_well_formed data).
Proof.
  intros Hparse.
  split; [apply validateImportedData_spec |].
  assert (Hreject : ~ document_well_formed data ->
                    importActivities jsonData d = (invalid_structure, d)).
  { intros Hnot. apply (import_rejected jsonData data d Hparse).
    destruct (ExportImport.validateImportedData data) eqn:Hvalid;
      [| reflexivity].
    exfalso. apply Hnot. apply validateImportedData_spec. exact Hvalid. }
  split; [exact Hreject |]. split.
  - intros Hin Hwf. apply validateImportedData_spec in Hwf.
    rewrite (import_accepted jsonData data d Hparse Hwf) in Hin.
    cbv zeta in Hin. cbn [fst ExportImport.errors] in Hin.
    revert Hin.
    apply (loop_invariant
             (fun r _ =>
                ~ In "Invalid data structure. Expected Sports Tracker export format."
                     (ExportImport.errors r))
             (items_of data) (accepted_items data Hwf)).
    + intros item r0 d0 r' d' _ HP Hturn. inversion Hturn; subst; try exact HP.
      cbn [report ExportImport.errors]. intros Hin.
      apply in_app_or in Hin. destruct Hin as [Hin | [Hin | []]];
        [exact (HP Hin) |].
      unfold failure_message in Hin. simpl in Hin. discriminate.
    + simpl. tauto.
  - intros Hnot. rewrite (Hreject Hnot). left. reflexivity.
Qed.

Lemma import_curling_bundle (jsonData : string) :
  JSON_parse jsonData = Some curling_bundle ->
  importActivities jsonData Db.empty = (one_imported, curling_store).
Proof.
  intros Hparse. unfold importActivities, ExportImport.importActivities.
  rewrite Hparse. reflexivity.
Qed.

(** C9.  The structure check accepts exactly the documents with a truthy
    string [version] (whatever its value), an [activities] array, and in
    every item an activity whose [id], [sport_type] and [started_at] are
    truthy strings and a [gpsPoints] array; import reports the
    invalid-structure error exactly when the parsed document fails this.
    Nothing else is checked: a file of version 2.0 whose activity has an
    unknown sport and no numeric field is imported, and the same file with
    an empty id is rejected. *)
Theorem C9_structure_check :
  (forall data,
     ExportImport.validateImportedData data = true
     <-> document_well_formed data) /\
  (forall jsonData data d,
     JSON_parse jsonData = Some data ->
     (In "Invalid data structure. Expected Sports Tracker export format."
         (ExportImport.errors (fst (importActivities jsonData d)))
      <-> ~ document_well_formed data) /\
     (~ document_well_formed data ->
      importActivities jsonData d = (invalid_structure, d))) /\
  (forall jsonData,
     JSON_parse jsonData = Some curling_bundle ->
     importActivities jsonData Db.empty = (one_imported, curling_store)) /\
  ExportImport.validateImportedData empty_id_bundle = false.
Proof.
  split; [exact validateImportedData_spec |].
  split.
  { intros jsonData data d Hparse.
    destruct (structure_check_decides jsonData data d Hparse) as (_ & Hrej & Hiff).
    split; assumption. }
  split; [exact import_curling_bundle | reflexivity].
Qed.

(** ** Skipping and the success flag (C3) *)

Lemma import_item_skips (item : Json.JSON) (r : ExportImport.ImportResult)
    (d : Db.Database) (s : string) :
  item_well_formed item ->
  activity_id_of item = Some (Json.JString s) ->
  present (Json.JString s) d ->
  import_item (r, d) item = (skip r, d).
Proof.
  intros Hwf Hid Hpres.
  destruct (item_parts item Hwf)
    as (aprops & s' & points & Hact & Hid' & _ & Hpoints).
  unfold activity_id_of in Hid. rewrite Hact in Hid. simpl in Hid.
  rewrite Hid' in Hid. injection Hid as ->.
  rewrite (import_item_unfold item r d aprops s points Hact Hid' Hpoints).
  unfold present in Hpres. rewrite Hpres. reflexivity.
Qed.

Lemma success_flag (jsonData : string) (data : Json.JSON) (d : Db.Database) :
  JSON_parse jsonData = Some data ->
  ExportImport.validateImportedData data = true ->
  let r := fst (importActivities jsonData d) in
  ExportImport.success r = true
  <-> (ExportImport.errors r = [] \/ (0 < ExportImport.imported r)%nat).
Proof.
  intros Hparse Hvalid. rewrite (import_accepted jsonData data d Hparse Hvalid).
  cbv zeta. cbn [fst ExportImport.success ExportImport.errors ExportImport.imported].
  rewrite orb_true_iff, Nat.eqb_eq, Nat.ltb_lt, length_zero_iff_nil.
  reflexivity.
Qed.

Lemma second_run (jsonData : string) (data : Json.JSON) (d : Db.Database) :
  JSON_parse jsonData = Some data ->
  ExportImport.validateImportedData data = true ->
  ExportImport.errors (fst (importActivities jsonData d)) = [] ->
  importActivities jsonData (snd (importActivities jsonData d))
  = (all_skipped (List.length (items_of data)),
     snd (importActivities jsonData d)).
Proof.
  intros Hparse Hvalid.
  rewrite (import_accepted jsonData data d Hparse Hvalid). cbv zeta.
  cbn [fst snd ExportImport.errors]. intros Hclean.
  pose proof (accepted_items data Hvalid) as Hwf.
  destruct (loop_presence (items_of data) Hwf
              {| ExportImport.success := false; ExportImport.imported := 0;
                 ExportImport.skipped := 0; ExportImport.errors := [] |} d)
    as (_ & _ & _ & Hall).
  rewrite Hclean in Hall. specialize (Hall eq_refl).
  rewrite (import_accepted jsonData data _ Hparse Hvalid). cbv zeta.
  rewrite (loop_all_present (items_of data) Hwf _ _ Hall).
  reflexivity.
Qed.

(** C3, amended.  For a file that passes the structure check: an activity
    whose id is in the store is counted as skipped, records no error and
    leaves the store as it is; the success flag is true exactly when the
    error list is empty or at least one activity was imported; and when a
    run reported no error, running the same file again on the store it left
    gives imported = 0, skipped = N, success = true, and leaves the store as
    it is. *)
Theorem C3_skip_and_success (jsonData : string) (data : Json.JSON) :
  JSON_parse jsonData = Some data ->
  ExportImport.validateImportedData data = true ->
  (forall item r d s,
     In item (items_of data) ->
     activity_id_of item = Some (Json.JString s) ->
     present (Json.JString s) d ->
     import_item (r, d) item = (skip r, d)) /\
  (forall d,
     ExportImport.success (fst (importActivities jsonData d)) = true
     <-> (ExportImport.errors (fst (importActivities jsonData d)) = [] \/
          (0 < ExportImport.imported (fst (importActivities jsonData d)))%nat)) /\
  (forall d,
     ExportImport.errors (fst (importActivities jsonData d)) = [] ->
     importActivities jsonData (snd (importActivities jsonData d))
     = (all_skipped (List.length (items_of data)),
        snd (importActivities jsonData d))).
Proof.
  intros Hparse Hvalid. split; [| split].
  - intros item r d s Hin. apply import_item_skips.
    pose proof (accepted_items data Hvalid) as Hwf.
    rewrite Forall_forall in Hwf. auto.
  - intros d. apply (success_flag jsonData data d Hparse Hvalid).
  - intros d. apply (second_run jsonData data d Hparse Hvalid).
Qed.

(** ** Samples reference stored activities (C10) *)

Lemma turn_keeps_integrity (item : Json.JSON)
    (r r' : ExportImport.ImportResult) (d d' : Db.Database) :
  turn ToString describe item r d r' d' ->
  referential_integrity d -> referential_integrity d'.
Proof.
  intros Hturn Hint.
  inversion Hturn
    as [s Hid Hin Hr Hd | s e Hid Hnot Hr Hd
        | s activity points stored d0 Hid Hnot Hact Hpts [Hacts Hrows] Hfrom Hr Hd];
    subst; try exact Hint.
  unfold referential_integrity in *. rewrite Hrows. apply Forall_app. split.
  - eapply Forall_impl; [| exact Hint].
    intros row (k & Hk & Hpres). exists k. split; [exact Hk |].
    apply (present_with_activity k d d' activity Hacts Hpres).
  - assert (Hnew : present (Json.JString s) d').
    { unfold activity_id_of in Hid. rewrite Hact in Hid.
      destruct activity as [| b | x | t | items | aprops]; try discriminate.
      apply (present_new_activity s d d' aprops Hacts Hid). }
    clear - Hfrom Hnew. induction Hfrom as [| point row points stored Hrow _ IH];
      constructor; [| exact IH].
    exists (Json.JString s). split; [| exact Hnew].
    apply (stored_from_activity_id _ point). exact Hrow.
Qed.

Lemma import_keeps_integrity (jsonData : string) (d : Db.Database) :
  referential_integrity d ->
  referential_integrity (snd (importActivities jsonData d)).
Proof.
  intros Hint.
  destruct (JSON_parse jsonData) as [data |] eqn:Hparse.
  - destruct (ExportImport.validateImportedData data) eqn:Hvalid.
    + rewrite (import_accepted jsonData data d Hparse Hvalid). cbv zeta.
      cbn [snd].
      apply (loop_invariant (fun _ d0 => referential_integrity d0)
               (items_of data) (accepted_items data Hvalid)).
      * intros item r0 d0 r' d' _ HP Hturn.
        apply (turn_keeps_integrity item r0 r' d0 d' Hturn HP).
      * exact Hint.
    + rewrite (import_rejected jsonData data d Hparse Hvalid). exact Hint.
  - rewrite (import_unparseable jsonData d Hparse). exact Hint.
Qed.





End ImportLoop.

(** C3, as stated, fails: [duplicate_point_bundle] passes the structure
    check and holds one activity; its two points carry the same [id], the
    store refuses the second, the transaction is undone and an error is
    recorded.  The second run meets the same store and fails in the same
    way: nothing is skipped and the run is not a success. *)
Lemma C3_failed_activity_is_retried :
  ExportImport.validateImportedData duplicate_point_bundle = true /\
  List.length (items_of duplicate_point_bundle) = 1%nat /\
  forall JSON_parse ToString describe jsonData,
    JSON_parse jsonData = Some duplicate_point_bundle ->
    let import :=
      ExportImport.importActivities JSON_parse ToString describe jsonData in
    snd (import Db.empty) = Db.empty /\
    ExportImport.imported (fst (import (snd (import Db.empty)))) = 0%nat /\
    ExportImport.skipped (fst (import (snd (import Db.empty)))) = 0%nat /\
    ExportImport.success (fst (import (snd (import Db.empty)))) = false.
Proof.
  split; [reflexivity |]. split; [reflexivity |].
  intros JSON_parse ToString describe jsonData Hparse import.
  assert (Hfirst : snd (import Db.empty) = Db.empty).
  { unfold import, ExportImport.importActivities. rewrite Hparse. reflexivity. }
  split; [exact Hfirst |]. rewrite Hfirst.
  unfold import, ExportImport.importActivities. rewrite Hparse.
  repeat split; reflexivity.
Qed.

Lemma C3_skip_and_success_witness :
  ExportImport.importActivities
    (parse_as "curling.json" curling_bundle) render_value render_exception
    "curling.json" curling_store
  = (all_skipped 1, curling_store).
Proof.
  destruct (C3_skip_and_success
              (parse_as "curling.json" curling_bundle)
              render_value render_exception
              "curling.json" curling_bundle eq_refl eq_refl)
    as (_ & _ & Hagain).
  exact (Hagain Db.empty eq_refl).
Defined.

Lemma C4_malformed_input_witness :
  ExportImport.importActivities
    (parse_as "[]" (Json.JArray [])) render_value render_exception
    "{oops" curling_store
  = (invalid_json, curling_store) /\
  ExportImport.importActivities
    (parse_as "[]" (Json.JArray [])) render_value render_exception
    "[]" curling_store
  = (invalid_structure, curling_store).
Proof.
  split.
  - apply (C4_malformed_input (parse_as "[]" (Json.JArray []))
             render_value render_exception "{oops" curling_store).
    reflexivity.
  - apply (C4_malformed_input (parse_as "[]" (Json.JArray []))
             render_value render_exception "[]" curling_store)
      with (data := Json.JArray []); reflexivity.
Defined.

Lemma C9_structure_check_witness :
  ExportImport.importActivities
    (parse_as "curling.json" curling_bundle) render_value render_exception
    "curling.json" Db.empty
  = (one_imported, curling_store).
Proof.
  destruct (C9_structure_check (parse_as "curling.json" curling_bundle)
              render_value render_exception) as (_ & _ & Himported & _).
  apply Himported. reflexivity.
Defined.

Example import_stray_bundle :
  ExportImport.importActivities
    (parse_as "stray.json" stray_bundle) render_value render_exception
    "stray.json" Db.empty
  = (one_imported, stray_store).
Proof. reflexivity. Qed.


(** ** Export, then import into an empty store (C2) *)






Lemma keyed_string (path s : string) (row : Json.JSON) :
  Db.keyed path (Json.JString s) row = true <->
  exists props, row = Json.JObject props /\
                Json.lookup props path = Some (Json.JString s).
Proof.
  unfold Db.keyed. split.
  - destruct row as [| b | x | t | items | props]; simpl; try discriminate.
    destruct (Json.lookup props path) as [k |] eqn:Hk; [| discriminate].
    intros Heq. apply key_eqb_string in Heq. subst k.
    exists props. auto.
  - intros (props & -> & Hk). simpl. rewrite Hk. apply key_eqb_string.
    reflexivity.
Qed.




Lemma row_key_string (a : Json.JSON) :
  activity_row_ok a ->
  exists aprops s, a = Json.JObject aprops /\
                   Json.lookup aprops "id" = Some (Json.JString s) /\ s <> "".
Proof.
  intros (Hid & _ & _). destruct (truthy_string_prop _ _ Hid) as (aprops & Ha).
  injection Ha as ->. destruct Hid as (s & Hid & Hs).
  exists aprops, s. auto.
Qed.

Lemma export_loop_ok (d : Db.Database) (rows : list Json.JSON) :
  Forall activity_row_ok rows ->
  ExportImport.export_loop rows d = Db.Ok (map (exported_item d) rows).
Proof.
  induction 1 as [| a rows Ha _ IH]; [reflexivity |].
  destruct (row_key_string a Ha) as (aprops & s & -> & Hid & _).
  simpl ExportImport.export_loop. simpl Json.prop. rewrite Hid.
  unfold Db.where_equals. simpl Db.valid_key. cbv iota.
  unfold Db.bind at 1. rewrite IH. unfold Db.bind.
  simpl map. unfold exported_item at 2, row_key. simpl Json.prop.
  rewrite Hid. reflexivity.
Qed.

Lemma exportAllActivities_ok (now : string) (d : Db.Database) :
  Forall activity_row_ok (Db.activities d) ->
  ExportImport.exportAllActivities now d = Db.Ok (exported_bundle now d).
Proof.
  intros Hrows. unfold ExportImport.exportAllActivities.
  rewrite (export_loop_ok d _ Hrows). reflexivity.
Qed.

Lemma exported_item_well_formed (d : Db.Database) (a : Json.JSON) :
  activity_row_ok a -> item_well_formed (exported_item d a).
Proof.
  intros (Hid & Hsport & Hstart). unfold item_well_formed. cbv zeta.
  simpl. repeat split; try assumption. eexists. reflexivity.
Qed.

Lemma exported_bundle_accepted (now : string) (d : Db.Database) :
  Forall activity_row_ok (Db.activities d) ->
  ExportImport.validateImportedData (exported_bundle now d) = true.
Proof.
  intros Hrows. apply validateImportedData_spec. split.
  - exists "1.0". split; [reflexivity | discriminate].
  - eexists. split; [reflexivity |].
    apply Forall_forall. intros item Hin. apply in_map_iff in Hin.
    destruct Hin as (a & <- & Ha). apply exported_item_well_formed.
    rewrite Forall_forall in Hrows. auto.
Qed.


Section RoundTrip.
Variable ToString : Json.JsValue -> string.
Variable describe : Db.Thrown -> string.
Variable d : Db.Database.

Let import_item := ExportImport.import_item ToString describe.


Lemma present_iff (s : string) (current : Db.Database) :
  present (Json.JString s) current <->
  exists a, In a (Db.activities current) /\
            row_key a = Some (Json.JString s).
Proof.
  unfold present. rewrite existsb_exists. split.
  - intros (a & Hin & Hkeyed). apply keyed_string in Hkeyed.
    destruct Hkeyed as (props & -> & Hid). exists (Json.JObject props). auto.
  - intros (a & Hin & Hkey). exists a. split; [exact Hin |].
    unfold row_key in Hkey. unfold Db.keyed. rewrite Hkey.
    apply key_eqb_string. reflexivity.
Qed.



End RoundTrip.

Lemma filter_none {A : Type} (p : A -> bool) (l : list A) :
  (forall x, In x l -> p x = false) -> filter p l = [].
Proof.
  induction l as [| a l IH]; intros Hall; [reflexivity |].
  simpl. rewrite (Hall a) by (left; reflexivity).
  apply IH. intros x Hx. apply Hall. right. exact Hx.
Qed.

Lemma no_samples_without_activity (d : Db.Database) (s : string) :
  referential_integrity d ->
  ~ present (Json.JString s) d ->
  samples_of s d = [].
Proof.
  intros Hint Hnot. unfold samples_of. rewrite filter_none; [reflexivity |].
  intros row Hin.
  destruct (Db.keyed "activity_id" (Json.JString s) row) eqn:Hkeyed;
    [| reflexivity].
  exfalso. apply Hnot. unfold referential_integrity in Hint.
  rewrite Forall_forall in Hint. destruct (Hint row Hin) as (k & Hk & Hpres).
  apply keyed_string in Hkeyed. destruct Hkeyed as (props & -> & Hid).
  simpl in Hk. rewrite Hid in Hk. injection Hk as <-. exact Hpres.
Qed.

(** The shape that the round trip asks of a store is kept by import. *)
Lemma turn_keeps_store_ok (ToString : Json.JsValue -> string)
    (describe : Db.Thrown -> string) (item : Json.JSON)
    (r r' : ExportImport.ImportResult) (d d' : Db.Database) :
  item_well_formed item ->
  turn ToString describe item r d r' d' ->
  store_ok d -> store_ok d'.
Proof.
  intros Hwf Hturn [Hrows Hnodup].
  inversion Hturn
    as [s Hid Hin Hr Hd | s e Hid Hnot Hr Hd
        | s activity points stored d0 Hid Hnot Hact Hpts [Hacts Hpoints] Hfrom Hr Hd];
    subst; try (split; assumption).
  destruct Hwf as (Hwid & Hwsport & Hwstart & _). cbv zeta in *.
  rewrite Hact in Hwid, Hwsport, Hwstart.
  unfold activity_id_of in Hid. rewrite Hact in Hid.
  split; rewrite Hacts.
  - apply Forall_app. split; [exact Hrows |].
    constructor; [| constructor]. repeat split; assumption.
  - rewrite map_app. simpl map.
    assert (Hfresh : ~ In (row_key activity) (map row_key (Db.activities d))).
    { intros Hin. apply Hnot. apply present_iff.
      apply in_map_iff in Hin. destruct Hin as (a & Hkey & Ha).
      exists a. split; [exact Ha |]. rewrite Hkey. exact Hid. }
    clear - Hnodup Hfresh.
    induction (Db.activities d) as [| a rows IH]; simpl.
    + constructor; [intros [] | constructor].
    + inversion Hnodup as [| ? ? Hnotin Hnodup']; subst. constructor.
      * intros Hin. apply in_app_or in Hin. destruct Hin as [Hin | [Heq | []]].
        -- contradiction.
        -- apply Hfresh. left. symmetry. exact Heq.
      * apply IH; [exact Hnodup' |]. intros Hin. apply Hfresh. right. exact Hin.
Qed.

Lemma import_keeps_store_ok (JSON_parse : string -> option Json.JSON)
    (ToString : Json.JsValue -> string) (describe : Db.Thrown -> string)
    (jsonData : string) (d : Db.Database) :
  store_ok d ->
  store_ok (snd (ExportImport.importActivities JSON_parse ToString describe
                   jsonData d)).
Proof.
  intros Hok.
  destruct (JSON_parse jsonData) as [data |] eqn:Hparse.
  - destruct (ExportImport.validateImportedData data) eqn:Hvalid.
    + rewrite (import_accepted JSON_parse ToString describe jsonData data d
                 Hparse Hvalid).
      cbv zeta. cbn [snd].
      pose proof (accepted_items data Hvalid) as Hitems.
      apply (loop_invariant ToString describe (fun _ d0 => store_ok d0)
               (items_of data) Hitems).
      * intros item r0 d0 r' d' Hin HP Hturn.
        rewrite Forall_forall in Hitems.
        apply (turn_keeps_store_ok ToString describe item r0 r' d0 d'
                 (Hitems item Hin) Hturn HP).
      * exact Hok.
    + rewrite (import_rejected JSON_parse ToString describe jsonData data d
                 Hparse Hvalid).
      exact Hok.
  - rewrite (import_unparseable JSON_parse ToString describe jsonData d Hparse).
    exact Hok.
Qed.

Section ExportThenImport.
Variable JSON_parse : string -> option Json.JSON.
Variable ToString : Json.JsValue -> string.
Variable describe : Db.Thrown -> string.

Let importActivities := ExportImport.importActivities JSON_parse ToString describe.




End ExportThenImport.

Lemma walk_store_ok : store_ok walk_store.
Proof.
  split.
  - constructor; [| constructor].
    repeat split; eexists; (split; [reflexivity | discriminate]).
  - constructor; [intros [] | constructor].
Qed.



(** The second hypothesis is needed: [orphan_store] holds a sample whose
    activity is not stored, a store that none of the application's writers
    leaves.  Export writes a bundle without activities, and import of it
    leaves the empty store empty. *)
Example orphan_sample_is_not_exported :
  (forall now,
     ExportImport.exportAllActivities now orphan_store
     = Db.Ok (empty_bundle now)) /\
  (forall JSON_parse ToString describe now jsonData,
     JSON_parse jsonData = Some (empty_bundle now) ->
     snd (ExportImport.importActivities JSON_parse ToString describe
            jsonData Db.empty)
     = Db.empty) /\
  samples_of "gone" orphan_store <> samples_of "gone" Db.empty.
Proof.
  split; [reflexivity |]. split.
  - intros JSON_parse ToString describe now jsonData Hparse.
    unfold ExportImport.importActivities. rewrite Hparse. reflexivity.
  - discriminate.
Qed.

(** The shape asked of the activities is needed as well: the bundle exported
    from [unstarted_store] fails the structure check of import, which then
    stores nothing. *)
Example export_of_unstarted_activity_is_rejected :
  exists bundle,
    ExportImport.exportAllActivities "now" unstarted_store = Db.Ok bundle /\
    ExportImport.validateImportedData bundle = false.
Proof. eexists. split; reflexivity. Qed.

(* ================================================================== *)
(** * Part IV. Further properties of the code                           *)
(* ================================================================== *)

(** ** Distances and paths (utils/distance.ts) *)

Lemma Math_atan2_range (y x : number) :
  0 <= y -> 0 <= x -> 0 <= Distance.Math_atan2 y x <= PI / 2.
Proof.
  intros Hy Hx. unfold Distance.Math_atan2. pose proof PI_RGT_0 as Hpi.
  destruct (Rlt_dec 0 x) as [Hpos | Hnpos].
  - assert (Hq : 0 <= y / x).
    { unfold Rdiv. apply Rmult_le_pos; [exact Hy |].
      left. apply Rinv_0_lt_compat. exact Hpos. }
    pose proof (atan_bound (y / x)) as [_ Hup]. split; [| lra].
    destruct Hq as [Hq | <-]; [| rewrite atan_0; lra].
    pose proof (atan_increasing 0 (y / x) Hq) as Hinc.
    rewrite atan_0 in Hinc. lra.
  - destruct (Rlt_dec x 0); [lra |].
    destruct (Rlt_dec 0 y); [lra |].
    destruct (Rlt_dec y 0); lra.
Qed.

Lemma calculateDistance_nonneg (lat1 lon1 lat2 lon2 : number) :
  0 <= Distance.calculateDistance lat1 lon1 lat2 lon2.
Proof.
  unfold Distance.calculateDistance. cbv zeta.
  match goal with
  | |- context [Distance.Math_atan2 ?y ?x] =>
      pose proof (Math_atan2_range y x (sqrt_pos _) (sqrt_pos _)) as [Hlo _]
  end.
  nra.
Qed.

Lemma total_loop_legs {P : Type} `{Distance.Located P} (rest : list P) :
  forall prev total,
    Distance.total_loop prev rest total = total + sum (legs (prev :: rest)).
Proof.
  induction rest as [| q rest IH]; intros prev total.
  - simpl. unfold sum. simpl. lra.
  - simpl Distance.total_loop. rewrite IH.
    change (legs (prev :: q :: rest))
      with (Distance.calculateDistance (Distance.latitude prev)
              (Distance.longitude prev) (Distance.latitude q)
              (Distance.longitude q) :: legs (q :: rest)).
    unfold sum. simpl. lra.
Qed.

Lemma calculateTotalDistance_legs {P : Type} `{Distance.Located P}
    (points : list P) :
  Distance.calculateTotalDistance points = sum (legs points).
Proof.
  unfold Distance.calculateTotalDistance.
  destruct points as [| p [| q rest]]; try reflexivity.
  change (List.length (p :: q :: rest) <? 2)%nat with false. cbv iota.
  rewrite total_loop_legs. lra.
Qed.

Lemma sum_app (xs ys : list number) : sum (xs ++ ys) = sum xs + sum ys.
Proof.
  unfold sum. induction xs as [| x xs IH]; simpl; [lra |]. rewrite IH. lra.
Qed.

Lemma sum_singleton (x : number) : sum [x] = x.
Proof. unfold sum. simpl. lra. Qed.

Lemma sum_nonneg (xs : list number) :
  Forall (fun x => 0 <= x) xs -> 0 <= sum xs.
Proof.
  unfold sum. induction 1 as [| x xs Hx _ IH]; simpl; lra.
Qed.

Lemma legs_snoc {P : Type} `{Distance.Located P} (points : list P) (p q : P) :
  legs (points ++ [p] ++ [q])
  = legs (points ++ [p])
    ++ [Distance.calculateDistance (Distance.latitude p)
          (Distance.longitude p) (Distance.latitude q) (Distance.longitude q)].
Proof.
  induction points as [| a points IH]; [reflexivity |].
  destruct points as [| b points].
  - reflexivity.
  - change (legs ((a :: b :: points) ++ [p] ++ [q]))
      with (Distance.calculateDistance (Distance.latitude a)
              (Distance.longitude a) (Distance.latitude b)
              (Distance.longitude b)
            :: legs ((b :: points) ++ [p] ++ [q])).
    rewrite IH. reflexivity.
Qed.

Lemma legs_nonneg {P : Type} `{Distance.Located P} (points : list P) :
  Forall (fun x => 0 <= x) (legs points).
Proof.
  induction points as [| p [| q rest] IH]; try constructor.
  - apply calculateDistance_nonneg.
  - exact IH.
Qed.

(** X2.  The total distance of a path is the sum of its legs: it is 0 for
    fewer than two points, a further point adds the distance from the last
    point to it, and so the total never decreases as points arrive. *)
Theorem X2_total_distance_grows_by_legs
    {P : Type} `{Distance.Located P} :
  (forall points : list P,
     (List.length points < 2)%nat ->
     Distance.calculateTotalDistance points = 0) /\
  (forall (points : list P) p q,
     Distance.calculateTotalDistance (points ++ [p] ++ [q])
     = Distance.calculateTotalDistance (points ++ [p])
       + Distance.calculateDistance
           (Distance.latitude p) (Distance.longitude p)
           (Distance.latitude q) (Distance.longitude q)) /\
  (forall (points : list P) q,
     Distance.calculateTotalDistance points
     <= Distance.calculateTotalDistance (points ++ [q])).
Proof.
  split; [| split].
  - intros points Hlen. unfold Distance.calculateTotalDistance.
    apply Nat.ltb_lt in Hlen. rewrite Hlen. reflexivity.
  - intros points p q. rewrite !calculateTotalDistance_legs.
    rewrite legs_snoc, sum_app, sum_singleton. reflexivity.
  - intros points q. destruct points as [| a points].
    + rewrite !calculateTotalDistance_legs. simpl. unfold sum. simpl. lra.
    + destruct (@exists_last _ (a :: points)) as (front & p & Heq);
        [discriminate |].
      rewrite Heq, <- app_assoc, !calculateTotalDistance_legs.
      rewrite legs_snoc, sum_app, sum_singleton.
      match goal with
      | |- _ <= _ + ?leg =>
          assert (0 <= leg) by apply calculateDistance_nonneg
      end.
      lra.
Qed.

(** X4.  A path whose points all have the same coordinates has total
    distance 0, however many points it has. *)
Theorem X4_total_distance_of_stationary_path
    {P : Type} `{Distance.Located P} (points : list P) (lat lon : number) :
  Forall (fun p => Distance.latitude p = lat /\ Distance.longitude p = lon)
    points ->
  Distance.calculateTotalDistance points = 0.
Proof.
  intros Hsame. rewrite calculateTotalDistance_legs.
  induction Hsame as [| p points [Hlat Hlon] Hrest IH]; [reflexivity |].
  destruct points as [| q points]; [reflexivity |].
  assert (Hq : Distance.latitude q = lat /\ Distance.longitude q = lon)
    by (inversion Hrest; assumption).
  destruct Hq as [Hlatq Hlonq].
  change (legs (p :: q :: points))
    with (Distance.calculateDistance (Distance.latitude p)
            (Distance.longitude p) (Distance.latitude q)
            (Distance.longitude q) :: legs (q :: points)).
  rewrite Hlat, Hlon, Hlatq, Hlonq, calculateDistance_same.
  change (sum (0 :: legs (q :: points))) with (0 + sum (legs (q :: points))).
  rewrite IH. lra.
Qed.

Lemma X4_total_distance_of_stationary_path_witness :
  Distance.calculateTotalDistance
    [at_elevation None; at_elevation (Some 3); at_elevation (Some 8)] = 0.
Proof.
  apply (X4_total_distance_of_stationary_path _ 60 25).
  repeat constructor.
Defined.

(** ** Elevation (utils/distance.ts) *)

Lemma sum_cons (x : number) (xs : list number) : sum (x :: xs) = x + sum xs.
Proof. reflexivity. Qed.

Lemma gain_loss_nonneg (ds : list number) :
  0 <= sum (filter positive ds) /\ 0 <= sum (map Rabs (filter negative ds)).
Proof.
  induction ds as [| x ds [IHg IHl]]; [unfold sum; simpl; lra |].
  simpl filter. unfold positive at 1, negative at 1.
  pose proof (Rabs_pos x).
  destruct (Rlt_dec 0 x); destruct (Rlt_dec x 0);
    simpl map; rewrite ?sum_cons; split; lra.
Qed.

Lemma ascending_diffs (es : list number) :
  ascending es -> forall d, In d (consecutive_diffs es) -> 0 <= d.
Proof.
  induction es as [| a [| b es] IH]; intros Hup d Hd; try contradiction.
  destruct Hup as [Hab Hrest].
  change (consecutive_diffs (a :: b :: es))
    with ((b - a) :: consecutive_diffs (b :: es)) in Hd.
  destruct Hd as [<- | Hd]; [lra | exact (IH Hrest d Hd)].
Qed.

Lemma descending_diffs (es : list number) :
  descending es -> forall d, In d (consecutive_diffs es) -> d <= 0.
Proof.
  induction es as [| a [| b es] IH]; intros Hdown d Hd; try contradiction.
  destruct Hdown as [Hab Hrest].
  change (consecutive_diffs (a :: b :: es))
    with ((b - a) :: consecutive_diffs (b :: es)) in Hd.
  destruct Hd as [<- | Hd]; [lra | exact (IH Hrest d Hd)].
Qed.

(** X5.  Gain and loss are never negative.  A route whose elevation
    readings, the nulls left out, never go down has loss 0; a route whose
    readings never go up has gain 0. *)
Theorem X5_gain_and_loss_signs {P : Type} `{Distance.Elevated P}
    (points : list P) :
  0 <= Distance.gain (Distance.calculateElevation points) /\
  0 <= Distance.loss (Distance.calculateElevation points) /\
  (ascending (Distance.non_null (map Distance.elevation_meters points)) ->
   Distance.loss (Distance.calculateElevation points) = 0) /\
  (descending (Distance.non_null (map Distance.elevation_meters points)) ->
   Distance.gain (Distance.calculateElevation points) = 0).
Proof.
  rewrite calculateElevation_spec. cbn [Distance.gain Distance.loss].
  unfold gain_of, loss_of.
  destruct (gain_loss_nonneg
              (consecutive_diffs
                 (Distance.non_null (map Distance.elevation_meters points))))
    as [Hg Hl].
  split; [exact Hg |]. split; [exact Hl |]. split.
  - intros Hup. rewrite filter_none; [reflexivity |].
    intros d Hd. apply negative_false. exact (ascending_diffs _ Hup d Hd).
  - intros Hdown. rewrite filter_none; [reflexivity |].
    intros d Hd. apply positive_false. exact (descending_diffs _ Hdown d Hd).
Qed.

(** ** The bounding box of a path *)

Lemma Math_min_is_minimum (xs : list number) :
  forall x, is_minimum (Js.Math_min x xs) (x :: xs).
Proof.
  unfold Js.Math_min, is_minimum.
  induction xs as [| y ys IH]; intros x.
  - simpl. split; [left; reflexivity |].
    intros z [<- | []]. lra.
  - simpl fold_left. destruct (IH (Rmin x y)) as [Hin Hle]. split.
    + destruct Hin as [Heq | Hin].
      * rewrite <- Heq. unfold Rmin; destruct (Rle_dec x y);
          [left; reflexivity | right; left; reflexivity].
      * right; right; exact Hin.
    + intros z [<- | [<- | Hz]].
      * apply Rle_trans with (Rmin x y); [| apply Rmin_l].
        apply Hle. left; reflexivity.
      * apply Rle_trans with (Rmin x y); [| apply Rmin_r].
        apply Hle. left; reflexivity.
      * apply Hle. right; exact Hz.
Qed.

(** X7.  The bounding box is missing exactly for the empty path; otherwise its
    corners are the least and the greatest latitude and longitude that occur
    among the points, so every point lies inside the box and no smaller box
    holds them all. *)
Theorem X7_bounds_are_the_tightest_box {P : Type} `{Distance.Located P}
    (points : list P) :
  match Distance.calculateBounds points with
  | None => points = []
  | Some ((south, west), (north, east)) =>
      points <> [] /\
      is_minimum south (map Distance.latitude points) /\
      is_minimum west (map Distance.longitude points) /\
      is_maximum north (map Distance.latitude points) /\
      is_maximum east (map Distance.longitude points) /\
      forall p, In p points ->
        inside ((south, west), (north, east))
          (Distance.latitude p) (Distance.longitude p)
  end.
Proof.
  destruct points as [| p points]; [reflexivity |].
  unfold Distance.calculateBounds. cbn [List.length Nat.eqb map].
  pose proof (Math_min_is_minimum (map Distance.latitude points)
                (Distance.latitude p)) as Hs.
  pose proof (Math_min_is_minimum (map Distance.longitude points)
                (Distance.longitude p)) as Hw.
  pose proof (Math_max_is_maximum (map Distance.latitude points)
                (Distance.latitude p)) as Hn.
  pose proof (Math_max_is_maximum (map Distance.longitude points)
                (Distance.longitude p)) as He.
  split; [discriminate |].
  split; [exact Hs |]. split; [exact Hw |].
  split; [exact Hn |]. split; [exact He |].
  intros q Hq. unfold inside. cbn [fst snd].
  pose proof (in_map Distance.latitude _ _ Hq) as Hlat.
  pose proof (in_map Distance.longitude _ _ Hq) as Hlng.
  repeat split;
    [ apply (proj2 Hs) | apply (proj2 Hn) | apply (proj2 Hw)
    | apply (proj2 He) ]; assumption.
Qed.

(** ** The accounting of an import *)

Lemma activities_add_spec (row : Json.JsValue) (d d' : Db.Database) :
  Db.activities_add row d = Db.Ok d' ->
  exists r,
    row = Some r /\
    Db.activities d' = Db.activities d ++ [r] /\
    Db.gpsPoints d' = Db.gpsPoints d.
Proof.
  unfold Db.activities_add. destruct row as [r |]; [| discriminate].
  destruct (Json.prop (Some r) "id") as [k |]; [| discriminate].
  destruct (negb (Db.valid_key k)); [discriminate |].
  destruct (existsb _ _); [discriminate |].
  intros [= <-]. exists r. repeat split; reflexivity.
Qed.

Lemma try_import_appends (item : Json.JSON) (d d' : Db.Database) :
  ExportImport.try_import item d = Db.Ok (Some d') ->
  exists activity rows,
    Db.activities d' = Db.activities d ++ [activity] /\
    Db.gpsPoints d' = Db.gpsPoints d ++ rows.
Proof.
  unfold ExportImport.try_import, Db.transaction.
  destruct (Db.table_get _ _) as [existing | e]; [| discriminate].
  cbn [Db.bind]. destruct (Json.truthy existing); [discriminate |].
  destruct (Db.activities_add _ d) as [d1 | e] eqn:Hadd; [| discriminate].
  apply activities_add_spec in Hadd as (a & _ & Hacts & Hpts).
  cbn [Db.bind].
  destruct (Json.prop (Some item) "gpsPoints") as [[| | | | points |] |];
    try discriminate.
  destruct (Json.prop _ "id") as [activityId |]; [| discriminate].
  destruct (0 <? List.length points)%nat.
  - destruct (Db.gpsPoints_bulkAdd _ d1) as [d2 | e] eqn:Hbulk;
      [| discriminate].
    cbn [Db.bind]. intros [= <-].
    apply gpsPoints_bulkAdd_spec in Hbulk as (Hacts2 & stored & Hpts2 & _).
    exists a, stored. rewrite Hacts2, Hpts2, Hacts, Hpts. split; reflexivity.
  - cbn [Db.bind]. intros [= <-]. exists a, [].
    rewrite Hacts, Hpts, app_nil_r. split; reflexivity.
Qed.

Section ImportAccounting.
Variable JSON_parse : string -> option Json.JSON.
Variable ToString : Json.JsValue -> string.
Variable describe : Db.Thrown -> string.

Let import_item := ExportImport.import_item ToString describe.
Let importActivities := ExportImport.importActivities JSON_parse ToString describe.

Lemma import_item_accounting (item : Json.JSON)
    (r : ExportImport.ImportResult) (d : Db.Database) :
  let r' := fst (import_item (r, d) item) in
  let d' := snd (import_item (r, d) item) in
  (ExportImport.imported r' + ExportImport.skipped r'
   + List.length (ExportImport.errors r')
   = S (ExportImport.imported r + ExportImport.skipped r
        + List.length (ExportImport.errors r)))%nat /\
  ((ExportImport.imported r' = ExportImport.imported r /\ d' = d) \/
   (ExportImport.imported r' = S (ExportImport.imported r) /\
    exists activity rows,
      Db.activities d' = Db.activities d ++ [activity] /\
      Db.gpsPoints d' = Db.gpsPoints d ++ rows)).
Proof.
  unfold import_item, ExportImport.import_item.
  destruct (ExportImport.try_import item d) as [[d1 |] | e] eqn:Htry;
    cbn [fst snd ExportImport.imported ExportImport.skipped
         ExportImport.errors].
  - split; [lia |]. right. split; [reflexivity |].
    apply try_import_appends in Htry. exact Htry.
  - split; [lia |]. left. split; reflexivity.
  - split; [rewrite length_app; simpl; lia |]. left. split; reflexivity.
Qed.

Lemma import_loop_accounting (items : list Json.JSON) :
  forall r d,
    let r' := fst (fold_left import_item items (r, d)) in
    let d' := snd (fold_left import_item items (r, d)) in
    (ExportImport.imported r' + ExportImport.skipped r'
     + List.length (ExportImport.errors r')
     = ExportImport.imported r + ExportImport.skipped r
       + List.length (ExportImport.errors r) + List.length items)%nat /\
    (exists activities rows,
       Db.activities d' = Db.activities d ++ activities /\
       Db.gpsPoints d' = Db.gpsPoints d ++ rows /\
       ExportImport.imported r'
       = (ExportImport.imported r + List.length activities)%nat) /\
    (ExportImport.imported r' = ExportImport.imported r -> d' = d).
Proof.
  induction items as [| item items IH]; intros r d.
  - cbn [fold_left fst snd List.length]. split; [lia |]. split.
    + exists [], []. rewrite !app_nil_r. cbn [List.length].
      repeat split; lia.
    + reflexivity.
  - change (fold_left import_item (item :: items) (r, d))
      with (fold_left import_item items (import_item (r, d) item)).
    pose proof (import_item_accounting item r d) as [Hcount Hstore].
    destruct (import_item (r, d) item) as [r1 d1]. cbn [fst snd] in *.
    specialize (IH r1 d1).
    destruct (fold_left import_item items (r1, d1)) as [r2 d2].
    cbn [fst snd] in *.
    destruct IH as (Hcount2 & (acts & rows & Hacts & Hrows & Himp) & Hsame).
    split; [cbn [List.length]; lia |].
    destruct Hstore as [[Himp1 ->] | (Himp1 & a & rows1 & Hacts1 & Hrows1)].
    + split.
      * exists acts, rows. repeat split; [exact Hacts | exact Hrows | lia].
      * intros Heq. apply Hsame. lia.
    + split.
      * exists (a :: acts), (rows1 ++ rows).
        rewrite Hacts, Hrows, Hacts1, Hrows1, <- !app_assoc.
        cbn [List.length]. split; [reflexivity |].
        split; [reflexivity | lia].
      * intros Heq. exfalso. lia.
Qed.

(** X9.  An import only ever appends: the activities and the samples stored
    before are all still there, unchanged and in their order, and the number
    of activity rows added is the reported [imported]; a run that imported
    nothing left the store exactly as it was.  For a file that passes the
    structure check every item of the file is counted once, as imported, as
    skipped or by an error message. *)
Theorem X9_import_accounting (jsonData : string) (d : Db.Database) :
  let r := fst (importActivities jsonData d) in
  let d' := snd (importActivities jsonData d) in
  (exists activities rows,
     Db.activities d' = Db.activities d ++ activities /\
     Db.gpsPoints d' = Db.gpsPoints d ++ rows /\
     ExportImport.imported r = List.length activities) /\
  (ExportImport.imported r = 0%nat -> d' = d) /\
  (ExportImport.success r = false -> d' = d) /\
  (forall data,
     JSON_parse jsonData = Some data ->
     ExportImport.validateImportedData data = true ->
     (ExportImport.imported r + ExportImport.skipped r
      + List.length (ExportImport.errors r)
      = List.length (items_of data))%nat).
Proof.
  cbv zeta.
  destruct (JSON_parse jsonData) as [data |] eqn:Hparse.
  2: { unfold importActivities. rewrite (import_unparseable _ _ _ _ _ Hparse).
       cbn [fst snd invalid_json ExportImport.imported ExportImport.success].
       split; [exists [], []; rewrite !app_nil_r; repeat split |].
       split; [reflexivity |]. split; [reflexivity |]. discriminate. }
  destruct (ExportImport.validateImportedData data) eqn:Hvalid.
  2: { unfold importActivities.
       rewrite (import_rejected _ _ _ _ _ _ Hparse Hvalid).
       cbn [fst snd invalid_structure ExportImport.imported
            ExportImport.success].
       split; [exists [], []; rewrite !app_nil_r; repeat split |].
       split; [reflexivity |]. split; [reflexivity |].
       intros data' [= <-] Hv. congruence. }
  unfold importActivities.
  rewrite (import_accepted _ ToString describe _ _ _ Hparse Hvalid).
  cbv zeta. cbn [fst snd ExportImport.imported ExportImport.skipped
                 ExportImport.errors ExportImport.success].
  pose proof (import_loop_accounting (items_of data)
                {| ExportImport.success := false; ExportImport.imported := 0;
                   ExportImport.skipped := 0; ExportImport.errors := [] |} d)
    as (Hcount & (acts & rows & Hacts & Hrows & Himp) & Hsame).
  cbn [ExportImport.imported ExportImport.skipped ExportImport.errors
       List.length] in *.
  fold import_item.
  split; [exists acts, rows; repeat split; assumption |].
  split; [intros H0; apply Hsame; exact H0 |].
  split.
  - intros Hfail. apply Hsame. apply Bool.orb_false_iff in Hfail as [_ Hfail].
    apply Nat.ltb_ge in Hfail. lia.
  - intros data' [= <-] _. exact Hcount.
Qed.

End ImportAccounting.

(** ** What saving a recording writes *)

Lemma bulkAdd_recorded (points : list Db.GpsPoint) :
  forall d,
    Db.gpsPoints_bulkAdd (map Db.GpsPoint_object points) d
    = Db.Ok {| Db.activities := Db.activities d;
               Db.gpsPoints :=
                 Db.gpsPoints d
                 ++ stored_samples (Db.gpsPoints_generator d) points;
               Db.gpsPoints_generator :=
                 (Db.gpsPoints_generator d
                  + Z.of_nat (List.length points))%Z |}.
Proof.
  induction points as [| p points IH]; intros d.
  - cbn [map Db.gpsPoints_bulkAdd stored_samples List.length Z.of_nat].
    rewrite app_nil_r, Z.add_0_r. destruct d; reflexivity.
  - cbn [map Db.gpsPoints_bulkAdd].
    change (Db.gpsPoints_add (Db.GpsPoint_object p) d)
      with (Db.Ok {| Db.activities := Db.activities d;
                     Db.gpsPoints :=
                       Db.gpsPoints d ++ stored_samples
                                           (Db.gpsPoints_generator d) [p];
                     Db.gpsPoints_generator :=
                       (Db.gpsPoints_generator d + 1)%Z |}).
    cbn [Db.bind]. rewrite IH.
    cbn [Db.activities Db.gpsPoints Db.gpsPoints_generator stored_samples].
    rewrite <- app_assoc. cbn [app]. do 2 f_equal.
    change (List.length (p :: points)) with (S (List.length points)). lia.
Qed.

Lemma stored_samples_keyed (activityId : string) (points : list Db.GpsPoint) :
  Forall (fun p => Db.activity_id p = activityId) points ->
  forall next,
    Forall (fun row =>
              Json.prop (Some row) "activity_id"
              = Some (Json.JString activityId))
      (stored_samples next points) /\
    map ExportImport.cleaned (stored_samples next points)
    = map Db.GpsPoint_object points.
Proof.
  induction 1 as [| p points Hp _ IH]; intros next.
  - split; [constructor | reflexivity].
  - destruct (IH (next + 1)%Z) as [Hall Hclean].
    cbn [stored_samples map]. split.
    + constructor; [| exact Hall]. rewrite <- Hp. reflexivity.
    + rewrite Hclean. f_equal.
Qed.

Lemma handleSave_points (positions : list Geolocation.GpsPosition)
    (duration : number) (sportType : SportType) (title notes : string)
    (now activityId : string) (d : Db.Database) :
  let s := RecordActivity.handleSave positions duration sportType title notes
             now activityId d in
  Db.id (RecordActivity.activity s) = activityId /\
  List.length (RecordActivity.gpsPoints s) = List.length positions /\
  Forall (fun p => Db.activity_id p = activityId) (RecordActivity.gpsPoints s).
Proof.
  cbv zeta. unfold RecordActivity.handleSave.
  cbn [RecordActivity.activity RecordActivity.gpsPoints Db.id].
  split; [reflexivity |]. split; [apply length_map |].
  apply Forall_map. apply Forall_forall. intros p _. reflexivity.
Qed.

Lemma handleSave_written (positions : list Geolocation.GpsPosition)
    (duration : number) (sportType : SportType) (title notes : string)
    (now activityId : string) (d : Db.Database) :
  let s := RecordActivity.handleSave positions duration sportType title notes
             now activityId d in
  RecordActivity.written s
  = if existsb (Db.keyed "id" (Json.JString activityId)) (Db.activities d)
    then Db.Err Db.ConstraintError
    else Db.Ok (saved_store d s).
Proof.
  cbv zeta. unfold saved_store. unfold RecordActivity.handleSave.
  cbn [RecordActivity.activity RecordActivity.gpsPoints RecordActivity.written].
  unfold Db.transaction.
  match goal with
  | |- Db.bind (Db.activities_add (Some (Db.Activity_object ?a)) d) _ = _ =>
      set (activity := a)
  end.
  match goal with
  | |- context [map Db.GpsPoint_object ?ps] => set (points := ps)
  end.
  unfold Db.activities_add.
  change (Json.prop (Some (Db.Activity_object activity)) "id")
    with (Some (Json.JString activityId)).
  cbn [Db.valid_key negb].
  destruct (existsb _ _); [reflexivity |].
  cbn [Db.bind]. destruct (0 <? List.length points)%nat eqn:Hlen.
  - rewrite bulkAdd_recorded. reflexivity.
  - apply Nat.ltb_ge in Hlen. destruct points; [| simpl in Hlen; lia].
    cbn [stored_samples List.length Z.of_nat].
    rewrite app_nil_r, Z.add_0_r. reflexivity.
Qed.






(** ** Deleting an activity *)

Lemma key_eqb_string_l (s : string) (k : Json.JSON) :
  Db.key_eqb (Json.JString s) k = true -> k = Json.JString s.
Proof.
  destruct k; simpl; try discriminate.
  intros H. apply String.eqb_eq in H. congruence.
Qed.

Lemma keyed_other (path s : string) (k : Json.JSON) (row : Json.JSON) :
  k <> Json.JString s ->
  Db.keyed path k row = true ->
  Db.keyed path (Json.JString s) row = false.
Proof.
  unfold Db.keyed. intros Hk.
  destruct (Json.prop (Some row) path) as [k' |]; [| discriminate].
  intros Hrow. destruct (Db.key_eqb k' (Json.JString s)) eqn:Hs;
    [| reflexivity].
  apply key_eqb_string in Hs. subst k'.
  apply key_eqb_string_l in Hrow. contradiction.
Qed.

Lemma existsb_filter_other {A : Type} (p q : A -> bool) (l : list A) :
  (forall x, p x = true -> q x = false) ->
  existsb p (filter (fun x => negb (q x)) l) = existsb p l.
Proof.
  intros Hpq. induction l as [| x l IH]; [reflexivity |].
  simpl. destruct (q x) eqn:Hq; simpl.
  - destruct (p x) eqn:Hp; [| exact IH].
    rewrite (Hpq x Hp) in Hq. discriminate.
  - rewrite IH. reflexivity.
Qed.

Lemma filter_filter_other {A : Type} (p q : A -> bool) (l : list A) :
  (forall x, p x = true -> q x = false) ->
  filter p (filter (fun x => negb (q x)) l) = filter p l.
Proof.
  intros Hpq. induction l as [| x l IH]; [reflexivity |].
  simpl. destruct (q x) eqn:Hq; simpl.
  - destruct (p x) eqn:Hp; [| exact IH].
    rewrite (Hpq x Hp) in Hq. discriminate.
  - rewrite IH. reflexivity.
Qed.

Lemma existsb_filter_same {A : Type} (p : A -> bool) (l : list A) :
  existsb p (filter (fun x => negb (p x)) l) = false.
Proof.
  induction l as [| x l IH]; [reflexivity |].
  simpl. destruct (p x) eqn:Hp; simpl; [exact IH |].
  rewrite Hp. exact IH.
Qed.

Lemma filter_filter_same {A : Type} (p : A -> bool) (l : list A) :
  filter p (filter (fun x => negb (p x)) l) = [].
Proof.
  induction l as [| x l IH]; [reflexivity |].
  simpl. destruct (p x) eqn:Hp; simpl; [exact IH |].
  rewrite Hp. exact IH.
Qed.

Lemma filter_negb_none {A : Type} (p : A -> bool) (l : list A) :
  existsb p l = false -> filter (fun x => negb (p x)) l = l.
Proof.
  induction l as [| x l IH]; [reflexivity |].
  simpl. intros H. apply Bool.orb_false_iff in H as [Hx Hl].
  rewrite Hx. simpl. rewrite IH by exact Hl. reflexivity.
Qed.

Lemma kept_keys_distinct (keep : Json.JSON -> bool) (rows : list Json.JSON) :
  NoDup (map row_key rows) -> NoDup (map row_key (filter keep rows)).
Proof.
  induction rows as [| row rows IH]; simpl; intros Hkeys; [constructor |].
  apply NoDup_cons_iff in Hkeys as [Hfresh Hkeys].
  destruct (keep row); [| exact (IH Hkeys)].
  simpl. apply NoDup_cons; [| exact (IH Hkeys)].
  rewrite in_map_iff. intros (other & Hsame & Hother).
  apply Hfresh. rewrite in_map_iff. exists other.
  apply filter_In in Hother. tauto.
Qed.

Lemma deleteActivity_unfold (s : string) (d : Db.Database) :
  UseActivities.deleteActivity s d
  = Db.Ok {| Db.activities :=
               filter (fun row => negb (Db.keyed "id" (Json.JString s) row))
                 (Db.activities d);
             Db.gpsPoints :=
               filter (fun row =>
                         negb (Db.keyed "activity_id" (Json.JString s) row))
                 (Db.gpsPoints d);
             Db.gpsPoints_generator := Db.gpsPoints_generator d |}.
Proof. reflexivity. Qed.


(** X12.  Deleting an activity takes its samples with it and touches nothing
    else: afterwards no stored activity and no stored sample carries the
    identifier, every other activity and every sample of another activity is
    still stored, in the same order; a store in which every sample names a
    stored activity stays such a store, and so does a store with distinct,
    well-formed activity rows.  Deleting an identifier that is not stored
    changes nothing in such a store. *)
Theorem X12_delete_takes_the_samples_along (s : string) (d : Db.Database) :
  exists d',
    UseActivities.deleteActivity s d = Db.Ok d' /\
    ~ present (Json.JString s) d' /\
    filter (Db.keyed "activity_id" (Json.JString s)) (Db.gpsPoints d') = [] /\
    (forall k, k <> Json.JString s ->
       (present k d' <-> present k d) /\
       filter (Db.keyed "id" k) (Db.activities d')
       = filter (Db.keyed "id" k) (Db.activities d) /\
       filter (Db.keyed "activity_id" k) (Db.gpsPoints d')
       = filter (Db.keyed "activity_id" k) (Db.gpsPoints d)) /\
    (referential_integrity d -> referential_integrity d') /\
    (store_ok d -> store_ok d') /\
    (referential_integrity d -> ~ present (Json.JString s) d -> d' = d).
Proof.
  eexists. split; [apply deleteActivity_unfold |].
  unfold present. cbn [Db.activities Db.gpsPoints].
  split; [rewrite existsb_filter_same; discriminate |].
  split; [apply filter_filter_same |].
  split; [| split; [| split]].
  - intros k Hk.
    assert (Hother : forall path row,
               Db.keyed path k row = true ->
               Db.keyed path (Json.JString s) row = false)
      by (intros path row; apply keyed_other; exact Hk).
    rewrite existsb_filter_other by apply Hother.
    rewrite !filter_filter_other by apply Hother.
    repeat split; auto.
  - unfold referential_integrity. cbn [Db.gpsPoints]. intros Hint.
    apply Forall_forall. intros row Hrow.
    apply filter_In in Hrow as [Hin Hkept].
    rewrite Forall_forall in Hint. destruct (Hint row Hin) as (k & Hk & Hp).
    exists k. split; [exact Hk |]. unfold present in *.
    cbn [Db.activities].
    rewrite existsb_filter_other; [exact Hp |].
    intros a Ha. apply keyed_other with (k := k); [| exact Ha].
    intros ->. unfold Db.keyed in Hkept. rewrite Hk in Hkept.
    simpl in Hkept. rewrite String.eqb_refl in Hkept. discriminate.
  - unfold store_ok. cbn [Db.activities]. intros [Hrows Hnd]. split.
    + apply Forall_forall. intros a Ha. apply filter_In in Ha as [Ha _].
      rewrite Forall_forall in Hrows. apply Hrows. exact Ha.
    + apply kept_keys_distinct. exact Hnd.
  - intros Hint Habsent. apply Bool.not_true_is_false in Habsent.
    pose proof (no_samples_without_activity d s Hint) as Hnone.
    unfold present, samples_of in Hnone.
    rewrite Habsent in Hnone. specialize (Hnone ltac:(discriminate)).
    apply map_eq_nil in Hnone.
    rewrite (filter_negb_none _ _ Habsent).
    rewrite (filter_negb_none (Db.keyed "activity_id" (Json.JString s))).
    + destruct d; reflexivity.
    + destruct (existsb _ (Db.gpsPoints d)) eqn:Hex; [| reflexivity].
      apply existsb_exists in Hex as (row & Hin & Hrow).
      assert (Hin' : In row (filter (Db.keyed "activity_id" (Json.JString s))
                               (Db.gpsPoints d)))
        by (apply filter_In; split; assumption).
      rewrite Hnone in Hin'. destruct Hin'.
Qed.



(** ** Editing an activity *)

Lemma edited_keeps (page : ActivityDetail.Page) (row : Json.JSON)
    (key : string) :
  key <> "title" -> key <> "notes" ->
  Json.prop (Some (edited page row)) key = Json.lookup (Json.spread row) key.
Proof.
  intros Ht Hn. unfold edited. cbn [Json.prop].
  rewrite !lookup_set_prop_other by assumption. reflexivity.
Qed.

Lemma edited_keyed (page : ActivityDetail.Page) (s : string) (k : Json.JSON)
    (row : Json.JSON) :
  Db.keyed "id" (Json.JString s) row = true ->
  Db.keyed "id" k (edited page row) = Db.keyed "id" k row.
Proof.
  intros Hrow. apply keyed_string in Hrow as (props & -> & _).
  unfold Db.keyed. rewrite edited_keeps by discriminate. reflexivity.
Qed.

Lemma find_map_same {A : Type} (p : A -> bool) (f : A -> A) (l : list A) :
  (forall x, p (f x) = p x) ->
  find p (map f l) = option_map f (find p l).
Proof.
  intros Hp. induction l as [| x l IH]; [reflexivity |].
  simpl. rewrite Hp. destruct (p x); [reflexivity | exact IH].
Qed.

Lemma filter_map_fixed {A : Type} (p q : A -> bool) (f : A -> A) (l : list A) :
  (forall x, q x = true -> p (f x) = p x) ->
  (forall x, p x = true -> q x = false) ->
  filter p (map (fun x => if q x then f x else x) l) = filter p l.
Proof.
  intros Hp Hpq. induction l as [| x l IH]; [reflexivity |].
  simpl. destruct (q x) eqn:Hq.
  - rewrite (Hp x Hq). destruct (p x) eqn:Hpx; [| exact IH].
    rewrite (Hpq x Hpx) in Hq. discriminate.
  - rewrite IH. reflexivity.
Qed.

Lemma existsb_map_same {A : Type} (p : A -> bool) (f : A -> A) (l : list A) :
  (forall x, p (f x) = p x) -> existsb p (map f l) = existsb p l.
Proof.
  intros Hp. induction l as [| x l IH]; [reflexivity |].
  simpl. rewrite Hp, IH. reflexivity.
Qed.

(** X14.  Saving the edit form of the detail page rewrites the title and
    the notes of the shown activity and nothing else: every other property
    of its row, every other activity and all samples stay as they are, no
    identifier appears or disappears, empty notes are stored as null, and
    the activity that the page shows afterwards is the row that is stored. *)
Theorem X14_edit_changes_title_and_notes (page : ActivityDetail.Page)
    (s : string) (d : Db.Database) :
  ActivityDetail.id page = Some s ->
  s <> "" ->
  Db.table_get (Some (Json.JString s)) (Db.activities d)
  = Db.Ok (ActivityDetail.activity page) ->
  Json.truthy (ActivityDetail.activity page) = true ->
  exists page' d',
    ActivityDetail.handleSaveEdit page d = Db.Ok (page', d') /\
    Db.table_get (Some (Json.JString s)) (Db.activities d')
    = Db.Ok (ActivityDetail.activity page') /\
    Json.prop (ActivityDetail.activity page') "title"
    = Some (Json.JString (ActivityDetail.editTitle page)) /\
    Json.prop (ActivityDetail.activity page') "notes"
    = Some (if ActivityDetail.editNotes page =? ""
            then Json.JNull
            else Json.JString (ActivityDetail.editNotes page)) /\
    (forall key, key <> "title" -> key <> "notes" ->
       Json.prop (ActivityDetail.activity page') key
       = Json.prop (ActivityDetail.activity page) key) /\
    ActivityDetail.isEditing page' = false /\
    Db.gpsPoints d' = Db.gpsPoints d /\
    (forall k, k <> Json.JString s ->
       filter (Db.keyed "id" k) (Db.activities d')
       = filter (Db.keyed "id" k) (Db.activities d)) /\
    (forall k, present k d' <-> present k d).
Proof.
  intros Hid Hs Hload Htruthy.
  unfold Db.table_get in Hload. cbn [Db.valid_key] in Hload.
  injection Hload as Hload.
  destruct (ActivityDetail.activity page) as [a |] eqn:Hact;
    [| discriminate].
  pose proof (find_some _ _ Hload) as [_ Ha].
  set (upd := fun row : Json.JSON =>
                if Db.keyed "id" (Json.JString s) row
                then edited page row else row).
  assert (Hkey : forall k row, Db.keyed "id" k (upd row) = Db.keyed "id" k row).
  { intros k row. unfold upd.
    destruct (Db.keyed "id" (Json.JString s) row) eqn:Hrow; [| reflexivity].
    apply (edited_keyed page s). exact Hrow. }
  exists {| ActivityDetail.id := ActivityDetail.id page;
            ActivityDetail.activity := Some (edited page a);
            ActivityDetail.editTitle := ActivityDetail.editTitle page;
            ActivityDetail.editNotes := ActivityDetail.editNotes page;
            ActivityDetail.isEditing := false |}.
  exists {| Db.activities := map upd (Db.activities d);
            Db.gpsPoints := Db.gpsPoints d;
            Db.gpsPoints_generator := Db.gpsPoints_generator d |}.
  cbn [ActivityDetail.activity ActivityDetail.isEditing Db.activities
       Db.gpsPoints].
  split.
  { unfold ActivityDetail.handleSaveEdit.
    rewrite Hid, Hact, Htruthy. unfold ActivityDetail.no_id.
    apply String.eqb_neq in Hs. rewrite Hs. reflexivity. }
  split.
  { unfold Db.table_get. cbn [Db.valid_key].
    rewrite (find_map_same _ upd _ (Hkey (Json.JString s))), Hload.
    cbn [option_map]. unfold upd. rewrite Ha. reflexivity. }
  apply keyed_string in Ha as (props & -> & Hprops).
  split.
  { unfold edited. cbn [Json.prop].
    rewrite lookup_set_prop_other by discriminate.
    apply lookup_set_prop_same. }
  split.
  { unfold edited. cbn [Json.prop]. apply lookup_set_prop_same. }
  split.
  { intros key Ht Hn. apply edited_keeps; assumption. }
  split; [reflexivity |]. split; [reflexivity |]. split.
  - intros k Hk.
    apply (filter_map_fixed (Db.keyed "id" k)
             (Db.keyed "id" (Json.JString s)) (edited page)).
    + intros row. apply edited_keyed.
    + intros row. apply keyed_other. exact Hk.
  - intros k. unfold present. cbn [Db.activities].
    rewrite (existsb_map_same _ upd _ (Hkey k)). reflexivity.
Qed.

Lemma X14_edit_changes_title_and_notes_witness :
  exists page' d',
    ActivityDetail.handleSaveEdit walk_page walk_store = Db.Ok (page', d') /\
    Db.table_get (Some (Json.JString "w1")) (Db.activities d')
    = Db.Ok (ActivityDetail.activity page') /\
    Json.prop (ActivityDetail.activity page') "title"
    = Some (Json.JString "Evening walk") /\
    Json.prop (ActivityDetail.activity page') "notes" = Some Json.JNull /\
    (forall key, key <> "title" -> key <> "notes" ->
       Json.prop (ActivityDetail.activity page') key
       = Json.prop (ActivityDetail.activity walk_page) key) /\
    ActivityDetail.isEditing page' = false /\
    Db.gpsPoints d' = Db.gpsPoints walk_store /\
    (forall k, k <> Json.JString "w1" ->
       filter (Db.keyed "id" k) (Db.activities d')
       = filter (Db.keyed "id" k) (Db.activities walk_store)) /\
    (forall k, present k d' <-> present k walk_store).
Proof.
  apply (X14_edit_changes_title_and_notes walk_page "w1" walk_store).
  - reflexivity.
  - discriminate.
  - reflexivity.
  - reflexivity.
Defined.

(** ** The calorie figure *)

Lemma Math_round_le (x y : number) :
  x <= y -> Js.Math_round x <= Js.Math_round y.
Proof.
  intros Hxy. unfold Js.Math_round. apply IZR_le, Zfloor_le. lra.
Qed.

Lemma estimate_formula (sport : string) (d t w : number) :
  ~ In sport Calories.Object_prototype ->
  Calories.estimateCaloriesWithDistance sport d t (Some w)
  = Js.Finite
      (Js.Math_round
         (if (sport =? "running")%string then w * (d / 1000) * 1.0
          else if (sport =? "walking")%string then w * (d / 1000) * 0.5
          else MET_of sport * w * (t / 3600))).
Proof.
  intros Hown.
  destruct (String.eqb_spec sport "running") as [-> | Hr];
    [apply estimate_running |].
  destruct (String.eqb_spec sport "walking") as [-> | Hw];
    [apply estimate_walking |].
  apply estimate_other_sport; assumption.
Qed.

(** X15.  For a sport string that names no property inherited from
    [Object.prototype] (so for the six sports of the table and for every
    string that falls back to the default MET) the calorie estimate is a
    whole number, and it never goes down when the activity gets longer: for
    a non-negative weight, more distance and more time give at least as many
    calories, and so does more weight on non-negative distance and time.
    The walking estimate never exceeds the running estimate for the same
    distance. *)
Theorem X15_calorie_estimate_is_monotone :
  (forall sport d t w,
     ~ In sport Calories.Object_prototype ->
     exists z,
       Calories.estimateCaloriesWithDistance sport d t w = Js.Finite (IZR z)) /\
  (forall sport d1 d2 t1 t2 w,
     ~ In sport Calories.Object_prototype ->
     0 <= w -> d1 <= d2 -> t1 <= t2 ->
     exists kcal1 kcal2,
       Calories.estimateCaloriesWithDistance sport d1 t1 (Some w)
       = Js.Finite kcal1 /\
       Calories.estimateCaloriesWithDistance sport d2 t2 (Some w)
       = Js.Finite kcal2 /\
       kcal1 <= kcal2) /\
  (forall sport d t w1 w2,
     ~ In sport Calories.Object_prototype ->
     0 <= d -> 0 <= t -> w1 <= w2 ->
     exists kcal1 kcal2,
       Calories.estimateCaloriesWithDistance sport d t (Some w1)
       = Js.Finite kcal1 /\
       Calories.estimateCaloriesWithDistance sport d t (Some w2)
       = Js.Finite kcal2 /\
       kcal1 <= kcal2) /\
  (forall d t w,
     0 <= d -> 0 <= w ->
     exists walking running,
       Calories.estimateCaloriesWithDistance "walking" d t (Some w)
       = Js.Finite walking /\
       Calories.estimateCaloriesWithDistance "running" d t (Some w)
       = Js.Finite running /\
       walking <= running).
Proof.
  split; [| split; [| split]].
  - intros sport d t w Hown.
    assert (Hw : Calories.estimateCaloriesWithDistance sport d t w
                 = Calories.estimateCaloriesWithDistance sport d t
                     (Some (Js.default_arg 70 w)))
      by (destruct w; reflexivity).
    rewrite Hw, (estimate_formula _ _ _ _ Hown). unfold Js.Math_round.
    eexists. reflexivity.
  - intros sport d1 d2 t1 t2 w Hown Hw Hd Ht.
    do 2 eexists. split; [apply (estimate_formula _ _ _ _ Hown) |].
    split; [apply (estimate_formula _ _ _ _ Hown) |].
    apply Math_round_le. pose proof (MET_of_nonneg sport) as Hmet.
    destruct (sport =? "running")%string; [nra |].
    destruct (sport =? "walking")%string; [nra |].
    assert (0 <= MET_of sport * w) by nra. nra.
  - intros sport d t w1 w2 Hown Hd Ht Hw.
    do 2 eexists. split; [apply (estimate_formula _ _ _ _ Hown) |].
    split; [apply (estimate_formula _ _ _ _ Hown) |].
    apply Math_round_le. pose proof (MET_of_nonneg sport) as Hmet.
    destruct (sport =? "running")%string; [nra |].
    destruct (sport =? "walking")%string; [nra |].
    assert (0 <= MET_of sport * (t / 3600)) by nra. nra.
  - intros d t w Hd Hw.
    do 2 eexists. split; [apply estimate_walking |].
    split; [apply estimate_running |].
    apply Math_round_le. nra.
Qed.

Lemma or_Num_same (v : Js.Num) : Js.or_Num (Some v) v = v.
Proof.
  destruct v as [x |]; [| reflexivity].
  unfold Js.or_Num. destruct (Req_dec_T x 0); reflexivity.
Qed.

(** X16.  The calories cell of the detail page shows the stored figure
    unless that is missing, zero or [NaN], and then the estimate for the
    stored sport, distance and duration at the default weight.  For a
    recording that was saved by the recording page the two agree: the cell
    always shows the figure computed at the save. *)
Theorem X16_calories_cell :
  (forall a c,
     Db.calories a = Some (Js.Finite c) -> c <> 0 ->
     ActivityDetail.calories_cell a = Js.Finite c) /\
  (forall a,
     Db.calories a = None \/ Db.calories a = Some (Js.Finite 0) \/
     Db.calories a = Some Js.NaN ->
     ActivityDetail.calories_cell a
     = Calories.estimateCaloriesWithDistance (Db.sport_type a)
         (Db.distance_meters a) (Db.duration_seconds a) (Some 70)) /\
  (forall positions duration sportType title notes now activityId d,
     let saved :=
       RecordActivity.activity
         (RecordActivity.handleSave positions duration sportType title notes
            now activityId d) in
     Db.calories saved = Some (ActivityDetail.calories_cell saved) /\
     ActivityDetail.calories_cell saved
     = Calories.estimateCaloriesWithDistance sportType
         (Distance.calculateTotalDistance positions) duration (Some 70)).
Proof.
  split; [| split].
  - intros a c Hc Hnz. unfold ActivityDetail.calories_cell, Js.or_Num.
    rewrite Hc. destruct (Req_dec_T c 0); [contradiction | reflexivity].
  - intros a [Hc | [Hc | Hc]];
      unfold ActivityDetail.calories_cell, Js.or_Num;
      rewrite Hc; try reflexivity.
    destruct (Req_dec_T 0 0); [reflexivity | contradiction].
  - intros positions duration sportType title notes now activityId d saved.
    subst saved. unfold ActivityDetail.calories_cell, RecordActivity.handleSave.
    cbn [RecordActivity.activity Db.calories Db.sport_type Db.distance_meters
         Db.duration_seconds].
    rewrite or_Num_same. split; reflexivity.
Qed.

(** ** The timer (hooks/useTimer.ts) *)

Lemma Math_floor_bounds (x : number) :
  Js.Math_floor x <= x < Js.Math_floor x + 1.
Proof. unfold Js.Math_floor. apply Zfloor_bound. Qed.

Lemma Math_floor_le (x y : number) :
  x <= y -> Js.Math_floor x <= Js.Math_floor y.
Proof. intros Hxy. unfold Js.Math_floor. apply IZR_le, Zfloor_le, Hxy. Qed.

Lemma Math_floor_nonneg (x : number) : 0 <= x -> 0 <= Js.Math_floor x.
Proof.
  intros Hx. unfold Js.Math_floor. apply IZR_le.
  apply (Zfloor_lub 0). exact Hx.
Qed.

Lemma ticks_run (fires : list number) :
  forall s win id a,
    Timer.startTimeRef s = Some a ->
    Timer.intervals win = [id] ->
    fold_left Timer.step (map Timer.IntervalFires fires) (s, win)
    = ({| Timer.seconds :=
            fold_left
              (fun _ t => Timer.accumulatedRef s
                          + Js.Math_floor ((t - a) / 1000))
              fires (Timer.seconds s);
          Timer.isRunning := Timer.isRunning s;
          Timer.intervalRef := Timer.intervalRef s;
          Timer.startTimeRef := Timer.startTimeRef s;
          Timer.accumulatedRef := Timer.accumulatedRef s |}, win).
Proof.
  induction fires as [| t fires IH]; intros s win id a Hstart Hwin.
  - destruct s; reflexivity.
  - cbn [map fold_left].
    assert (Hstep :
      Timer.step (s, win) (Timer.IntervalFires t)
      = ({| Timer.seconds :=
              Timer.accumulatedRef s + Js.Math_floor ((t - a) / 1000);
            Timer.isRunning := Timer.isRunning s;
            Timer.intervalRef := Timer.intervalRef s;
            Timer.startTimeRef := Timer.startTimeRef s;
            Timer.accumulatedRef := Timer.accumulatedRef s |}, win)).
    { unfold Timer.step. cbn [snd fst]. rewrite Hwin.
      unfold Timer.tick. rewrite Hstart. reflexivity. }
    rewrite Hstep, (IH _ win id a) by (cbn; assumption).
    reflexivity.
Qed.

Lemma open_run (first : bool) (g : Stretch) (w : Timer.World) :
  at_rest w ->
  let accumulated := if first then 0 else Timer.accumulatedRef (fst w) in
  Timer.run w (open_events first g)
  = ({| Timer.seconds := reading accumulated (Timer.seconds (fst w)) g;
        Timer.isRunning := true;
        Timer.intervalRef := Some (Timer.nextIntervalId (snd w));
        Timer.startTimeRef := Some (from g);
        Timer.accumulatedRef := accumulated |},
     {| Timer.intervals := [Timer.nextIntervalId (snd w)];
        Timer.nextIntervalId := S (Timer.nextIntervalId (snd w)) |}).
Proof.
  destruct w as [s win]. intros (Hstart & Href & Hwin). cbn [fst snd] in *.
  cbv zeta. unfold open_events, Timer.run. cbn [fold_left].
  assert (Hstep :
    Timer.step (s, win)
      (if first then Timer.CallStart (from g) else Timer.CallResume (from g))
    = ({| Timer.seconds := Timer.seconds s; Timer.isRunning := true;
          Timer.intervalRef := Some (Timer.nextIntervalId win);
          Timer.startTimeRef := Some (from g);
          Timer.accumulatedRef :=
            if first then 0 else Timer.accumulatedRef s |},
       {| Timer.intervals := [Timer.nextIntervalId win];
          Timer.nextIntervalId := S (Timer.nextIntervalId win) |})).
  { destruct first; cbn [Timer.step Timer.start Timer.resume];
      rewrite Hwin; reflexivity. }
  rewrite Hstep.
  rewrite (ticks_run (ticks g) _ _ (Timer.nextIntervalId win) (from g))
    by reflexivity.
  reflexivity.
Qed.

Lemma stretch_run (first : bool) (g : Stretch) (w : Timer.World) :
  at_rest w ->
  let accumulated := if first then 0 else Timer.accumulatedRef (fst w) in
  let w' := Timer.run w (stretch_events first g) in
  at_rest w' /\
  Timer.accumulatedRef (fst w') = accumulated + whole_seconds g /\
  Timer.seconds (fst w') = reading accumulated (Timer.seconds (fst w)) g /\
  Timer.isRunning (fst w') = false.
Proof.
  intros Hrest. cbv zeta. unfold stretch_events, Timer.run.
  rewrite fold_left_app.
  change (fold_left Timer.step (open_events first g) w)
    with (Timer.run w (open_events first g)).
  rewrite (open_run first g w Hrest).
  cbn [fold_left Timer.step Timer.pause Timer.clearTimer Timer.startTimeRef
       Timer.intervalRef Timer.seconds Timer.accumulatedRef Timer.isRunning
       Timer.intervals Timer.nextIntervalId filter].
  rewrite Nat.eqb_refl. cbn [negb fst snd Timer.startTimeRef Timer.intervalRef
    Timer.seconds Timer.accumulatedRef Timer.isRunning Timer.intervals].
  unfold at_rest. cbn [fst snd Timer.startTimeRef Timer.intervalRef
    Timer.intervals].
  repeat split.
Qed.

Lemma session_run (gs : list Stretch) :
  forall w,
    at_rest w ->
    let w' := Timer.run w (session_events false gs) in
    at_rest w' /\
    Timer.accumulatedRef (fst w')
    = Timer.accumulatedRef (fst w) + sum (map whole_seconds gs).
Proof.
  induction gs as [| g gs IH]; intros w Hrest; cbv zeta.
  - cbn. split; [exact Hrest |]. unfold sum. simpl. lra.
  - cbn [session_events]. unfold Timer.run. rewrite fold_left_app.
    change (fold_left Timer.step (stretch_events false g) w)
      with (Timer.run w (stretch_events false g)).
    destruct (stretch_run false g w Hrest) as (Hrest1 & Hacc1 & _).
    cbv zeta in Hrest1, Hacc1.
    destruct (IH _ Hrest1) as (Hrest2 & Hacc2). cbv zeta in Hrest2, Hacc2.
    unfold Timer.run in Hrest2, Hacc2 at 1.
    split; [exact Hrest2 |]. rewrite Hacc2, Hacc1, map_cons, sum_cons. lra.
Qed.

Lemma mounted_at_rest : at_rest Timer.mounted.
Proof. repeat split. Qed.

Lemma session_from_mounted (gs : list Stretch) :
  let w := Timer.run Timer.mounted (session_events true gs) in
  at_rest w /\
  Timer.accumulatedRef (fst w) = sum (map whole_seconds gs).
Proof.
  cbv zeta. destruct gs as [| g gs].
  - split; [exact mounted_at_rest | reflexivity].
  - cbn [session_events]. unfold Timer.run. rewrite fold_left_app.
    change (fold_left Timer.step (stretch_events true g) Timer.mounted)
      with (Timer.run Timer.mounted (stretch_events true g)).
    destruct (stretch_run true g _ mounted_at_rest) as (Hrest1 & Hacc1 & _).
    cbv zeta in Hrest1, Hacc1.
    destruct (session_run gs _ Hrest1) as (Hrest2 & Hacc2).
    cbv zeta in Hrest2, Hacc2. unfold Timer.run in Hrest2, Hacc2 at 1.
    split; [exact Hrest2 |]. rewrite Hacc2, Hacc1, map_cons, sum_cons. lra.
Qed.

Lemma whole_seconds_bounds (gs : list Stretch) :
  sum (map milliseconds gs) / 1000 - INR (List.length gs)
  <= sum (map whole_seconds gs) <= sum (map milliseconds gs) / 1000.
Proof.
  induction gs as [| g gs IH].
  - unfold sum. simpl. lra.
  - change (List.length (g :: gs)) with (S (List.length gs)).
    rewrite S_INR, !map_cons, !sum_cons.
    pose proof (Math_floor_bounds ((to g - from g) / 1000)) as Hfl.
    change (whole_seconds g) with (Js.Math_floor ((to g - from g) / 1000)).
    change (milliseconds g) with (to g - from g). lra.
Qed.

(** X17.  The timer counts whole seconds per stretch of running.  When a
    recording is paused after each stretch, the time counted is the sum,
    over the stretches, of the whole seconds in the stretch; stopping during
    a further stretch returns that sum with the whole seconds of the open
    stretch added.  So the time counted never exceeds the time the timer
    ran, and falls short of it by at most one second per stretch. *)
Theorem X17_timer_counts_whole_seconds (gs : list Stretch) (g : Stretch) :
  let paused := Timer.run Timer.mounted (session_events true gs) in
  let running :=
    Timer.run paused
      (open_events (match gs with [] => true | _ => false end) g) in
  Timer.accumulatedRef (fst paused) = sum (map whole_seconds gs) /\
  snd (Timer.stop (to g) running) = sum (map whole_seconds (gs ++ [g])) /\
  sum (map milliseconds gs) / 1000 - INR (List.length gs)
  <= sum (map whole_seconds gs) <= sum (map milliseconds gs) / 1000.
Proof.
  cbv zeta. destruct (session_from_mounted gs) as (Hrest & Hacc).
  cbv zeta in Hrest, Hacc.
  split; [exact Hacc |]. split; [| apply whole_seconds_bounds].
  rewrite (open_run _ g _ Hrest). unfold Timer.stop.
  cbn [fst snd Timer.startTimeRef Timer.accumulatedRef Timer.clearTimer
       Timer.intervalRef].
  rewrite map_app, sum_app. cbn [map]. rewrite sum_singleton.
  unfold whole_seconds at 2.
  destruct gs as [| g0 gs]; [| rewrite Hacc; reflexivity].
  unfold sum. simpl. reflexivity.
Qed.

Lemma whole_seconds_nonneg (g : Stretch) : ordered g -> 0 <= whole_seconds g.
Proof.
  intros [Hle _]. apply Math_floor_nonneg.
  apply Rmult_le_pos; [lra |]. lra.
Qed.

Lemma reading_between (accumulated shown : number) (g : Stretch) :
  ordered g ->
  0 <= shown <= accumulated ->
  0 <= reading accumulated shown g <= accumulated + whole_seconds g.
Proof.
  intros [Hle Hticks] Hshown. unfold reading.
  assert (Hgen : forall fires s,
             Forall (fun t => from g <= t <= to g) fires ->
             0 <= s <= accumulated + whole_seconds g ->
             0 <= fold_left
                    (fun _ t => accumulated
                                + Js.Math_floor ((t - from g) / 1000))
                    fires s
               <= accumulated + whole_seconds g).
  { induction fires as [| t fires IH]; intros s Hall Hs; [exact Hs |].
    inversion Hall as [| t' fires' Ht Hrest]; subst.
    cbn [fold_left]. apply IH; [exact Hrest |].
    assert (0 <= Js.Math_floor ((t - from g) / 1000))
      by (apply Math_floor_nonneg; apply Rmult_le_pos; lra).
    assert (Js.Math_floor ((t - from g) / 1000) <= whole_seconds g)
      by (apply Math_floor_le; lra).
    lra. }
  apply Hgen; [exact Hticks |].
  pose proof (whole_seconds_nonneg g (conj Hle Hticks)). lra.
Qed.

Lemma session_display (gs : list Stretch) :
  Forall ordered gs ->
  forall w,
    at_rest w ->
    0 <= Timer.seconds (fst w) <= Timer.accumulatedRef (fst w) ->
    let w' := Timer.run w (session_events false gs) in
    0 <= Timer.seconds (fst w') <= Timer.accumulatedRef (fst w').
Proof.
  induction 1 as [| g gs Hg _ IH]; intros w Hrest Hshown; cbv zeta.
  - exact Hshown.
  - cbn [session_events]. unfold Timer.run. rewrite fold_left_app.
    change (fold_left Timer.step (stretch_events false g) w)
      with (Timer.run w (stretch_events false g)).
    destruct (stretch_run false g w Hrest) as (Hrest1 & Hacc1 & Hsec1 & _).
    cbv zeta in Hrest1, Hacc1, Hsec1.
    apply (IH _ Hrest1). rewrite Hacc1, Hsec1.
    apply reading_between; assumption.
Qed.

Lemma session_events_snoc (gs : list Stretch) (g : Stretch) :
  forall first,
    session_events first (gs ++ [g])
    = session_events first gs
      ++ stretch_events (match gs with [] => first | _ => false end) g.
Proof.
  induction gs as [| g0 gs IH]; intros first.
  - cbn [app session_events]. rewrite app_nil_r. reflexivity.
  - cbn [app session_events]. rewrite IH, <- app_assoc.
    destruct gs; reflexivity.
Qed.

(** X18.  While the timer is paused the seconds on display are what [stop]
    returns, and they are what the save step stores as the duration.  The
    display is the reading at the last firing of the interval: the whole
    seconds of the earlier stretches and those of the open stretch up to
    that firing.  With a clock that does not run backwards it is never
    negative and never ahead of the time counted. *)
Theorem X18_display_lags_the_count (gs : list Stretch) (now : number) :
  Forall ordered gs ->
  let w := Timer.run Timer.mounted (session_events true gs) in
  snd (Timer.stop now w) = Timer.seconds (fst w) /\
  0 <= Timer.seconds (fst w) <= Timer.accumulatedRef (fst w) /\
  (forall earlier g fires t,
     gs = earlier ++ [g] -> ticks g = fires ++ [t] ->
     Timer.seconds (fst w)
     = sum (map whole_seconds earlier)
       + Js.Math_floor ((t - from g) / 1000)).
Proof.
  intros Hordered. cbv zeta.
  destruct (session_from_mounted gs) as ((Hstart & Href & Hwin) & Hacc).
  cbv zeta in Hstart, Href, Hwin, Hacc.
  split; [| split].
  - unfold Timer.stop. rewrite Hstart.
    destruct (Timer.clearTimer _) as [s win]. reflexivity.
  - destruct Hordered as [| g gs Hg Hgs]; [cbn; lra |].
    cbn [session_events]. unfold Timer.run. rewrite fold_left_app.
    change (fold_left Timer.step (stretch_events true g) Timer.mounted)
      with (Timer.run Timer.mounted (stretch_events true g)).
    destruct (stretch_run true g _ mounted_at_rest)
      as (Hrest1 & Hacc1 & Hsec1 & _).
    cbv zeta in Hrest1, Hacc1, Hsec1.
    apply (session_display gs Hgs _ Hrest1). rewrite Hacc1, Hsec1.
    apply reading_between; [exact Hg |]. cbn. lra.
  - intros earlier g fires t -> Hticks.
    rewrite session_events_snoc. unfold Timer.run. rewrite fold_left_app.
    change (fold_left Timer.step (session_events true earlier) Timer.mounted)
      with (Timer.run Timer.mounted (session_events true earlier)).
    destruct (session_from_mounted earlier) as (Hrest0 & Hacc0).
    cbv zeta in Hrest0, Hacc0.
    match goal with
    | |- context [fold_left Timer.step (stretch_events ?first g) ?w0] =>
        change (fold_left Timer.step (stretch_events first g) w0)
          with (Timer.run w0 (stretch_events first g));
        destruct (stretch_run first g w0 Hrest0) as (_ & _ & Hsec & _)
    end.
    cbv zeta in Hsec. rewrite Hsec. unfold reading.
    rewrite Hticks, fold_left_app. cbn [fold_left]. f_equal.
    destruct earlier as [| g0 earlier]; [reflexivity | exact Hacc0].
Qed.

Lemma X18_display_lags_the_count_witness :
  let gs := [{| from := 0; ticks := [1000; 2000]; to := 2500 |};
             {| from := 9000; ticks := []; to := 9900 |}] in
  let w := Timer.run Timer.mounted (session_events true gs) in
  snd (Timer.stop 12000 w) = Timer.seconds (fst w) /\
  0 <= Timer.seconds (fst w) <= Timer.accumulatedRef (fst w) /\
  (forall earlier g fires t,
     gs = earlier ++ [g] -> ticks g = fires ++ [t] ->
     Timer.seconds (fst w)
     = sum (map whole_seconds earlier)
       + Js.Math_floor ((t - from g) / 1000)).
Proof.
  apply (X18_display_lags_the_count
           [{| from := 0; ticks := [1000; 2000]; to := 2500 |};
            {| from := 9000; ticks := []; to := 9900 |}] 12000).
  repeat constructor; cbn [from to]; lra.
Defined.

(** ** The geolocation hook between start and stop *)

Section Tracking.
Variable toISOString : number -> string.

Let toGps := Geolocation.toGpsPosition toISOString.
Let step := Geolocation.step toISOString.
Let run := Geolocation.run toISOString.

Lemma handlers_keep_display (position : Geolocation.Dom.GeolocationPosition)
    (entries : list (nat * Geolocation.Callbacks)) :
  forall s,
    Geolocation.positions s = Geolocation.positionsRef s ->
    let s' :=
      fold_left
        (fun s entry =>
           Geolocation.handlePosition toISOString
             (Geolocation.closed_over_isPaused (snd entry)) position s)
        entries s in
    Geolocation.positions s' = Geolocation.positionsRef s' /\
    Geolocation.isTracking s' = Geolocation.isTracking s /\
    exists added,
      Geolocation.positionsRef s' = Geolocation.positionsRef s ++ added.
Proof.
  induction entries as [| [id [closure]] entries IH]; intros s Hs; cbv zeta.
  - cbn [fold_left]. split; [exact Hs |]. split; [reflexivity |].
    exists []. rewrite app_nil_r. reflexivity.
  - cbn [fold_left snd Geolocation.closed_over_isPaused].
    match goal with
    | |- context [fold_left _ entries ?s1] =>
        destruct (IH s1) as (Hdisp & Htrack & added & Hadd)
    end.
    { destruct closure; cbn; [exact Hs | reflexivity]. }
    cbv zeta in Hdisp, Htrack, Hadd.
    split; [exact Hdisp |]. split; [rewrite Htrack; reflexivity |].
    rewrite Hadd. destruct closure; cbn.
    + exists added. reflexivity.
    + eexists. rewrite <- app_assoc. reflexivity.
Qed.

Lemma failures_keep_state
    (positionError : Geolocation.Dom.GeolocationPositionError)
    {A : Type} (entries : list A) :
  forall s,
    let s' :=
      fold_left (fun s _ => Geolocation.handleError positionError s)
        entries s in
    Geolocation.positions s' = Geolocation.positions s /\
    Geolocation.positionsRef s' = Geolocation.positionsRef s /\
    Geolocation.isTracking s' = Geolocation.isTracking s /\
    Geolocation.currentPosition s' = Geolocation.currentPosition s.
Proof.
  induction entries as [| entry entries IH]; intros s; cbv zeta.
  - repeat split.
  - cbn [fold_left].
    destruct (IH (Geolocation.handleError positionError s))
      as (H1 & H2 & H3 & H4).
    cbv zeta in H1, H2, H3, H4. rewrite H1, H2, H3, H4. repeat split.
Qed.

Lemma step_keeps_display (w : Geolocation.World) (e : Geolocation.Event) :
  Geolocation.positions (fst w) = Geolocation.positionsRef (fst w) ->
  Geolocation.positions (fst (step w e))
  = Geolocation.positionsRef (fst (step w e)).
Proof.
  destruct w as [s nav]. cbn [fst]. intros Hs.
  destruct e as [| | | | position | positionError | position | positionError];
    unfold step, Geolocation.step; cbn [fst snd].
  - unfold Geolocation.start. destruct (negb (Geolocation.supported nav));
      [exact Hs | reflexivity].
  - exact Hs.
  - exact Hs.
  - exact Hs.
  - apply (handlers_keep_display position). exact Hs.
  - destruct (failures_keep_state positionError (Geolocation.watches nav) s)
      as (H1 & H2 & _).
    cbv zeta in H1, H2. rewrite H1, H2. exact Hs.
  - destruct (Geolocation.requests nav) as [| [closure] rest]; [exact Hs |].
    cbn [fst]. destruct closure; cbn; [exact Hs | reflexivity].
  - destruct (Geolocation.requests nav) as [| callbacks rest]; exact Hs.
Qed.

(** X19.  Whatever the user presses and whatever the platform delivers,
    the track that the recording page shows is the track that the hook
    holds: the list on display is, at every moment, exactly what [stop]
    would return then. *)
Theorem X19_shown_track_is_returned_track (events : list Geolocation.Event) :
  let w := run Geolocation.mounted events in
  Geolocation.positions (fst w) = Geolocation.positionsRef (fst w) /\
  snd (Geolocation.stop w) = Geolocation.positions (fst w).
Proof.
  cbv zeta.
  assert (Hinv : forall evs w,
             Geolocation.positions (fst w) = Geolocation.positionsRef (fst w) ->
             Geolocation.positions (fst (run w evs))
             = Geolocation.positionsRef (fst (run w evs))).
  { induction evs as [| e evs IH]; intros w Hw; [exact Hw |].
    unfold run, Geolocation.run. cbn [fold_left].
    apply IH. apply step_keeps_display. exact Hw. }
  pose proof (Hinv events Geolocation.mounted eq_refl) as Hshown.
  split; [exact Hshown |].
  rewrite (stop_returns_positionsRef 0). symmetry. exact Hshown.
Qed.

Lemma step_keeps_fixes (w : Geolocation.World) (e : Geolocation.Event) :
  is_start e = false ->
  Geolocation.isTracking (fst (step w e)) = Geolocation.isTracking (fst w) /\
  exists added,
    Geolocation.positionsRef (fst (step w e))
    = Geolocation.positionsRef (fst w) ++ added.
Proof.
  destruct w as [s nav].
  assert (Hsame : forall s' : Geolocation.HookState,
             Geolocation.positionsRef s' = Geolocation.positionsRef s ->
             exists added,
               Geolocation.positionsRef s'
               = Geolocation.positionsRef s ++ added)
    by (intros s' ->; exists []; rewrite app_nil_r; reflexivity).
  destruct e as [| | | | position | positionError | position | positionError];
    intros Hstart; try discriminate;
    unfold step, Geolocation.step; cbn [fst snd].
  - split; [reflexivity | apply Hsame; reflexivity].
  - split; [reflexivity | apply Hsame; reflexivity].
  - split; [reflexivity | apply Hsame; reflexivity].
  - assert (Hgen : forall (entries : list (nat * Geolocation.Callbacks)) s0,
               let s' :=
                 fold_left
                   (fun s entry =>
                      Geolocation.handlePosition toISOString
                        (Geolocation.closed_over_isPaused (snd entry))
                        position s)
                   entries s0 in
               Geolocation.isTracking s' = Geolocation.isTracking s0 /\
               exists added,
                 Geolocation.positionsRef s'
                 = Geolocation.positionsRef s0 ++ added).
    { induction entries as [| [id [closure]] entries IH]; intros s0; cbv zeta.
      - split; [reflexivity |]. exists []. rewrite app_nil_r. reflexivity.
      - cbn [fold_left snd Geolocation.closed_over_isPaused].
        match goal with
        | |- context [fold_left _ entries ?s1] =>
            destruct (IH s1) as (Htrack & added & Hadd)
        end.
        cbv zeta in Htrack, Hadd. rewrite Htrack, Hadd.
        split; [reflexivity |]. destruct closure; cbn.
        + exists added. reflexivity.
        + eexists. rewrite <- app_assoc. reflexivity. }
    apply Hgen.
  - destruct (failures_keep_state positionError (Geolocation.watches nav) s)
      as (_ & H2 & H3 & _).
    cbv zeta in H2, H3. split; [exact H3 | apply Hsame; exact H2].
  - destruct (Geolocation.requests nav) as [| [closure] rest];
      [split; [reflexivity | apply Hsame; reflexivity] |].
    cbn [fst]. split; [reflexivity |]. destruct closure; cbn.
    + exists []. rewrite app_nil_r. reflexivity.
    + eexists. reflexivity.
  - destruct (Geolocation.requests nav) as [| callbacks rest];
      split; try reflexivity; apply Hsame; reflexivity.
Qed.

(** X20.  Between two starts nothing that was recorded is lost: a pause, a
    resume, a dismissed or a new error message and every delivery of the
    platform leave the fixes recorded so far in place, in their order, and
    can only add to them; none of them ends the tracking. *)
Theorem X20_recorded_fixes_are_kept (w : Geolocation.World)
    (events : list Geolocation.Event) :
  forallb (fun e => negb (is_start e)) events = true ->
  Geolocation.isTracking (fst (run w events))
  = Geolocation.isTracking (fst w) /\
  exists added,
    Geolocation.positionsRef (fst (run w events))
    = Geolocation.positionsRef (fst w) ++ added.
Proof.
  revert w. induction events as [| e events IH]; intros w Hevents.
  - split; [reflexivity |]. exists []. rewrite app_nil_r. reflexivity.
  - cbn [forallb] in Hevents. apply Bool.andb_true_iff in Hevents as [He Hrest].
    apply Bool.negb_true_iff in He.
    unfold run, Geolocation.run. cbn [fold_left].
    destruct (step_keeps_fixes w e He) as (Htrack & added & Hadd).
    destruct (IH (step w e) Hrest) as (Htrack' & added' & Hadd').
    unfold run, Geolocation.run in Htrack', Hadd'.
    unfold step in *.
    split; [rewrite Htrack'; exact Htrack |].
    exists (added ++ added'). rewrite Hadd', Hadd, app_assoc. reflexivity.
Qed.

End Tracking.

Lemma X20_recorded_fixes_are_kept_witness :
  let events :=
    [Geolocation.CallStart; Geolocation.WatchFix (fix_at 60)] in
  let later :=
    [Geolocation.CallPause;
     Geolocation.WatchFailure Geolocation.Dom.TIMEOUT;
     Geolocation.WatchFix (fix_at 61); Geolocation.CallResume] in
  let w := Geolocation.run epoch Geolocation.mounted events in
  Geolocation.isTracking (fst (Geolocation.run epoch w later))
  = Geolocation.isTracking (fst w) /\
  exists added,
    Geolocation.positionsRef (fst (Geolocation.run epoch w later))
    = Geolocation.positionsRef (fst w) ++ added.
Proof.
  apply (X20_recorded_fixes_are_kept epoch
           (Geolocation.run epoch Geolocation.mounted
              [Geolocation.CallStart; Geolocation.WatchFix (fix_at 60)])
           [Geolocation.CallPause;
            Geolocation.WatchFailure Geolocation.Dom.TIMEOUT;
            Geolocation.WatchFix (fix_at 61); Geolocation.CallResume]).
  reflexivity.
Defined.

Lemma watch_events_without_watch (toISOString : number -> string)
    (events : list Geolocation.Event) :
  forall w,
    Geolocation.watches (snd w) = [] ->
    forallb from_watch events = true ->
    Geolocation.run toISOString w events = w.
Proof.
  induction events as [| e events IH]; intros w Hw Hevents; [reflexivity |].
  cbn [forallb] in Hevents. apply Bool.andb_true_iff in Hevents as [He Hrest].
  unfold Geolocation.run. cbn [fold_left].
  assert (Hstep : Geolocation.step toISOString w e = w).
  { destruct w as [s nav]. cbn [snd] in Hw.
    destruct e; try discriminate; unfold Geolocation.step; cbn [fst snd];
      rewrite Hw; reflexivity. }
  rewrite Hstep. apply IH; assumption.
Qed.

(** X21.  Stopping ends the delivery: the watch is removed from the
    platform, so no fix and no failure that a watch would report afterwards
    changes anything, the recorded track included.  A recording started
    after that begins with an empty track, and its [stop] returns the fixes
    of the new recording only. *)
Theorem X21_stop_ends_the_delivery (toISOString : number -> string)
    (id : nat) (w : Geolocation.World) :
  watching id w ->
  Geolocation.supported (snd w) = true ->
  let stopped := fst (Geolocation.stop w) in
  Geolocation.watches (snd stopped) = [] /\
  Geolocation.isTracking (fst stopped) = false /\
  Geolocation.isPaused (fst stopped) = false /\
  Geolocation.positionsRef (fst stopped) = Geolocation.positionsRef (fst w) /\
  (forall events,
     forallb from_watch events = true ->
     Geolocation.run toISOString stopped events = stopped) /\
  (forall fixes,
     snd (Geolocation.stop
            (Geolocation.run toISOString stopped
               (Geolocation.CallStart :: map Geolocation.WatchFix fixes)))
     = map (Geolocation.toGpsPosition toISOString) fixes).
Proof.
  destruct w as [s nav]. intros [Hwatch Href] Hsupported. cbn [fst snd] in *.
  cbv zeta.
  assert (Hstop :
    fst (Geolocation.stop (s, nav))
    = ({| Geolocation.currentPosition := Geolocation.currentPosition s;
          Geolocation.positions := Geolocation.positions s;
          Geolocation.isTracking := false; Geolocation.isPaused := false;
          Geolocation.error := Geolocation.error s;
          Geolocation.watchIdRef := None;
          Geolocation.positionsRef := Geolocation.positionsRef s |},
       {| Geolocation.supported := Geolocation.supported nav;
          Geolocation.watches := [];
          Geolocation.requests := Geolocation.requests nav;
          Geolocation.nextWatchId := Geolocation.nextWatchId nav |})).
  { unfold Geolocation.stop, Geolocation.clearWatch.
    rewrite Href, Hwatch. cbn [filter fst]. rewrite Nat.eqb_refl.
    reflexivity. }
  rewrite Hstop.
  cbn [fst snd Geolocation.watches Geolocation.isTracking
       Geolocation.isPaused Geolocation.positionsRef].
  split; [reflexivity |]. split; [reflexivity |]. split; [reflexivity |].
  split; [reflexivity |]. split.
  - intros events Hevents.
    apply watch_events_without_watch; [reflexivity | exact Hevents].
  - intros fixes. rewrite (stop_returns_positionsRef 0).
    unfold Geolocation.run. cbn [fold_left].
    match goal with
    | |- context [fold_left _ _ ?w0] =>
        destruct (watch_fixes_append toISOString
                    (Geolocation.nextWatchId nav) fixes w0) as [_ Hfixes]
    end.
    { unfold Geolocation.step, Geolocation.start.
      cbn [Geolocation.supported]. rewrite Hsupported.
      cbn [negb]. split; reflexivity. }
    cbv zeta in Hfixes. unfold Geolocation.run in Hfixes. rewrite Hfixes.
    unfold Geolocation.step, Geolocation.start.
    cbn [Geolocation.supported]. rewrite Hsupported. reflexivity.
Qed.

Lemma X21_stop_ends_the_delivery_witness :
  let w := Geolocation.run epoch Geolocation.mounted
             [Geolocation.CallStart; Geolocation.WatchFix (fix_at 60)] in
  let stopped := fst (Geolocation.stop w) in
  Geolocation.watches (snd stopped) = [] /\
  Geolocation.isTracking (fst stopped) = false /\
  Geolocation.isPaused (fst stopped) = false /\
  Geolocation.positionsRef (fst stopped) = Geolocation.positionsRef (fst w) /\
  (forall events,
     forallb from_watch events = true ->
     Geolocation.run epoch stopped events = stopped) /\
  (forall fixes,
     snd (Geolocation.stop
            (Geolocation.run epoch stopped
               (Geolocation.CallStart :: map Geolocation.WatchFix fixes)))
     = map (Geolocation.toGpsPosition epoch) fixes).
Proof.
  apply (X21_stop_ends_the_delivery epoch 0
           (Geolocation.run epoch Geolocation.mounted
              [Geolocation.CallStart; Geolocation.WatchFix (fix_at 60)])).
  - split; reflexivity.
  - reflexivity.
Defined.

(** ** Export and the store it was taken from *)

(** X22.  Restoring a backup into the store it was taken from changes
    nothing: every activity of the file is found in the store and skipped,
    the run reports success with nothing imported and no error, and the
    store is left exactly as it was. *)
Theorem X22_restoring_own_backup (JSON_parse : string -> option Json.JSON)
    (ToString : Json.JsValue -> string) (describe : Db.Thrown -> string)
    (now jsonData : string) (d : Db.Database) :
  Forall activity_row_ok (Db.activities d) ->
  JSON_parse jsonData = Some (exported_bundle now d) ->
  ExportImport.exportAllActivities now d = Db.Ok (exported_bundle now d) /\
  ExportImport.importActivities JSON_parse ToString describe jsonData d
  = (all_skipped (List.length (Db.activities d)), d).
Proof.
  intros Hrows Hparse. split; [apply exportAllActivities_ok; exact Hrows |].
  rewrite (import_accepted JSON_parse ToString describe jsonData
             (exported_bundle now d) d Hparse
             (exported_bundle_accepted now d Hrows)).
  cbv zeta.
  change (items_of (exported_bundle now d))
    with (map (exported_item d) (Db.activities d)).
  rewrite (loop_all_present ToString describe).
  - cbn [fst snd ExportImport.errors ExportImport.imported
         ExportImport.skipped ExportImport.success List.length Nat.eqb orb
         Nat.add].
    rewrite length_map. reflexivity.
  - apply Forall_map. eapply Forall_impl; [| exact Hrows].
    intros a. apply exported_item_well_formed.
  - apply Forall_forall. intros item Hitem.
    apply in_map_iff in Hitem as (a & <- & Ha).
    rewrite Forall_forall in Hrows.
    destruct (row_key_string a (Hrows a Ha)) as (aprops & s & -> & Hid & _).
    exists s. split; [exact Hid |].
    apply present_iff. exists (Json.JObject aprops). split; [exact Ha |].
    exact Hid.
Qed.

Lemma X22_restoring_own_backup_witness :
  ExportImport.exportAllActivities "2024-06-01T00:00:00.000Z" walk_store
  = Db.Ok (exported_bundle "2024-06-01T00:00:00.000Z" walk_store) /\
  ExportImport.importActivities
    (parse_as "backup" (exported_bundle "2024-06-01T00:00:00.000Z" walk_store))
    render_value render_exception "backup" walk_store
  = (all_skipped (List.length (Db.activities walk_store)), walk_store).
Proof.
  apply (X22_restoring_own_backup
           (parse_as "backup"
              (exported_bundle "2024-06-01T00:00:00.000Z" walk_store))
           render_value render_exception "2024-06-01T00:00:00.000Z" "backup"
           walk_store).
  - apply walk_store_ok.
  - reflexivity.
Defined.

Lemma exportActivity_unfold (s : string) (d : Db.Database) :
  ExportImport.exportActivity s d
  = Db.Ok (option_map (exported_item d)
             (find (Db.keyed "id" (Json.JString s)) (Db.activities d))).
Proof.
  unfold ExportImport.exportActivity, Db.table_get, Db.where_equals.
  cbn [Db.valid_key Db.bind].
  destruct (find _ (Db.activities d)) as [a |] eqn:Hfind; [| reflexivity].
  rewrite (found_row_is_truthy _ _ _ _ Hfind). cbn [negb Db.bind option_map].
  apply find_some in Hfind as [_ Hkey].
  apply keyed_string in Hkey as (props & -> & Hid).
  unfold exported_item, row_key. cbn [Json.prop]. rewrite Hid. reflexivity.
Qed.

(** X23.  Exporting one activity gives nothing exactly when no activity is
    stored under the identifier, and otherwise the entry that the export of
    the whole store holds for that activity: the stored row and the samples
    that carry its identifier, in the order of the table and without their
    keys. *)
Theorem X23_single_export_agrees_with_full_export (now activityId : string)
    (d : Db.Database) :
  (ExportImport.exportActivity activityId d = Db.Ok None
   <-> ~ present (Json.JString activityId) d) /\
  (forall a,
     find (Db.keyed "id" (Json.JString activityId)) (Db.activities d) = Some a ->
     ExportImport.exportActivity activityId d
     = Db.Ok (Some (Json.JObject [
         ("activity", a);
         ("gpsPoints", Json.JArray (samples_of activityId d))])) /\
     (Forall activity_row_ok (Db.activities d) ->
      exists items,
        ExportImport.exportAllActivities now d
        = Db.Ok (Json.JObject [("version", Json.JString "1.0");
                               ("exportedAt", Json.JString now);
                               ("activities", Json.JArray items)]) /\
        In (Json.JObject [
              ("activity", a);
              ("gpsPoints", Json.JArray (samples_of activityId d))]) items)).
Proof.
  rewrite exportActivity_unfold. unfold present. split.
  - destruct (find _ (Db.activities d)) as [a |] eqn:Hfind; cbn [option_map].
    + split; [discriminate |]. intros Habsent. exfalso. apply Habsent.
      apply find_existsb. exists a. exact Hfind.
    + split; [| reflexivity]. intros _ Hpresent.
      apply find_existsb in Hpresent as (a & Ha). congruence.
  - intros a Hfind. rewrite Hfind. cbn [option_map].
    pose proof (find_some _ _ Hfind) as [Hin Hkey].
    apply keyed_string in Hkey as (props & -> & Hid).
    assert (Hitem : exported_item d (Json.JObject props)
                    = Json.JObject [
                        ("activity", Json.JObject props);
                        ("gpsPoints", Json.JArray (samples_of activityId d))]).
    { unfold exported_item, row_key. cbn [Json.prop]. rewrite Hid.
      reflexivity. }
    split; [rewrite Hitem; reflexivity |].
    intros Hrows. exists (map (exported_item d) (Db.activities d)).
    split; [apply exportAllActivities_ok; exact Hrows |].
    rewrite <- Hitem. apply in_map. exact Hin.
Qed.

(** ** Durations and pace on display (utils/format.ts) *)

Lemma rem_nonneg (x c : number) :
  0 <= x -> 0 < c -> Js.rem x c = x - c * IZR (Zfloor (x / c)).
Proof.
  intros Hx Hc. unfold Js.rem, Js.Math_trunc.
  destruct (Rle_dec 0 (x / c)) as [_ | Hneg]; [reflexivity |].
  exfalso. apply Hneg. apply Rmult_le_pos; [exact Hx |].
  apply Rlt_le, Rinv_0_lt_compat, Hc.
Qed.

Lemma floor_minus_multiple (x : number) (z : Z) :
  Zfloor (x - IZR z) = (Zfloor x - z)%Z.
Proof.
  replace (x - IZR z) with (x + IZR (- z)) by (rewrite opp_IZR; lra).
  rewrite Zfloor_addz. lia.
Qed.

Lemma quotient_bounds (x c : number) :
  0 < c ->
  c * IZR (Zfloor (x / c)) <= x < c * IZR (Zfloor (x / c)) + c.
Proof.
  intros Hc. pose proof (Zfloor_bound (x / c)) as [Hlo Hhi].
  assert (Hx : x = c * (x / c)) by (field; lra).
  split.
  - rewrite Hx at 2. apply Rmult_le_compat_l; lra.
  - rewrite Hx at 1.
    replace (c * IZR (Zfloor (x / c)) + c)
      with (c * (IZR (Zfloor (x / c)) + 1)) by ring.
    apply Rmult_lt_compat_l; lra.
Qed.

Lemma seconds_field (x : number) :
  0 <= x ->
  Js.Math_floor (Js.rem x 60) = IZR (Zfloor x - 60 * Zfloor (x / 60)) /\
  (0 <= Zfloor x - 60 * Zfloor (x / 60) <= 59)%Z.
Proof.
  intros Hx. rewrite rem_nonneg by lra. unfold Js.Math_floor.
  replace (60 * IZR (Zfloor (x / 60))) with (IZR (60 * Zfloor (x / 60)))
    by (rewrite mult_IZR; reflexivity).
  rewrite floor_minus_multiple. split; [reflexivity |].
  pose proof (quotient_bounds x 60 ltac:(lra)) as [Hlo Hhi].
  pose proof (Zfloor_bound x) as [Hfl Hfu].
  split.
  - assert (60 * Zfloor (x / 60) <= Zfloor x)%Z; [| lia].
    apply Zfloor_lub. rewrite mult_IZR. exact Hlo.
  - assert (Zfloor x < 60 * Zfloor (x / 60) + 60)%Z; [| lia].
    apply lt_IZR. rewrite plus_IZR, mult_IZR. lra.
Qed.

Lemma minutes_field (x : number) :
  0 <= x ->
  Js.Math_floor (Js.rem x 3600 / 60)
  = IZR (Zfloor (x / 60) - 60 * Zfloor (x / 3600)) /\
  (0 <= Zfloor (x / 60) - 60 * Zfloor (x / 3600) <= 59)%Z.
Proof.
  intros Hx. rewrite rem_nonneg by lra. unfold Js.Math_floor.
  replace ((x - 3600 * IZR (Zfloor (x / 3600))) / 60)
    with (x / 60 - IZR (60 * Zfloor (x / 3600)))
    by (rewrite mult_IZR; field).
  rewrite floor_minus_multiple. split; [reflexivity |].
  pose proof (quotient_bounds x 3600 ltac:(lra)) as [Hlo Hhi].
  pose proof (Zfloor_bound (x / 60)) as [Hfl Hfu].
  split.
  - assert (60 * Zfloor (x / 3600) <= Zfloor (x / 60))%Z; [| lia].
    apply Zfloor_lub. rewrite mult_IZR. lra.
  - assert (Zfloor (x / 60) < 60 * Zfloor (x / 3600) + 60)%Z; [| lia].
    apply lt_IZR. rewrite plus_IZR, mult_IZR. lra.
Qed.

Lemma padStart_two (s : string) :
  exists zeros,
    Format.padStart s 2 "0" = (zeros ++ s)%string /\
    (zeros = "" \/ zeros = "0" \/ zeros = "00") /\
    String.length (Format.padStart s 2 "0") = Nat.max 2 (String.length s).
Proof.
  destruct s as [| c [| c' s]].
  - exists "00". repeat split. right; right; reflexivity.
  - exists "0". repeat split. right; left; reflexivity.
  - exists "". repeat split. left; reflexivity.
Qed.

(** X24.  The clock on display is the duration in whole seconds, split up
    without loss: for a duration that is not negative the hours, minutes and
    seconds fields are whole numbers, minutes and seconds lie between 0 and
    59, and 3600 hours + 60 minutes + seconds is the duration rounded down.
    Below one hour the hours field is left out.  The minutes and seconds
    after a colon are written with at least two characters, padded with
    zeros. *)
Theorem X24_duration_fields (ToString : number -> string) :
  (forall seconds,
     0 <= seconds ->
     exists h m s : Z,
       Format.hrs seconds = IZR h /\ Format.mins seconds = IZR m /\
       Format.secs seconds = IZR s /\
       (0 <= h)%Z /\ (0 <= m <= 59)%Z /\ (0 <= s <= 59)%Z /\
       (3600 * h + 60 * m + s)%Z = Zfloor seconds) /\
  (forall seconds,
     0 <= seconds < 3600 ->
     Format.formatDuration ToString seconds
     = (ToString (Format.mins seconds) ++ ":"
        ++ Format.padStart (ToString (Format.secs seconds)) 2 "0")%string) /\
  (forall seconds,
     3600 <= seconds ->
     Format.formatDuration ToString seconds
     = (ToString (Format.hrs seconds) ++ ":"
        ++ Format.padStart (ToString (Format.mins seconds)) 2 "0" ++ ":"
        ++ Format.padStart (ToString (Format.secs seconds)) 2 "0")%string) /\
  (forall field,
     String.length (Format.padStart field 2 "0")
     = Nat.max 2 (String.length field)).
Proof.
  split; [| split; [| split]].
  - intros x Hx.
    destruct (seconds_field x Hx) as [Hs Hsb].
    destruct (minutes_field x Hx) as [Hm Hmb].
    exists (Zfloor (x / 3600)), (Zfloor (x / 60) - 60 * Zfloor (x / 3600))%Z,
      (Zfloor x - 60 * Zfloor (x / 60))%Z.
    split; [reflexivity |]. split; [exact Hm |]. split; [exact Hs |].
    split; [apply (Zfloor_lub 0); apply Rmult_le_pos; lra |].
    split; [exact Hmb |]. split; [exact Hsb |]. lia.
  - intros x [Hlo Hhi]. unfold Format.formatDuration. cbv zeta.
    destruct (Rlt_dec 0 (Format.hrs x)) as [Hpos | _]; [| reflexivity].
    exfalso. unfold Format.hrs, Js.Math_floor in Hpos.
    pose proof (Zfloor_bound (x / 3600)) as [Hfl _].
    apply lt_IZR in Hpos. assert (1 <= Zfloor (x / 3600))%Z by lia.
    assert (1 <= IZR (Zfloor (x / 3600))) by (apply IZR_le; assumption).
    lra.
  - intros x Hx. unfold Format.formatDuration. cbv zeta.
    destruct (Rlt_dec 0 (Format.hrs x)) as [_ | Hnot]; [reflexivity |].
    exfalso. apply Hnot. unfold Format.hrs, Js.Math_floor.
    apply IZR_lt. assert (1 <= Zfloor (x / 3600))%Z; [| lia].
    apply Zfloor_lub. lra.
  - intros field. destruct (padStart_two field) as (_ & _ & _ & Hlen).
    exact Hlen.
Qed.

(** X25.  The pace field shows a placeholder for a speed that is zero or
    negative; for a positive speed its minutes and seconds are whole numbers,
    the seconds lie between 0 and 59, and 60 minutes + seconds is the number
    of seconds per kilometre, [1000 / speed], rounded down. *)
Theorem X25_pace_fields (ToString : number -> string) :
  (forall speedMps,
     speedMps <= 0 -> Format.formatPace ToString speedMps = "--:-- /km") /\
  (forall speedMps,
     0 < speedMps ->
     exists m s : Z,
       Format.formatPace ToString speedMps
       = (ToString (IZR m) ++ ":" ++ Format.padStart (ToString (IZR s)) 2 "0"
          ++ " /km")%string /\
       (0 <= m)%Z /\ (0 <= s <= 59)%Z /\
       (60 * m + s)%Z = Zfloor (1000 / speedMps)).
Proof.
  split.
  - intros v Hv. unfold Format.formatPace.
    destruct (Rle_dec v 0); [reflexivity | contradiction].
  - intros v Hv. unfold Format.formatPace.
    destruct (Rle_dec v 0) as [Hle | _]; [lra |]. cbv zeta.
    assert (Hp : 0 <= 1000 / v)
      by (apply Rmult_le_pos; [lra | apply Rlt_le, Rinv_0_lt_compat, Hv]).
    destruct (seconds_field (1000 / v) Hp) as [Hs Hsb].
    exists (Zfloor (1000 / v / 60)),
      (Zfloor (1000 / v) - 60 * Zfloor (1000 / v / 60))%Z.
    rewrite Hs. split; [reflexivity |].
    split; [apply (Zfloor_lub 0); apply Rmult_le_pos; lra |].
    split; [exact Hsb | lia].
Qed.

(** ** The stores that the application writes *)

Lemma save_is_sound (positions : list Geolocation.GpsPosition)
    (duration : number) (sportType title notes now activityId : string)
    (d d' : Db.Database) :
  activityId <> "" ->
  In sportType (map Db.value Db.SPORT_TYPES) ->
  now <> "" ->
  Forall (fun p => Geolocation.timestamp p <> "") positions ->
  RecordActivity.written
    (RecordActivity.handleSave positions duration sportType title notes
       now activityId d) = Db.Ok d' ->
  store_ok d /\ referential_integrity d ->
  store_ok d' /\ referential_integrity d'.
Proof.
  intros Hid Hsport Hnow Hstamps Hwritten [[Hrows Hkeys] Hint].
  pose proof (handleSave_written positions duration sportType title notes
                now activityId d) as Hw.
  pose proof (handleSave_points positions duration sportType title notes
                now activityId d) as (Hsid & _ & Hall).
  cbv zeta in Hw, Hsid, Hall. rewrite Hw in Hwritten.
  destruct (existsb _ (Db.activities d)) eqn:Habsent; [discriminate |].
  injection Hwritten as <-.
  set (s := RecordActivity.handleSave positions duration sportType title notes
              now activityId d) in *.
  assert (Hnew : present (Json.JString activityId) (saved_store d s)).
  { apply (present_new_activity activityId d (saved_store d s)
             (Json.spread (Db.Activity_object (RecordActivity.activity s))));
      [reflexivity |].
    rewrite <- Hsid. reflexivity. }
  split; [split |].
  - unfold saved_store. cbn [Db.activities]. apply Forall_app.
    split; [exact Hrows |]. constructor; [| constructor].
    unfold activity_row_ok, truthy_string.
    split; [| split]; eexists; (split; [reflexivity |]).
    + exact Hid.
    + change (sportType <> ""). simpl in Hsport. intros Hempty.
      rewrite Hempty in Hsport.
      repeat (destruct Hsport as [Hsport | Hsport]; [discriminate |]).
      contradiction.
    + destruct positions as [| p positions]; [exact Hnow |].
      change (Geolocation.timestamp p <> "").
      inversion Hstamps; assumption.
  - unfold saved_store. cbn [Db.activities]. rewrite map_app.
    cbn [map]. apply NoDup_app.
    + exact Hkeys.
    + constructor; [intros [] | constructor].
    + intros key Hold [<- | []].
      apply in_map_iff in Hold as (row & Hrow & Hin).
      assert (Hp : present (Json.JString activityId) d)
        by (apply present_iff; exists row; split;
            [exact Hin | rewrite Hrow; rewrite <- Hsid; reflexivity]).
      unfold present in Hp. congruence.
  - pose proof (stored_samples_keyed activityId _ Hall
                  (Db.gpsPoints_generator d)) as [Hkeyed _].
    unfold referential_integrity, saved_store.
    cbn [Db.gpsPoints]. apply Forall_app. split.
    + eapply Forall_impl; [| exact Hint].
      intros row (k & Hk & Hp). exists k. split; [exact Hk |].
      apply (present_with_activity k d _
               (Db.Activity_object (RecordActivity.activity s)));
        [reflexivity | exact Hp].
    + eapply Forall_impl; [| exact Hkeyed].
      intros row Hrow. exists (Json.JString activityId).
      split; [exact Hrow | exact Hnew].
Qed.

Lemma delete_is_sound (id : option string) (d d' : Db.Database) :
  ActivityDetail.handleDelete id d = Db.Ok d' ->
  store_ok d /\ referential_integrity d ->
  store_ok d' /\ referential_integrity d'.
Proof.
  unfold ActivityDetail.handleDelete. intros Hdelete Hsound.
  destruct (ActivityDetail.no_id id);
    [injection Hdelete as <-; exact Hsound |].
  destruct id as [s |]; [| injection Hdelete as <-; exact Hsound].
  destruct Hsound as [[Hrows Hkeys] Hint].
  change (UseActivities.deleteActivity s d = Db.Ok d') in Hdelete.
  rewrite deleteActivity_unfold in Hdelete. injection Hdelete as <-.
  split; [split |]; cbn [Db.activities Db.gpsPoints].
  - apply Forall_forall. intros a Ha. apply filter_In in Ha as [Ha _].
    rewrite Forall_forall in Hrows. apply Hrows. exact Ha.
  - apply kept_keys_distinct. exact Hkeys.
  - unfold referential_integrity. cbn [Db.gpsPoints].
    apply Forall_forall. intros row Hrow.
    apply filter_In in Hrow as [Hin Hkept].
    unfold referential_integrity in Hint. rewrite Forall_forall in Hint.
    destruct (Hint row Hin) as (k & Hk & Hp).
    exists k. split; [exact Hk |]. unfold present in *.
    cbn [Db.activities].
    rewrite existsb_filter_other; [exact Hp |].
    intros a Ha. apply keyed_other with (k := k); [| exact Ha].
    intros ->. unfold Db.keyed in Hkept. rewrite Hk in Hkept.
    simpl in Hkept. rewrite String.eqb_refl in Hkept. discriminate.
Qed.

Lemma edited_row_ok (page : ActivityDetail.Page) (s : string)
    (row : Json.JSON) :
  Db.keyed "id" (Json.JString s) row = true ->
  activity_row_ok row ->
  activity_row_ok (edited page row) /\ row_key (edited page row) = row_key row.
Proof.
  intros Hkeyed Hok. apply keyed_string in Hkeyed as (props & -> & _).
  unfold activity_row_ok, row_key in *.
  rewrite !edited_keeps by discriminate. split; [exact Hok | reflexivity].
Qed.

Lemma edit_is_sound (page page' : ActivityDetail.Page) (d d' : Db.Database) :
  ActivityDetail.handleSaveEdit page d = Db.Ok (page', d') ->
  store_ok d /\ referential_integrity d ->
  store_ok d' /\ referential_integrity d'.
Proof.
  unfold ActivityDetail.handleSaveEdit. intros Hedit Hsound.
  destruct (_ || _)%bool; [injection Hedit as _ <-; exact Hsound |].
  destruct (ActivityDetail.id page) as [s |];
    [| injection Hedit as _ <-; exact Hsound].
  destruct (ActivityDetail.activity page) as [a |];
    [| injection Hedit as _ <-; exact Hsound].
  destruct Hsound as [[Hrows Hkeys] Hint].
  cbv zeta in Hedit. unfold Db.activities_update in Hedit.
  cbn [Db.valid_key Db.bind] in Hedit. injection Hedit as _ <-.
  set (upd := fun row : Json.JSON =>
                if Db.keyed "id" (Json.JString s) row
                then edited page row else row).
  change (store_ok {| Db.activities := map upd (Db.activities d);
                      Db.gpsPoints := Db.gpsPoints d;
                      Db.gpsPoints_generator := Db.gpsPoints_generator d |} /\
          referential_integrity
            {| Db.activities := map upd (Db.activities d);
               Db.gpsPoints := Db.gpsPoints d;
               Db.gpsPoints_generator := Db.gpsPoints_generator d |}).
  assert (Hkey : forall k row, Db.keyed "id" k (upd row) = Db.keyed "id" k row).
  { intros k row. unfold upd.
    destruct (Db.keyed "id" (Json.JString s) row) eqn:Hrow; [| reflexivity].
    apply (edited_keyed page s). exact Hrow. }
  split; [split |]; cbn [Db.activities Db.gpsPoints].
  - apply Forall_map. eapply Forall_impl; [| exact Hrows].
    intros row Hok. unfold upd.
    destruct (Db.keyed "id" (Json.JString s) row) eqn:Hrow; [| exact Hok].
    apply (edited_row_ok page s row Hrow Hok).
  - rewrite map_map.
    replace (map (fun row => row_key (upd row)) (Db.activities d))
      with (map row_key (Db.activities d)); [exact Hkeys |].
    apply map_ext_in. intros row Hin. unfold upd.
    destruct (Db.keyed "id" (Json.JString s) row) eqn:Hrow; [| reflexivity].
    rewrite Forall_forall in Hrows. symmetry.
    apply (edited_row_ok page s row Hrow (Hrows row Hin)).
  - unfold referential_integrity. cbn [Db.gpsPoints].
    eapply Forall_impl; [| exact Hint].
    intros row (k & Hk & Hp). exists k. split; [exact Hk |].
    unfold present in *. cbn [Db.activities].
    rewrite (existsb_map_same _ upd _ (Hkey k)). exact Hp.
Qed.

(** Every store that the application writes has well-formed activity rows
    under distinct keys, and only samples that name a stored activity: the
    stores of the round trip (C2). *)
Lemma app_store_is_sound (JSON_parse : string -> option Json.JSON)
    (ToString : Json.JsValue -> string) (describe : Db.Thrown -> string)
    (d : Db.Database) :
  app_store JSON_parse ToString describe d ->
  store_ok d /\ referential_integrity d.
Proof.
  induction 1 as [| d d' positions duration sportType title notes now
                    activityId _ IH Hid Hsport Hnow Hstamps Hwritten
                  | d jsonData _ IH
                  | d d' page page' _ IH Hedit
                  | d d' id _ IH Hdelete].
  - split; [split |]; constructor.
  - exact (save_is_sound positions duration sportType title notes now
             activityId d d' Hid Hsport Hnow Hstamps Hwritten IH).
  - destruct IH as [Hok Hint]. split.
    + apply import_keeps_store_ok. exact Hok.
    + apply import_keeps_integrity. exact Hint.
  - exact (edit_is_sound page page' d d' Hedit IH).
  - exact (delete_is_sound id d d' Hdelete IH).
Qed.
